(** * A shallow embedding of [copy_file_and_check_duplicates_md5.py]

    The program walks a source directory tree and copies into a target tree
    every file whose MD5 is not yet known, renaming on name collisions.  The
    class [UnixStyleFileMerger] keeps a set of hashes ([target_md5s]), a
    dictionary of counters ([stats]) and the path of a log file that lives
    directly under the target root.

    The embedding threads one [state] through the methods.  It holds the
    fields of the object and the part of the outside world the methods write
    to: the target tree (a finite map from paths relative to the target root
    to nodes), the console and the remaining standard input.  The source tree
    is only ever read; it is passed as the list of files in the order in
    which [os.walk] yields them, and is assumed disjoint from the target
    tree.  What the operating system decides (the digest function, the free
    space, whether a copy fails, whether the log file can be opened, whether
    the clock has advanced, how a log line is rendered) is a parameter of
    the development. *)

From Stdlib Require Import ZArith String Ascii List Decimal DecimalString DecimalNat.
From stdpp Require Import gmap strings list fin_maps.

Local Open Scope Z_scope.

(** ** Paths, as [pathlib] sees them *)

Abbreviation path := (list string).

(** [path.name] and [path.parent] *)
Definition path_name (p : path) : string := List.last p "".
Definition path_parent (p : path) : path := removelast p.

(** [name.rfind(c)]: the index of the last occurrence of [c] *)
Fixpoint rfind (c : ascii) (s : string) : option nat :=
  match s with
  | EmptyString => None
  | String a s' =>
      match rfind c s' with
      | Some i => Some (S i)
      | None => if Ascii.eqb a c then Some 0%nat else None
      end
  end.

(** [path.suffix] and [path.stem]: the name is split at its last dot, unless
    that dot is the first or the last character of the name. *)
Definition split_ext (name : string) : string * string :=
  match rfind "." name with
  | Some i =>
      if ((0 <? i)%nat && (i <? String.length name - 1)%nat)%bool
      then (substring 0 i name, substring i (String.length name - i) name)
      else (name, "")
  | None => (name, "")
  end.

Definition path_stem (p : path) : string := fst (split_ext (path_name p)).
Definition path_suffix (p : path) : string := snd (split_ext (path_name p)).

(** How an f-string prints a positive counter *)
Definition decimal (n : nat) : string := NilEmpty.string_of_uint (Nat.to_uint n).

(** [f"{stem}_{counter}{suffix}"] *)
Definition numbered (stem suffix : string) (counter : nat) : string :=
  stem +:+ "_" +:+ decimal counter +:+ suffix.

(** [parent / f"{stem}_{counter}{suffix}"] *)
Definition candidate (parent : path) (stem suffix : string) (counter : nat) : path :=
  parent ++ [numbered stem suffix counter].

(** All prefixes of a path, the shortest (the root) first *)
Fixpoint prefixes (p : path) : list path :=
  match p with
  | [] => [[]]
  | x :: p' => [] :: map (cons x) (prefixes p')
  end.

(** ** Files and trees *)

Record file := File { data : string; readable : bool }.

Inductive node :=
  | NFile (f : file)
  | NDir.

(** A file of the source tree, with its path relative to the source root *)
Record src_file := Src { rel : path; body : file }.

Definition is_file (n : option node) : bool :=
  match n with Some (NFile _) => true | _ => false end.

(** [st_size] *)
Definition st_size (f : file) : Z := Z.of_nat (String.length (data f)).

(** [os.walk(root)] restricted to the names it reports in [files]; a root that
    is not a directory yields nothing.  The order of [os.walk] is that of the
    operating system; here it is the order of the map, and no statement
    below depends on it. *)
Definition os_walk (t : gmap path node) : list path :=
  match t !! [] with
  | Some NDir =>
      omap (λ pn : path * node,
              match pn.2 with NFile _ => Some pn.1 | NDir => None end)
           (map_to_list t)
  | _ => []
  end.

(** [Path.mkdir(parents=True, exist_ok=True)]: fails when a component is a
    regular file, otherwise every missing component becomes a directory. *)
Definition mkdir_parents (d : path) (t : gmap path node) : option (gmap path node) :=
  if existsb (λ q, is_file (t !! q)) (prefixes d) then None
  else Some (foldr (λ q t', <[q := NDir]> t') t (prefixes d)).

(** ** The object and its world *)

Record stats_t := Stats {
  source_files : Z;
  target_files : Z;
  duplicates : Z;
  copied : Z;
  errors : Z;
  total_size : Z
}.

(** What the program says: [self.log] writes to the console and to the log
    file, [print] to the console only.  A message keeps its fixed text, the
    path it is about and its numbers as exact integers. *)
Inductive event :=
  | Logged (tag : string) (about : path) (nums : list Z)
  | Printed (tag : string) (nums : list Z).

Record state := State {
  tree : gmap path node;
  log_file : path;
  target_md5s : gset string;
  stats : stats_t;
  console : list event;
  stdin : list string
}.

Definition set_tree (t : gmap path node) (s : state) : state :=
  State t (log_file s) (target_md5s s) (stats s) (console s) (stdin s).
Definition set_md5s (i : gset string) (s : state) : state :=
  State (tree s) (log_file s) i (stats s) (console s) (stdin s).
Definition set_stats (c : stats_t) (s : state) : state :=
  State (tree s) (log_file s) (target_md5s s) c (console s) (stdin s).
Definition set_stdin (l : list string) (s : state) : state :=
  State (tree s) (log_file s) (target_md5s s) (stats s) (console s) l.
Definition emit (e : event) (s : state) : state :=
  State (tree s) (log_file s) (target_md5s s) (stats s) (console s ++ [e]) (stdin s).

Definition add_source_files (c : stats_t) : stats_t :=
  Stats (source_files c + 1) (target_files c) (duplicates c) (copied c) (errors c) (total_size c).
Definition set_target_files (n : Z) (c : stats_t) : stats_t :=
  Stats (source_files c) n (duplicates c) (copied c) (errors c) (total_size c).
Definition add_duplicates (c : stats_t) : stats_t :=
  Stats (source_files c) (target_files c) (duplicates c + 1) (copied c) (errors c) (total_size c).
Definition add_copied (c : stats_t) : stats_t :=
  Stats (source_files c) (target_files c) (duplicates c) (copied c + 1) (errors c) (total_size c).
Definition add_errors (c : stats_t) : stats_t :=
  Stats (source_files c) (target_files c) (duplicates c) (copied c) (errors c + 1) (total_size c).
Definition add_total_size (n : Z) (c : stats_t) : stats_t :=
  Stats (source_files c) (target_files c) (duplicates c) (copied c) (errors c) (total_size c + n).

(** [open(self.log_file, 'a')] followed by a write, when the open is not
    refused: the file is created or extended when its directory exists;
    otherwise the open fails and the failure is swallowed. *)
Definition append_line (lf : path) (line : string) (t : gmap path node) : gmap path node :=
  match t !! path_parent lf with
  | Some NDir =>
      match t !! lf with
      | None => <[lf := NFile (File line true)]> t
      | Some (NFile f) => <[lf := NFile (File (data f +:+ line) (readable f))]> t
      | Some NDir => t
      end
  | _ => t
  end.

(** Python truthiness of the result of [calculate_md5] *)
Definition truthy (m : option string) : bool :=
  match m with
  | Some h => negb (String.eqb h "")
  | None => false
  end.

(** [input().lower() != 'j'] is false exactly for the answers j and J *)
Definition says_j (l : string) : bool := (String.eqb l "j" || String.eqb l "J")%bool.

(** The outcome of [shutil.copy2] as the environment decides it: a failure
    may leave a partial file behind. *)
Inductive copy_result :=
  | CopyOk
  | CopyFails (left_behind : option string).

Inductive mode := DryRun | Execute.

(** What the operating system and the libraries decide *)
Class Env := {
  (** [hashlib.md5(...).hexdigest()] of a content *)
  md5 : string → string;
  (** the line [self.log] writes for an event, timestamp included *)
  render : event → string;
  (** [shutil.disk_usage(target).free]; [None] when the query fails *)
  free_space : option Z;
  (** what [shutil.copy2] does for a source path and a destination *)
  copy_fault : path → path → copy_result;
  (** whether [open(path, 'a')] fails for a reason the tree does not show,
      such as a missing permission on the file or on its directory *)
  log_fault : path → bool;
  (** whether [time.time()] has advanced since the copy loop started *)
  clock_advanced : bool
}.

Section Merger.

Context `{Env}.

(** *** [__init__] *)
Definition init (timestamp : string) (t : gmap path node) (inp : list string) : state :=
  State t ["merge_" +:+ timestamp +:+ ".log"] ∅ (Stats 0 0 0 0 0 0) [] inp.

(** *** [log] and [print] *)
(** what the [try] around the write leaves of the tree: the line is
    appended unless the open fails, and a failure is swallowed *)
Definition write_log (lf : path) (line : string) (t : gmap path node) : gmap path node :=
  if log_fault lf then t else append_line lf line t.

Definition log (tag : string) (about : path) (nums : list Z) (s : state) : state :=
  let e := Logged tag about nums in
  set_tree (write_log (log_file s) (render e) (tree s)) (emit e s).

Definition print (tag : string) (nums : list Z) (s : state) : state :=
  emit (Printed tag nums) s.

(** *** [calculate_md5]: the digest of a readable regular file, otherwise
    the failure is logged and [None] is returned.  The source feeds the
    file to the digest in chunks of 8 MiB, which yields the digest of the
    whole content. *)
Definition calculate_md5 (filepath : path) (n : option node) (s : state)
  : option string * state :=
  match n with
  | Some (NFile f) =>
      if readable f then (Some (md5 (data f)), s)
      else (None, log "MD5 Fehler" filepath [] s)
  | _ => (None, log "MD5 Fehler" filepath [] s)
  end.

(** *** [scan_target] *)
Definition scan_file (acc : Z * state) (filepath : path) : Z * state :=
  let s := acc.2 in
  let r := calculate_md5 filepath (tree s !! filepath) s in
  let s := r.2 in
  let s := match r.1 with
           | Some h => if truthy (Some h) then set_md5s ({[h]} ∪ target_md5s s) s else s
           | None => s
           end in
  let count := acc.1 + 1 in
  let s := if count mod 1000 =? 0 then log "Dateien gescannt" [] [count] s else s in
  (count, s).

Definition scan_files (l : list path) (s : state) : Z * state :=
  fold_left scan_file l (0, s).

Definition scan_target (s : state) : state :=
  let s := log "Scanne Ziel" [] [] s in
  let r := scan_files (os_walk (tree s)) s in
  let s := set_stats (set_target_files r.1 (stats r.2)) r.2 in
  log "Ziel gescannt" [] [r.1; Z.of_nat (size (target_md5s s))] s.

(** *** [dry_run] *)

(** the local lists [to_copy] and [duplicates] *)
Record plan := Plan { to_copy : list (path * Z); dup_list : list (path * Z) }.

Definition analyse_file (acc : plan * state) (f : src_file) : plan * state :=
  let p := acc.1 in
  let s := acc.2 in
  let size := st_size (body f) in
  let r := calculate_md5 (rel f) (Some (NFile (body f))) s in
  let s := r.2 in
  let ps :=
    match r.1 with
    | Some h =>
        if truthy (Some h) then
          let s := set_stats (add_source_files (stats s)) s in
          if bool_decide (h ∈ target_md5s s)
          then (Plan (to_copy p) (dup_list p ++ [(rel f, size)]),
                set_stats (add_duplicates (stats s)) s)
          else (Plan (to_copy p ++ [(rel f, size)]) (dup_list p),
                set_stats (add_total_size size (stats s)) s)
        else (p, s)
    | None => (p, s)
    end in
  let s := ps.2 in
  let s := if source_files (stats s) mod 1000 =? 0
           then log "Dateien analysiert" [] [source_files (stats s)] s else s in
  (ps.1, s).

Definition analyse (source : list src_file) (s : state) : plan * state :=
  fold_left analyse_file source (Plan [] [], s).

(** [shutil.disk_usage(self.target).free]: the query needs the path to
    exist, be it a directory or a file *)
Definition disk_usage (s : state) : option Z :=
  match tree s !! [] with
  | Some _ => free_space
  | None => None
  end.

(** the space check of the dry-run report *)
Definition report_space (s : state) : state :=
  let s := log "Platzbedarf" [] [total_size (stats s)] s in
  match disk_usage s with
  | Some free =>
      let s := log "Freier Platz" [] [free] s in
      if free <? total_size (stats s) then
        let s := log "WARNUNG: Nicht genug Platz!" [] [] s in
        log "Fehlend" [] [total_size (stats s) - free] s
      else log "Verbleibend nach Kopie" [] [free - total_size (stats s)] s
  | None => log "Platzpruefung fehlgeschlagen" [] [] s
  end.

Definition log_examples (tag : string) (l : list (path * Z)) (s : state) : state :=
  match l with
  | [] => s
  | _ =>
      if (Z.of_nat (length l) <=? 10) then
        fold_left (λ s (e : path * Z), log "Beispiel" e.1 [e.2] s) (take 5 l) (log tag [] [] s)
      else s
  end.

Definition dry_run (source : list src_file) (s : state) : bool * state :=
  let s := log "TROCKENLAUF" [] [] s in
  let s := log "====" [] [] s in
  let s := scan_target s in
  let s := log "Analysiere Quelle" [] [] s in
  let r := analyse source s in
  let p := r.1 in
  let s := r.2 in
  let s := log "====" [] [] s in
  let s := log "ERGEBNIS TROCKENLAUF" [] [] s in
  let s := log "====" [] [] s in
  let s := log "Analysezeit" [] [] s in
  let s := log "Quelldateien" [] [source_files (stats s)] s in
  let s := log "Zieldateien" [] [target_files (stats s)] s in
  let s := log "Bereits vorhanden (gleicher Inhalt)" [] [duplicates (stats s)] s in
  let s := log "Zu kopieren" [] [Z.of_nat (length (to_copy p))] s in
  let s := match to_copy p with [] => s | _ => report_space s end in
  let s := log_examples "Beispiele fuer bereits vorhandene Dateien" (dup_list p) s in
  let s := log_examples "Beispiele fuer neue Dateien" (to_copy p) s in
  (true, s).

(** *** [_unique_name] *)
Fixpoint unique_from (t : gmap path node) (parent : path) (stem suffix : string)
    (fuel : nat) (counter : nat) : option path :=
  match fuel with
  | O => None
  | S fuel' =>
      let new_path := candidate parent stem suffix counter in
      match t !! new_path with
      | None => Some new_path
      | Some _ => unique_from t parent stem suffix fuel' (S counter)
      end
  end.

(** the name [_unique_name] tries for [p] at a counter *)
Definition renamed (p : path) (counter : nat) : path :=
  candidate (path_parent p) (path_stem p) (path_suffix p) counter.

(** The loop of the source has no bound; one more round than the tree has
    entries always suffices ([unique_name_total] below). *)
Definition _unique_name (p : path) (t : gmap path node) : option path :=
  unique_from t (path_parent p) (path_stem p) (path_suffix p) (S (size t)) 1.

(** *** [execute] *)

Definition input (s : state) : option string * state :=
  match stdin s with
  | [] => (None, s)
  | l :: rest => (Some l, set_stdin rest s)
  end.

(** the handler of the per-file [try] *)
Definition on_error (source_path : path) (s : state) : state :=
  log "Fehler" source_path [] (set_stats (add_errors (stats s)) s).

(** [shutil.copy2] and what follows it in the loop body *)
Definition copy_to (f : src_file) (h : string) (dest : path) (s : state) : state :=
  match copy_fault (rel f) dest with
  | CopyOk =>
      let s := set_tree (<[dest := NFile (body f)]> (tree s)) s in
      let s := set_md5s ({[h]} ∪ target_md5s s) s in
      let s := set_stats (add_copied (stats s)) s in
      if copied (stats s) mod 100 =? 0
      then on_error (rel f) s   (* [len(self.source_files)] raises AttributeError *)
      else s
  | CopyFails left_behind =>
      let t := match left_behind with
               | Some d => <[dest := NFile (File d true)]> (tree s)
               | None => tree s
               end in
      on_error (rel f) (set_tree t s)
  end.

(** the body of the copy loop for one source file *)
Definition copy_step (s : state) (f : src_file) : state :=
  let r := calculate_md5 (rel f) (Some (NFile (body f))) s in
  let s := r.2 in
  match r.1 with
  | None => set_stats (add_errors (stats s)) s
  | Some h =>
      if negb (truthy (Some h)) then set_stats (add_errors (stats s)) s
      else if bool_decide (h ∈ target_md5s s) then set_stats (add_duplicates (stats s)) s
      else
        let target_path := rel f in
        match mkdir_parents (path_parent target_path) (tree s) with
        | None => on_error (rel f) s
        | Some t =>
            let s := set_tree t s in
            match tree s !! target_path with
            | Some n =>
                let r := calculate_md5 target_path (Some n) s in
                let s := r.2 in
                if bool_decide (r.1 = Some h)
                then set_stats (add_duplicates (stats s)) s
                else
                  match _unique_name target_path (tree s) with
                  | Some dest => copy_to f h dest s
                  | None => s   (* not reached: [unique_name_total] *)
                  end
            | None => copy_to f h target_path s
            end
        end
  end.

Definition copy_all (source : list src_file) (s : state) : state :=
  fold_left copy_step source s.

(** the second confirmation: [true] when the run goes on *)
Definition space_gate (s : state) : bool * state :=
  match disk_usage s with
  | None => (true, log "Platzpruefung fehlgeschlagen" [] [] s)
  | Some free =>
      if free <? total_size (stats s) then
        let s := log "WARNUNG: Nicht genug Platz!" [] [] s in
        let s := print "Fehlend" [total_size (stats s) - free] s in
        let s := print "Trotzdem fortfahren? (j/n)" [] s in
        let r := input s in
        match r.1 with
        | None => (true, log "Platzpruefung fehlgeschlagen" [] [] r.2)
        | Some l =>
            if says_j l then (true, r.2)
            else (false, log "Abgebrochen - nicht genug Platz" [] [] r.2)
        end
      else (true, s)
  end.

Definition final_report (s : state) : state :=
  let s := log "====" [] [] s in
  let s := log "KOPIERVORGANG ABGESCHLOSSEN" [] [] s in
  let s := log "====" [] [] s in
  let s := log "Gesamtzeit" [] [] s in
  let s := if clock_advanced then log "Durchschnitt" [] [copied (stats s)] s else s in
  let s := log "ERGEBNIS:" [] [] s in
  let s := log "Kopiert" [] [copied (stats s)] s in
  let s := log "Bereits vorhanden" [] [duplicates (stats s)] s in
  let s := log "Fehler" [] [errors (stats s)] s in
  let s := if 0 <? copied (stats s)
           then log "Durchschn. Groesse" [] [total_size (stats s); copied (stats s)] s else s in
  log "Log-Datei" (log_file s) [] s.

(** [None] stands for the [EOFError] that escapes from the first prompt. *)
Definition execute (source : list src_file) (s : state) : option bool * state :=
  let s := log "KOPIERVORGANG" [] [] s in
  let s := log "====" [] [] s in
  let s := print "QUELLE" [] s in
  let s := print "ZIEL" [] s in
  let s := print "Neue Dateien" [source_files (stats s) - duplicates (stats s)] s in
  let s := print "Platzbedarf" [total_size (stats s)] s in
  let s := print "Fortfahren? (j/n)" [] s in
  let r := input s in
  match r.1 with
  | None => (None, r.2)
  | Some l =>
      if negb (says_j l) then (Some false, log "Abgebrochen durch Benutzer" [] [] r.2)
      else
        let g := space_gate r.2 in
        if g.1 then
          let s := log "Beginne mit Kopieren..." [] [] g.2 in
          let s := copy_all source s in
          (Some true, final_report s)
        else (Some false, g.2)
  end.

(** what [main] prints after a dry run that succeeded *)
Definition usage_hint (s : state) : state :=
  let s := print "====" [] s in
  let s := print "Zum Kopieren ausfuehren:" [] s in
  let s := print "--execute" [] s in
  print "====" [] s.

(** *** [main], after the arguments are parsed *)
Definition main (m : mode) (timestamp : string) (source : list src_file)
    (t : gmap path node) (inp : list string) : option bool * state :=
  let s := init timestamp t inp in
  match m with
  | DryRun =>
      let r := dry_run source s in
      (Some r.1, if r.1 then usage_hint r.2 else r.2)
  | Execute => execute source s
  end.

(** *** Notions the statements below are phrased with *)

(** a regular file whose digest is [h] *)
Definition has_hash (h : string) (n : node) : bool :=
  match n with
  | NFile g => String.eqb (md5 (data g)) h
  | NDir => false
  end.

(** some file under the target root has the digest [h] *)
Definition presentb (h : string) (t : gmap path node) : bool :=
  existsb (λ pn : path * node, has_hash h pn.2) (map_to_list t).

(** the tree after the given lines went to the log file *)
Definition logged_lines (lf : path) (lines : list string) (t : gmap path node)
  : gmap path node :=
  fold_left (λ t' line, append_line lf line t') lines t.

End Merger.

(** [s'] is a later state of the run that was in [s]: the log file is the
    same path, whatever the tree held off the log path is still there, the
    log file once present stays, and the index, the counters of the copy
    loop and the console have only grown. *)
Record later (s s' : state) : Prop := Later {
  later_log_file : log_file s' = log_file s;
  later_tree : ∀ q n, q ≠ log_file s → tree s !! q = Some n → tree s' !! q = Some n;
  later_log : is_Some (tree s !! log_file s) → is_Some (tree s' !! log_file s);
  later_md5s : target_md5s s ⊆ target_md5s s';
  later_errors : errors (stats s) ≤ errors (stats s');
  later_console : console s `prefix_of` console s'
}.

(** [s'] differs from [s] in the tree only by lines that went to the log
    file. *)
Definition logs_only (s s' : state) : Prop :=
  log_file s' = log_file s
  ∧ ∃ lines, tree s' = logged_lines (log_file s) lines (tree s).

(** ** A concrete environment and concrete trees for the examples

    The digest of the examples is a tag put in front of the content, which
    has no collisions; every copy succeeds and the log file can be opened. *)

Definition demo_md5 (c : string) : string := "md5:" +:+ c.

Definition demo_render (e : event) : string :=
  match e with
  | Logged tag _ _ => tag +:+ ";"
  | Printed tag _ => tag +:+ ";"
  end.

Definition demo_env (free : option Z) : Env :=
  {| md5 := demo_md5; render := demo_render; free_space := free;
     copy_fault := λ _ _, CopyOk; log_fault := λ _, false; clock_advanced := true |}.

(** an empty target directory *)
Definition empty_dir : gmap path node := {[ [] := NDir ]}.

(** a source of a hundred files with pairwise different content *)
Definition hundred_files : list src_file :=
  map (λ i, Src [decimal i] (File (decimal i) true)) (seq 0 100).

Section Accounting.

Context `{Env}.

(** a path to which the run appends no log line: any path but the log
    file, and the log file too when it cannot be opened *)
Definition stable (s : state) (q : path) : Prop :=
  q ≠ log_file s ∨ log_fault (log_file s) = true.

(** some file at a stable path has the digest [h] *)
Definition present_off (h : string) (s : state) : Prop :=
  ∃ q n, stable s q ∧ tree s !! q = Some n ∧ has_hash h n = true.

(** every hash of the index belongs to a file off the log path *)
Definition index_backed (s : state) : Prop :=
  ∀ h, h ∈ target_md5s s → present_off h s.

(** the log file cannot be opened, or it is in place, or else the run has
    not logged into the target yet and every file of the tree sits at one
    of the paths [done] *)
Definition settled (done : list path) (s : state) : Prop :=
  log_fault (log_file s) = true
  ∨ is_Some (tree s !! log_file s)
  ∨ ∀ q g, tree s !! q = Some (NFile g) → q ∈ done.

(** when the log file cannot be opened, [s'] has every entry of [s] *)
Definition kept (s s' : state) : Prop :=
  log_file s' = log_file s
  ∧ (log_fault (log_file s) = true →
     ∀ q n, tree s !! q = Some n → tree s' !! q = Some n).

(** the source files whose digest is found neither in the tree after the
    run nor in the tree before it *)
Definition unaccounted (after before : gmap path node) (source : list src_file)
  : list src_file :=
  List.filter (λ f, negb (presentb (md5 (data (body f))) after)
                    && negb (presentb (md5 (data (body f))) before))%bool source.

End Accounting.

(** the rounds of the copy loop that counted a failure: the errors, less
    the one every hundredth copy counts *)
Definition failures (c : stats_t) : Z := errors c - copied c / 100.

(** a message about a lack of space *)
Definition about_space (e : event) : bool :=
  match e with
  | Logged tag _ _ =>
      (String.eqb tag "WARNUNG: Nicht genug Platz!" || String.eqb tag "Fehlend")%bool
  | Printed tag _ => String.eqb tag "Fehlend"
  end.

(** The error counter keeps up with the copied counter. *)
Definition hundreds_counted (c : stats_t) : Prop := copied c ≤ 100 * errors c + 99.

(** a target that holds [orig/x.bin], and a source that holds the same
    content at [copy/x.bin] *)
Definition orig_tree : gmap path node :=
  <[ ["orig"; "x.bin"] := NFile (File "Z" true) ]> (<[ ["orig"] := NDir ]> empty_dir).

Definition copy_source : list src_file := [Src ["copy"; "x.bin"] (File "Z" true)].

(** two source files of the same content *)
Definition twins : list src_file :=
  [Src ["a.mp3"] (File "Z" true); Src ["b.mp3"] (File "Z" true)].

Definition twins_first_run : option bool * state :=
  main (H := demo_env None) Execute "T1" twins empty_dir ["j"].

Definition twins_second_run : option bool * state :=
  main (H := demo_env None) Execute "T2" twins (tree twins_first_run.2) ["j"].

(** a target that holds [a.txt] with content X, and a source that holds
    [a.txt] with content Y *)
Definition x_tree : gmap path node := <[ ["a.txt"] := NFile (File "X" true) ]> empty_dir.

Definition y_source : list src_file := [Src ["a.txt"] (File "Y" true)].

Definition y_first_run : option bool * state :=
  main (H := demo_env None) Execute "T1" y_source x_tree ["j"].

Definition y_second_run : option bool * state :=
  main (H := demo_env None) Execute "T2" y_source (tree y_first_run.2) ["j"].

(** a source file that has the name of the log file of the run that starts
    at the timestamp T *)
Definition log_named_source : list src_file := [Src ["merge_T.log"] (File "Y" true)].

(** a target that holds a file of that name *)
Definition log_named_tree : gmap path node :=
  <[ ["merge_T.log"] := NFile (File "X" true) ]> empty_dir.

(** a source that holds the content Y twice, the second time at the path of
    the file of [x_tree] *)
Definition y_twice_source : list src_file :=
  [Src ["b.txt"] (File "Y" true); Src ["a.txt"] (File "Y" true)].

(** a source file of ten bytes *)
Definition ten_bytes : src_file := Src ["a.bin"] (File "0123456789" true).

(** a file that cannot be read *)
Definition locked_file : src_file := Src ["a.mp3"] (File "x" false).

Section Planning.

Context `{Env}.

(** a source file whose digest [calculate_md5] returns and the callers
    take as true *)
Definition hashable (f : src_file) : bool :=
  readable (body f) && truthy (Some (md5 (data (body f)))).

(** the digest of the file is in the index [i] *)
Definition known (i : gset string) (f : src_file) : bool :=
  bool_decide (md5 (data (body f)) ∈ i).

(** the entry the dry run keeps for a file: its relative path and size *)
Definition entry (f : src_file) : path * Z := (rel f, st_size (body f)).

(** the source files a dry run with the index [i] plans to copy, and the
    ones it takes as already there *)
Definition planned (i : gset string) (source : list src_file) : list src_file :=
  List.filter (λ f, hashable f && negb (known i f))%bool source.

Definition recognised (i : gset string) (source : list src_file) : list src_file :=
  List.filter (λ f, hashable f && known i f)%bool source.

(** the bytes of a list of entries *)
Definition bytes (l : list (path * Z)) : Z := foldr (λ e a, e.2 + a) 0 l.

(** the lines [self.log] wrote for the events of a console, one after the
    other *)
Definition log_text (evs : list event) : string :=
  foldr (λ e acc, match e with
                  | Logged _ _ _ => render e +:+ acc
                  | Printed _ _ => acc
                  end) "" evs.

(** the log file of the state holds the text [d], then the lines of the
    console, sits directly under a target root that exists, and can be
    opened *)
Definition synced (d : string) (r : bool) (s : state) : Prop :=
  tree s !! log_file s = Some (NFile (File (d +:+ log_text (console s)) r))
  ∧ path_parent (log_file s) = []
  ∧ tree s !! [] = Some NDir
  ∧ log_fault (log_file s) = false.

End Planning.


(** a source file below the directory [music] *)
Definition song : src_file := Src ["music"; "a.mp3"] (File "Z" true).


(** a target that holds the file of [song] at its relative path *)
Definition mirror_tree : gmap path node :=
  <[ ["music"; "a.mp3"] := NFile (File "Z" true) ]> (<[ ["music"] := NDir ]> empty_dir).

(** a state whose statistics ask for 10 GB, with one answer on the standard
    input *)
Definition ten_gb_one_answer : state :=
  State empty_dir ["merge_T.log"] ∅ (Stats 0 0 0 0 0 (10 * 1024 ^ 3)) [] ["j"].


(** * Proofs *)

(** ** Names with a counter are pairwise distinct *)

Lemma append_cons (x : ascii) (a b : string) : String x a +:+ b = String x (a +:+ b).
Proof. reflexivity. Qed.

Lemma append_length (a b : string) :
  String.length (a +:+ b) = (String.length a + String.length b)%nat.
Proof.
  induction a as [|c a IH]; [done|].
  rewrite append_cons. simpl. by rewrite IH.
Qed.

Lemma append_inj_r (a b c : string) : a +:+ c = b +:+ c → a = b.
Proof.
  revert b. induction a as [|x a IH]; intros [|y b] E.
  - done.
  - apply (f_equal String.length) in E. rewrite !append_length in E. simpl in E. lia.
  - apply (f_equal String.length) in E. rewrite !append_length in E. simpl in E. lia.
  - rewrite !append_cons in E. injection E as -> E. f_equal. by apply IH.
Qed.

Lemma decimal_inj (m n : nat) : decimal m = decimal n → m = n.
Proof.
  unfold decimal. intros E. apply Unsigned.to_uint_inj.
  assert (Some (Nat.to_uint m) = Some (Nat.to_uint n)) as [= ->]; [|done].
  by rewrite <- !NilEmpty.usu, E.
Qed.

Lemma numbered_inj (stem suffix : string) (m n : nat) :
  numbered stem suffix m = numbered stem suffix n → m = n.
Proof.
  unfold numbered. intros E.
  apply String.app_inj in E. apply String.app_inj in E.
  apply append_inj_r in E. by apply decimal_inj.
Qed.

Section UniqueName.

Variables (t : gmap path node) (parent : path) (stem suffix : string).

Lemma cand_inj (m n : nat) :
  candidate parent stem suffix m = candidate parent stem suffix n → m = n.
Proof.
  unfold candidate. intros E. apply app_inv_head in E.
  injection E as E. by apply numbered_inj in E.
Qed.

(** The loop stops at the first free counter. *)
Lemma unique_from_least (fuel counter j : nat) :
  (counter ≤ j < counter + fuel)%nat → t !! candidate parent stem suffix j = None →
  ∃ k, unique_from t parent stem suffix fuel counter = Some (candidate parent stem suffix k)
       ∧ (counter ≤ k ≤ j)%nat ∧ t !! candidate parent stem suffix k = None
       ∧ ∀ i, (counter ≤ i < k)%nat → is_Some (t !! candidate parent stem suffix i).
Proof.
  revert counter. induction fuel as [|fuel IH]; intros counter Hj Hfree; [lia|].
  simpl.
  destruct (t !! candidate parent stem suffix counter) as [n|] eqn:E.
  - assert (counter ≠ j) by (intros ->; congruence).
    destruct (IH (S counter)) as (k & Hk & Hle & Hnone & Hbelow); [lia | done |].
    exists k. repeat split; [done | lia | lia | done |].
    intros i Hi. destruct (decide (i = counter)) as [->|]; [by rewrite E | apply Hbelow; lia].
  - exists counter. repeat split; [lia | lia | done |]. intros i Hi. lia.
Qed.

(** Among [size t + 1] candidates one is free. *)
Lemma free_candidate (c : nat) :
  ∃ j, (c ≤ j < c + S (size t))%nat ∧ t !! candidate parent stem suffix j = None.
Proof.
  destruct (decide (Forall (λ j, is_Some (t !! candidate parent stem suffix j))
                      (seq c (S (size t))))) as [Hall|Hex].
  - exfalso.
    assert (NoDup (candidate parent stem suffix <$> seq c (S (size t)))) as Hnd.
    { apply NoDup_fmap_2; [intros ???; by apply cand_inj | apply NoDup_seq]. }
    pose proof (size_list_to_set (C := gset path) _ Hnd) as Hsz.
    rewrite length_fmap, length_seq in Hsz.
    assert (list_to_set (C := gset path) (candidate parent stem suffix <$> seq c (S (size t)))
            ⊆ dom t) as Hsub.
    { intros q Hq. rewrite elem_of_list_to_set, list_elem_of_fmap in Hq.
      destruct Hq as (j & -> & Hj). apply elem_of_dom.
      rewrite Forall_forall in Hall. by apply Hall. }
    apply subseteq_size in Hsub. rewrite size_dom in Hsub. lia.
  - apply not_Forall_Exists in Hex; [|apply _].
    apply Exists_exists in Hex as (j & Hj & Hnot). simpl in Hnot.
    exists j. apply elem_of_seq in Hj. split; [lia|].
    by apply eq_None_not_Some.
Qed.

End UniqueName.

(** [_unique_name] always returns: it yields the name with the least counter,
    starting from 1, that is not yet in the tree. *)
Lemma unique_name_total (p : path) (t : gmap path node) :
  ∃ k, (1 ≤ k)%nat
       ∧ _unique_name p t = Some (renamed p k)
       ∧ t !! renamed p k = None
       ∧ ∀ i, (1 ≤ i < k)%nat →
              is_Some (t !! renamed p i).
Proof.
  destruct (free_candidate t (path_parent p) (path_stem p) (path_suffix p) 1) as (j & Hj & Hfree).
  destruct (unique_from_least t (path_parent p) (path_stem p) (path_suffix p)
              (S (size t)) 1 j Hj Hfree) as (k & Hk & Hle & Hnone & Hbelow).
  exists k. unfold renamed. repeat split; [lia | done | done | done].
Qed.

(** ** The log file *)

Lemma append_line_off (lf q : path) (line : string) (t : gmap path node) :
  q ≠ lf → append_line lf line t !! q = t !! q.
Proof.
  intros Hq. unfold append_line.
  repeat case_match; try done; by rewrite lookup_insert_ne.
Qed.

Lemma append_line_dom (lf q : path) (line : string) (t : gmap path node) :
  is_Some (t !! q) → is_Some (append_line lf line t !! q).
Proof.
  intros Hq. destruct (decide (q = lf)) as [->|Hne]; [|by rewrite append_line_off].
  unfold append_line. repeat case_match; try done; rewrite lookup_insert_eq; eauto.
Qed.

Lemma append_line_creates (lf : path) (line : string) (t : gmap path node) :
  t !! path_parent lf = Some NDir → is_Some (append_line lf line t !! lf).
Proof.
  intros Hd. unfold append_line. rewrite Hd.
  repeat case_match; try (rewrite lookup_insert_eq); eauto.
Qed.

Lemma logged_lines_off (lf q : path) (lines : list string) (t : gmap path node) :
  q ≠ lf → logged_lines lf lines t !! q = t !! q.
Proof.
  intros Hq. revert t. induction lines as [|l lines IH]; intros t; [done|].
  simpl. rewrite IH. by apply append_line_off.
Qed.

Lemma logged_lines_app (lf : path) (l1 l2 : list string) (t : gmap path node) :
  logged_lines lf (l1 ++ l2) t = logged_lines lf l2 (logged_lines lf l1 t).
Proof. apply fold_left_app. Qed.

(** ** Later states *)

Lemma later_refl (s : state) : later s s.
Proof. by constructor. Qed.

Lemma later_trans (s1 s2 s3 : state) : later s1 s2 → later s2 s3 → later s1 s3.
Proof.
  intros [A1 A2 A3 A4 A5 A6] [B1 B2 B3 B4 B5 B6]. constructor.
  - congruence.
  - intros q n Hq Hn. apply B2; [congruence | by apply A2].
  - intros Hl. rewrite <- A1. apply B3. rewrite A1. by apply A3.
  - set_solver.
  - lia.
  - by etrans.
Qed.

Section Frames.

Context `{Env}.

(** the write of a log line appends it or does nothing *)
Lemma write_log_cases (lf : path) (line : string) (t : gmap path node) :
  (log_fault lf = true ∧ write_log lf line t = t)
  ∨ (log_fault lf = false ∧ write_log lf line t = append_line lf line t).
Proof. unfold write_log. destruct (log_fault lf); [by left | by right]. Qed.

Lemma write_log_off (lf q : path) (line : string) (t : gmap path node) :
  q ≠ lf → write_log lf line t !! q = t !! q.
Proof.
  intros Hq. destruct (write_log_cases lf line t) as [[_ ->] | [_ ->]]; [done|].
  by apply append_line_off.
Qed.

Lemma write_log_dom (lf q : path) (line : string) (t : gmap path node) :
  is_Some (t !! q) → is_Some (write_log lf line t !! q).
Proof.
  destruct (write_log_cases lf line t) as [[_ ->] | [_ ->]]; [done|].
  apply append_line_dom.
Qed.

Lemma log_later (tag : string) (about : path) (nums : list Z) (s : state) :
  later s (log tag about nums s).
Proof.
  constructor; simpl; try done.
  - intros q n Hq Hn. by rewrite write_log_off.
  - apply write_log_dom.
  - by apply prefix_app_r.
Qed.

Lemma calculate_md5_later (p : path) (n : option node) (s : state) :
  later s (calculate_md5 p n s).2.
Proof.
  unfold calculate_md5. repeat case_match; simpl;
    (apply later_refl || apply log_later).
Qed.

Lemma calculate_md5_stats (p : path) (n : option node) (s : state) :
  stats (calculate_md5 p n s).2 = stats s.
Proof. unfold calculate_md5. by repeat case_match. Qed.

Lemma calculate_md5_md5s (p : path) (n : option node) (s : state) :
  target_md5s (calculate_md5 p n s).2 = target_md5s s.
Proof. unfold calculate_md5. by repeat case_match. Qed.

Lemma calculate_md5_stdin (p : path) (n : option node) (s : state) :
  stdin (calculate_md5 p n s).2 = stdin s.
Proof. unfold calculate_md5. by repeat case_match. Qed.

(** the digest is returned exactly for a readable regular file *)
Lemma calculate_md5_Some (p : path) (n : option node) (s : state) (h : string) :
  (calculate_md5 p n s).1 = Some h ↔
  ∃ g, n = Some (NFile g) ∧ readable g = true ∧ md5 (data g) = h.
Proof.
  unfold calculate_md5. split.
  - repeat case_match; simpl; intros [= <-] || intros [=]; eauto.
  - intros (g & -> & -> & <-). done.
Qed.

Lemma calculate_md5_readable (p : path) (g : file) (s : state) :
  readable g = true → calculate_md5 p (Some (NFile g)) s = (Some (md5 (data g)), s).
Proof. intros Hr. unfold calculate_md5. by rewrite Hr. Qed.

(** what [self.log] and [calculate_md5] write goes to the log file *)
Lemma log_lines (tag : string) (about : path) (nums : list Z) (s : state) :
  tree (log tag about nums s)
  = logged_lines (log_file s)
      (if log_fault (log_file s) then [] else [render (Logged tag about nums)])
      (tree s).
Proof.
  cbn [log set_tree tree emit log_file]. unfold write_log.
  by destruct (log_fault (log_file s)).
Qed.

End Frames.

(** ** Creating directories *)

Lemma foldr_insert_dir (l : list path) (t : gmap path node) (q : path) :
  foldr (λ q t', <[q := NDir]> t') t l !! q
  = if decide (q ∈ l) then Some NDir else t !! q.
Proof.
  induction l as [|x l IH]; simpl; [done|].
  destruct (decide (x = q)) as [->|Hne].
  - rewrite lookup_insert_eq. rewrite decide_True; [done | by left].
  - rewrite lookup_insert_ne by done. rewrite IH.
    destruct (decide (q ∈ l)) as [Hin|Hnin].
    + rewrite decide_True; [done | by right].
    + rewrite decide_False; [done|]. rewrite elem_of_cons. intros [?|?]; congruence.
Qed.

Lemma mkdir_parents_lookup (d q : path) (t t' : gmap path node) :
  mkdir_parents d t = Some t' →
  t' !! q = if decide (q ∈ prefixes d) then Some NDir else t !! q.
Proof.
  unfold mkdir_parents. case_match; [done|]. intros [= <-]. apply foldr_insert_dir.
Qed.

Lemma mkdir_parents_not_file (d q : path) (t t' : gmap path node) :
  mkdir_parents d t = Some t' → q ∈ prefixes d → is_file (t !! q) = false.
Proof.
  unfold mkdir_parents. case_match eqn:E; [done|]. intros _ Hq.
  destruct (is_file (t !! q)) eqn:Hf; [|done].
  assert (existsb (λ q, is_file (t !! q)) (prefixes d) = true); [|congruence].
  apply existsb_exists. exists q. split; [by apply list_elem_of_In | done].
Qed.

(** Whatever was in the tree is still there. *)
Lemma mkdir_parents_keeps (d q : path) (t t' : gmap path node) (n : node) :
  mkdir_parents d t = Some t' → t !! q = Some n → t' !! q = Some n.
Proof.
  intros Hm Hq. rewrite (mkdir_parents_lookup _ _ _ _ Hm).
  case_decide as Hin; [|done].
  pose proof (mkdir_parents_not_file _ _ _ _ Hm Hin) as Hf.
  rewrite Hq in Hf. destruct n; simpl in Hf; [congruence | done].
Qed.

(** No regular file appears. *)
Lemma mkdir_parents_files (d q : path) (t t' : gmap path node) (g : file) :
  mkdir_parents d t = Some t' → t' !! q = Some (NFile g) → t !! q = Some (NFile g).
Proof.
  intros Hm. rewrite (mkdir_parents_lookup _ _ _ _ Hm). by case_decide.
Qed.

(** Directories that are all there need no change. *)
Lemma mkdir_parents_id (d : path) (t : gmap path node) :
  Forall (λ q, t !! q = Some NDir) (prefixes d) → mkdir_parents d t = Some t.
Proof.
  intros Hall. unfold mkdir_parents.
  destruct (existsb _ _) eqn:E.
  - apply existsb_exists in E as (q & Hq & Hf). apply list_elem_of_In in Hq.
    rewrite Forall_forall in Hall. by rewrite (Hall q Hq) in Hf.
  - f_equal. apply map_eq. intros q. rewrite foldr_insert_dir.
    case_decide as Hin; [|done]. rewrite Forall_forall in Hall. by rewrite Hall.
Qed.

Section CopyLoop.

Context `{Env}.

Lemma add_errors_later (s : state) : later s (set_stats (add_errors (stats s)) s).
Proof. constructor; simpl; try done. lia. Qed.

Lemma add_duplicates_later (s : state) : later s (set_stats (add_duplicates (stats s)) s).
Proof. by constructor. Qed.

Lemma on_error_later (p : path) (s : state) : later s (on_error p s).
Proof.
  unfold on_error. eapply later_trans; [apply add_errors_later | apply log_later].
Qed.

Lemma set_tree_later (t : gmap path node) (s : state) :
  (∀ q n, tree s !! q = Some n → t !! q = Some n) → later s (set_tree t s).
Proof.
  intros Hk. constructor; simpl; try done.
  - intros q n _. apply Hk.
  - intros [n Hn]. rewrite (Hk _ _ Hn). eauto.
Qed.

Lemma insert_keeps (t : gmap path node) (dest : path) (x : node) :
  t !! dest = None → ∀ q n, t !! q = Some n → <[dest := x]> t !! q = Some n.
Proof.
  intros Hd q n Hn. rewrite lookup_insert_ne; [done | congruence].
Qed.

(** A copy to a path that is not in the tree yet loses nothing. *)
Lemma copy_to_later (f : src_file) (h : string) (dest : path) (s : state) :
  tree s !! dest = None → later s (copy_to f h dest s).
Proof.
  intros Hd. unfold copy_to. destruct (copy_fault (rel f) dest) as [|[d|]].
  - set (s1 := set_stats _ _).
    assert (later s s1) as Hs1.
    { constructor; simpl; try done.
      - intros q n _. by apply insert_keeps.
      - intros [n Hn]. rewrite (insert_keeps _ _ _ Hd _ _ Hn). eauto.
      - set_solver. }
    case_match; [|done]. eapply later_trans; [done | apply on_error_later].
  - eapply later_trans; [|apply on_error_later].
    apply set_tree_later. by apply insert_keeps.
  - eapply later_trans; [|apply on_error_later].
    by apply set_tree_later.
Qed.

Lemma copy_step_later (s : state) (f : src_file) : later s (copy_step s f).
Proof.
  unfold copy_step.
  pose proof (calculate_md5_later (rel f) (Some (NFile (body f))) s) as L0.
  destruct (calculate_md5 (rel f) (Some (NFile (body f))) s) as [[h|] s0]; cbn [fst snd] in *.
  2: { eapply later_trans; [done | apply add_errors_later]. }
  destruct (negb (truthy (Some h))).
  { eapply later_trans; [done | apply add_errors_later]. }
  case_bool_decide.
  { eapply later_trans; [done | apply add_duplicates_later]. }
  destruct (mkdir_parents (path_parent (rel f)) (tree s0)) as [t|] eqn:Hm.
  2: { eapply later_trans; [done | apply on_error_later]. }
  assert (later s0 (set_tree t s0)) as L1.
  { apply set_tree_later. intros q n. exact (mkdir_parents_keeps _ _ _ _ _ Hm). }
  change (tree (set_tree t s0)) with t.
  destruct (t !! rel f) as [n|] eqn:Ht.
  - pose proof (calculate_md5_later (rel f) (Some n) (set_tree t s0)) as L2.
    destruct (calculate_md5 (rel f) (Some n) (set_tree t s0)) as [m s2]; cbn [fst snd] in *.
    case_bool_decide.
    { eapply later_trans; [done|]. eapply later_trans; [done|].
      eapply later_trans; [done | apply add_duplicates_later]. }
    destruct (unique_name_total (rel f) (tree s2)) as (k & _ & -> & Hfree & _).
    eapply later_trans; [done|]. eapply later_trans; [done|].
    eapply later_trans; [done | by apply copy_to_later].
  - eapply later_trans; [done|]. eapply later_trans; [done|].
    by apply copy_to_later.
Qed.

Lemma copy_all_later (source : list src_file) (s : state) : later s (copy_all source s).
Proof.
  revert s. induction source as [|f source IH]; intros s; [apply later_refl|].
  simpl. eapply later_trans; [apply copy_step_later | apply IH].
Qed.

End CopyLoop.

Create HintDb later discriminated.
Create HintDb logs discriminated.

Lemma logs_only_refl (s : state) : logs_only s s.
Proof. split; [done|]. by exists []. Qed.

Lemma logs_only_trans (s1 s2 s3 : state) :
  logs_only s1 s2 → logs_only s2 s3 → logs_only s1 s3.
Proof.
  intros [A1 [l1 A2]] [B1 [l2 B2]]. split; [congruence|].
  exists (l1 ++ l2). rewrite logged_lines_app, <- A2, <- A1. done.
Qed.

Lemma logs_only_off (s s' : state) (q : path) :
  logs_only s s' → q ≠ log_file s → tree s' !! q = tree s !! q.
Proof. intros [_ [lines ->]] Hq. by apply logged_lines_off. Qed.

Section Runs.

Context `{Env}.

(** *** Steps that come after a later state *)

Lemma after_log (s0 s : state) (tag : string) (about : path) (nums : list Z) :
  later s0 s → later s0 (log tag about nums s).
Proof. intros L. eapply later_trans; [done | apply log_later]. Qed.

Lemma after_print (s0 s : state) (tag : string) (nums : list Z) :
  later s0 s → later s0 (print tag nums s).
Proof.
  intros L. eapply later_trans; [done|]. constructor; simpl; try done.
  by apply prefix_app_r.
Qed.

Lemma after_set_stats (s0 s : state) (c : stats_t) :
  later s0 s → errors (stats s) ≤ errors c → later s0 (set_stats c s).
Proof.
  intros L Hc. eapply later_trans; [done|]. by constructor.
Qed.

Lemma after_set_md5s (s0 s : state) (i : gset string) :
  later s0 s → target_md5s s ⊆ i → later s0 (set_md5s i s).
Proof.
  intros L Hc. eapply later_trans; [done|]. by constructor.
Qed.

Lemma after_set_stdin (s0 s : state) (l : list string) :
  later s0 s → later s0 (set_stdin l s).
Proof.
  intros L. eapply later_trans; [done|]. by constructor.
Qed.

Lemma after_calculate_md5 (s0 s : state) (p : path) (n : option node) :
  later s0 s → later s0 (calculate_md5 p n s).2.
Proof. intros L. eapply later_trans; [done | apply calculate_md5_later]. Qed.

Lemma after_copy_all (s0 s : state) (source : list src_file) :
  later s0 s → later s0 (copy_all source s).
Proof. intros L. eapply later_trans; [done | apply copy_all_later]. Qed.

Hint Resolve later_refl after_log after_print after_set_stdin after_calculate_md5
  after_copy_all : later.

Lemma scan_file_later (acc : Z * state) (p : path) : later acc.2 (scan_file acc p).2.
Proof.
  unfold scan_file. cbn [fst snd].
  pose proof (calculate_md5_later p (tree acc.2 !! p) acc.2) as L.
  destruct (calculate_md5 p (tree acc.2 !! p) acc.2) as [[h|] s1]; cbn [fst snd] in *.
  - assert (later acc.2 (if truthy (Some h) then set_md5s ({[h]} ∪ target_md5s s1) s1 else s1)).
    { case_match; [|done]. apply after_set_md5s; [done | set_solver]. }
    repeat case_match; eauto with later.
  - case_match; eauto with later.
Qed.

Lemma scan_files_later (l : list path) (s : state) : later s (scan_files l s).2.
Proof.
  unfold scan_files.
  enough (∀ acc, later acc.2 (fold_left scan_file l acc).2) as G by apply (G (0, s)).
  induction l as [|p l IH]; intros acc; [apply later_refl|].
  simpl. eapply later_trans; [apply scan_file_later | apply IH].
Qed.

Lemma scan_target_later (s : state) : later s (scan_target s).
Proof.
  unfold scan_target. apply after_log. apply after_set_stats; [|done].
  eapply later_trans; [|apply scan_files_later]. eauto with later.
Qed.

Lemma analyse_file_later (acc : plan * state) (f : src_file) :
  later acc.2 (analyse_file acc f).2.
Proof.
  unfold analyse_file. cbn [fst snd].
  pose proof (calculate_md5_later (rel f) (Some (NFile (body f))) acc.2) as L.
  destruct (calculate_md5 (rel f) (Some (NFile (body f))) acc.2) as [[h|] s1];
    cbn [fst snd] in *.
  - destruct (truthy (Some h)); cbn [fst snd].
    + case_bool_decide; cbn [fst snd];
        (case_match; [apply after_log|]; repeat (apply after_set_stats; [|done]); done).
    + case_match; eauto with later.
  - case_match; eauto with later.
Qed.

Lemma analyse_later (source : list src_file) (s : state) : later s (analyse source s).2.
Proof.
  unfold analyse.
  enough (∀ acc, later acc.2 (fold_left analyse_file source acc).2) as G
    by apply (G (Plan [] [], s)).
  induction source as [|f l IH]; intros acc; [apply later_refl|].
  simpl. eapply later_trans; [apply analyse_file_later | apply IH].
Qed.

Lemma after_report_space (s0 s : state) : later s0 s → later s0 (report_space s).
Proof.
  intros L. unfold report_space. repeat case_match; eauto 10 with later.
Qed.

Lemma after_examples (s0 s : state) (l : list (path * Z)) :
  later s0 s →
  later s0 (fold_left (λ s (e : path * Z), log "Beispiel" e.1 [e.2] s) l s).
Proof.
  revert s. induction l as [|e l IH]; intros s L; simpl; [done|].
  apply IH. eauto with later.
Qed.

Lemma after_log_examples (s0 s : state) (tag : string) (l : list (path * Z)) :
  later s0 s → later s0 (log_examples tag l s).
Proof.
  intros L. unfold log_examples. destruct l as [|e l]; [done|].
  case_match; [|done]. apply after_examples. eauto with later.
Qed.

Hint Resolve after_report_space after_log_examples : later.

Lemma dry_run_later (source : list src_file) (s : state) : later s (dry_run source s).2.
Proof.
  unfold dry_run. cbn [fst snd].
  assert (later s (analyse source
            (log "Analysiere Quelle" [] [] (scan_target (log "====" [] []
               (log "TROCKENLAUF" [] [] s))))).2) as L.
  { eapply later_trans; [|apply analyse_later]. apply after_log.
    eapply later_trans; [|apply scan_target_later]. eauto with later. }
  repeat apply after_log_examples.
  case_match; [|apply after_report_space]; eauto 20 with later.
Qed.

Lemma final_report_later (s : state) : later s (final_report s).
Proof. unfold final_report. repeat case_match; eauto 20 with later. Qed.

Lemma input_later (s : state) : later s (input s).2.
Proof. unfold input. case_match; simpl; eauto with later. Qed.

Lemma space_gate_later (s : state) : later s (space_gate s).2.
Proof.
  unfold space_gate. destruct (disk_usage s); [|simpl; eauto with later].
  case_match; [|simpl; eauto with later].
  set (s1 := print _ _ _).
  assert (later s s1) as L1 by (subst s1; eauto with later).
  pose proof (input_later s1) as L2.
  destruct (input s1) as [[l|] s2]; cbn [fst snd] in *.
  - case_match; cbn [fst snd]; [by eapply later_trans|].
    apply after_log. by eapply later_trans.
  - apply after_log. by eapply later_trans.
Qed.

Lemma execute_later (source : list src_file) (s : state) : later s (execute source s).2.
Proof.
  unfold execute.
  set (s1 := print "Fortfahren? (j/n)" _ _).
  assert (later s s1) as L1 by (subst s1; eauto 20 with later).
  pose proof (input_later s1) as L2.
  destruct (input s1) as [[l|] s2]; cbn [fst snd] in *; [|by eapply later_trans].
  assert (later s s2) as L3 by by eapply later_trans.
  destruct (negb (says_j l)); cbn [fst snd]; [eauto with later|].
  pose proof (space_gate_later s2) as L4.
  destruct (space_gate s2) as [[|] s3]; cbn [fst snd] in *.
  - eapply later_trans; [|apply final_report_later].
    apply after_copy_all. apply after_log. by eapply later_trans.
  - by eapply later_trans.
Qed.

End Runs.

#[local] Hint Resolve later_refl after_log after_print after_set_stdin after_calculate_md5
  after_copy_all after_report_space after_log_examples : later.

Section DryRunFrame.

Context `{Env}.

(** *** The dry run writes nothing but log lines *)

Lemma logs_log (s0 s : state) (tag : string) (about : path) (nums : list Z) :
  logs_only s0 s → logs_only s0 (log tag about nums s).
Proof.
  intros L. eapply logs_only_trans; [done|]. split; [done|].
  eexists. apply log_lines.
Qed.

Lemma logs_same_tree (s s' : state) :
  log_file s' = log_file s → tree s' = tree s → logs_only s s'.
Proof. intros Hl Ht. split; [done|]. by exists []. Qed.

Lemma logs_set_stats (s0 s : state) (c : stats_t) :
  logs_only s0 s → logs_only s0 (set_stats c s).
Proof. intros L. eapply logs_only_trans; [done | by apply logs_same_tree]. Qed.

Lemma logs_set_md5s (s0 s : state) (i : gset string) :
  logs_only s0 s → logs_only s0 (set_md5s i s).
Proof. intros L. eapply logs_only_trans; [done | by apply logs_same_tree]. Qed.

Lemma logs_print (s0 s : state) (tag : string) (nums : list Z) :
  logs_only s0 s → logs_only s0 (print tag nums s).
Proof. intros L. eapply logs_only_trans; [done | by apply logs_same_tree]. Qed.

Hint Resolve logs_only_refl logs_log logs_set_stats logs_set_md5s logs_print : logs.

Lemma logs_calculate_md5 (s0 s : state) (p : path) (n : option node) :
  logs_only s0 s → logs_only s0 (calculate_md5 p n s).2.
Proof. intros L. unfold calculate_md5. repeat case_match; simpl; eauto with logs. Qed.

Hint Resolve logs_calculate_md5 : logs.

Lemma logs_scan_file (s0 : state) (acc : Z * state) (p : path) :
  logs_only s0 acc.2 → logs_only s0 (scan_file acc p).2.
Proof.
  intros L. unfold scan_file. cbn [fst snd].
  pose proof (logs_calculate_md5 s0 acc.2 p (tree acc.2 !! p) L) as L1.
  destruct (calculate_md5 p (tree acc.2 !! p) acc.2) as [[h|] s1]; cbn [fst snd] in *;
    repeat case_match; eauto with logs.
Qed.

Lemma logs_scan_files (s0 s : state) (l : list path) :
  logs_only s0 s → logs_only s0 (scan_files l s).2.
Proof.
  unfold scan_files.
  enough (∀ acc, logs_only s0 acc.2 → logs_only s0 (fold_left scan_file l acc).2) as G
    by apply (G (0, s)).
  induction l as [|p l IH]; intros acc L; [done|].
  simpl. apply IH. by apply logs_scan_file.
Qed.

Lemma logs_scan_target (s0 s : state) : logs_only s0 s → logs_only s0 (scan_target s).
Proof.
  intros L. unfold scan_target. apply logs_log, logs_set_stats, logs_scan_files.
  eauto with logs.
Qed.

Lemma logs_analyse_file (s0 : state) (acc : plan * state) (f : src_file) :
  logs_only s0 acc.2 → logs_only s0 (analyse_file acc f).2.
Proof.
  intros L. unfold analyse_file. cbn [fst snd].
  pose proof (logs_calculate_md5 s0 acc.2 (rel f) (Some (NFile (body f))) L) as L1.
  destruct (calculate_md5 (rel f) (Some (NFile (body f))) acc.2) as [[h|] s1];
    cbn [fst snd] in *.
  - destruct (truthy (Some h)); [case_bool_decide|]; cbn [fst snd];
      case_match; eauto 10 with logs.
  - case_match; eauto with logs.
Qed.

Lemma logs_analyse (s0 s : state) (source : list src_file) :
  logs_only s0 s → logs_only s0 (analyse source s).2.
Proof.
  unfold analyse.
  enough (∀ acc, logs_only s0 acc.2 → logs_only s0 (fold_left analyse_file source acc).2)
    as G by apply (G (Plan [] [], s)).
  induction source as [|f l IH]; intros acc L; [done|].
  simpl. apply IH. by apply logs_analyse_file.
Qed.

Lemma logs_report_space (s0 s : state) : logs_only s0 s → logs_only s0 (report_space s).
Proof. intros L. unfold report_space. repeat case_match; eauto 10 with logs. Qed.

Lemma logs_examples (s0 s : state) (l : list (path * Z)) :
  logs_only s0 s →
  logs_only s0 (fold_left (λ s (e : path * Z), log "Beispiel" e.1 [e.2] s) l s).
Proof.
  revert s. induction l as [|e l IH]; intros s L; simpl; [done|].
  apply IH. eauto with logs.
Qed.

Lemma logs_log_examples (s0 s : state) (tag : string) (l : list (path * Z)) :
  logs_only s0 s → logs_only s0 (log_examples tag l s).
Proof.
  intros L. unfold log_examples. destruct l as [|e l]; [done|].
  case_match; [|done]. apply logs_examples. eauto with logs.
Qed.

Hint Resolve logs_scan_target logs_analyse logs_report_space logs_log_examples : logs.

Lemma dry_run_logs_only (source : list src_file) (s : state) :
  logs_only s (dry_run source s).2.
Proof.
  unfold dry_run. cbn [fst snd].
  repeat apply logs_log_examples.
  case_match; [|apply logs_report_space]; eauto 30 with logs.
Qed.

End DryRunFrame.

#[local] Hint Resolve logs_only_refl logs_log logs_set_stats logs_set_md5s logs_print
  logs_calculate_md5 logs_scan_target logs_analyse logs_report_space logs_log_examples : logs.

Section ExecuteFrame.

Context `{Env}.

(** *** What comes before and after the copy loop *)

Lemma final_report_stats (s : state) : stats (final_report s) = stats s.
Proof. unfold final_report. by repeat case_match. Qed.

Lemma final_report_md5s (s : state) : target_md5s (final_report s) = target_md5s s.
Proof. unfold final_report. by repeat case_match. Qed.

Lemma logs_input (s0 s : state) : logs_only s0 s → logs_only s0 (input s).2.
Proof.
  intros L. unfold input. case_match; [done|]. cbn [snd].
  eapply logs_only_trans; [done | by apply logs_same_tree].
Qed.

Lemma input_stats (s : state) : stats (input s).2 = stats s.
Proof. unfold input. by case_match. Qed.

Lemma input_md5s (s : state) : target_md5s (input s).2 = target_md5s s.
Proof. unfold input. by case_match. Qed.

Lemma space_gate_stats (s : state) : stats (space_gate s).2 = stats s.
Proof.
  unfold space_gate, input. by repeat (case_match; cbn [fst snd]).
Qed.

Lemma space_gate_md5s (s : state) : target_md5s (space_gate s).2 = target_md5s s.
Proof.
  unfold space_gate, input. by repeat (case_match; cbn [fst snd]).
Qed.

Lemma logs_space_gate (s0 s : state) : logs_only s0 s → logs_only s0 (space_gate s).2.
Proof.
  intros L. unfold space_gate.
  destruct (disk_usage s); [|by apply logs_log].
  case_match; [|done].
  set (s1 := print _ _ _).
  assert (logs_only s0 s1) as L1 by (subst s1; by apply logs_print, logs_print, logs_log).
  pose proof (logs_input s0 s1 L1) as L2.
  destruct (input s1) as [[l|] s2]; cbn [fst snd] in *.
  - case_match; cbn [snd]; [done | by apply logs_log].
  - by apply logs_log.
Qed.

Lemma log_stats_eq (tag : string) (about : path) (nums : list Z) (s : state) :
  stats (log tag about nums s) = stats s.
Proof. reflexivity. Qed.

Lemma log_md5s_eq (tag : string) (about : path) (nums : list Z) (s : state) :
  target_md5s (log tag about nums s) = target_md5s s.
Proof. reflexivity. Qed.

(** the state in which [execute] asks its first question *)
Lemma execute_prompt (source : list src_file) (s : state) :
  execute source s
  = let s0 := print "Fortfahren? (j/n)" []
                (print "Platzbedarf" [total_size (stats s)]
                   (print "Neue Dateien" [source_files (stats s) - duplicates (stats s)]
                      (print "ZIEL" []
                         (print "QUELLE" []
                            (log "====" [] [] (log "KOPIERVORGANG" [] [] s)))))) in
    match (input s0).1 with
    | None => (None, (input s0).2)
    | Some l =>
        if negb (says_j l)
        then (Some false, log "Abgebrochen durch Benutzer" [] [] (input s0).2)
        else if (space_gate (input s0).2).1
             then (Some true,
                   final_report
                     (copy_all source
                        (log "Beginne mit Kopieren..." [] [] (space_gate (input s0).2).2)))
             else (Some false, (space_gate (input s0).2).2)
    end.
Proof. reflexivity. Qed.

(** What [execute] does before the copy loop does not depend on the
    source: whether it returns [True], and the state in which the loop
    starts.  That state differs from the initial one by log lines, console
    output and consumed input only. *)
Lemma execute_shape (s : state) :
  ∃ s1, later s s1 ∧ logs_only s s1
        ∧ stats s1 = stats s ∧ target_md5s s1 = target_md5s s
        ∧ (log_fault (log_file s) = false →
           tree s !! path_parent (log_file s) = Some NDir →
           is_Some (tree s1 !! log_file s))
        ∧ (∀ source source', (execute source s).1 = (execute source' s).1)
        ∧ ∀ source, (execute source s).1 = Some true →
                    (execute source s).2 = final_report (copy_all source s1).
Proof.
  set (s0 := print "Fortfahren? (j/n)" []
               (print "Platzbedarf" [total_size (stats s)]
                  (print "Neue Dateien" [source_files (stats s) - duplicates (stats s)]
                     (print "ZIEL" []
                        (print "QUELLE" []
                           (log "====" [] [] (log "KOPIERVORGANG" [] [] s))))))).
  assert (later s s0 ∧ logs_only s s0 ∧ stats s0 = stats s
          ∧ target_md5s s0 = target_md5s s) as (L0 & G0 & S0 & M0).
  { subst s0. split_and!; [eauto 20 with later | | done | done].
    repeat apply logs_print. repeat apply logs_log. apply logs_only_refl. }
  pose proof (input_later s0) as L1. pose proof (logs_input s s0 G0) as G1.
  pose proof (input_stats s0) as S1. pose proof (input_md5s s0) as M1.
  pose proof (space_gate_later (input s0).2) as L2.
  pose proof (logs_space_gate s (input s0).2 G1) as G2.
  pose proof (space_gate_stats (input s0).2) as S2.
  pose proof (space_gate_md5s (input s0).2) as M2.
  assert (later s (space_gate (input s0).2).2) as L3.
  { eapply later_trans; [done|]. by eapply later_trans. }
  exists (log "Beginne mit Kopieren..." [] [] (space_gate (input s0).2).2).
  split_and!.
  - by apply after_log.
  - by apply logs_log.
  - rewrite log_stats_eq. congruence.
  - rewrite log_md5s_eq. congruence.
  - intros Hf Hd.
    assert (is_Some (tree (log "KOPIERVORGANG" [] [] s) !! log_file s)) as Hin.
    { cbn [log tree set_tree emit].
      destruct (write_log_cases (log_file s) (render (Logged "KOPIERVORGANG" [] []))
                  (tree s)) as [[Hf' _] | [_ ->]]; [congruence|].
      by apply append_line_creates. }
    assert (later (log "KOPIERVORGANG" [] [] s)
              (log "Beginne mit Kopieren..." [] [] (space_gate (input s0).2).2)) as L4.
    { apply after_log. eapply later_trans; [|exact L2].
      eapply later_trans; [|exact L1]. subst s0. eauto 20 with later. }
    by apply (later_log _ _ L4).
  - intros source source'. rewrite !execute_prompt. cbn zeta. fold s0.
    by repeat case_match.
  - intros source. rewrite execute_prompt. cbn zeta. fold s0.
    destruct ((input s0).1) as [l|]; [|done].
    destruct (negb (says_j l)); [done|].
    destruct ((space_gate (input s0).2).1); [done | done].
Qed.

Lemma execute_true (source : list src_file) (s : state) :
  (execute source s).1 = Some true →
  ∃ s1, (execute source s).2 = final_report (copy_all source s1)
        ∧ later s s1 ∧ logs_only s s1
        ∧ stats s1 = stats s ∧ target_md5s s1 = target_md5s s
        ∧ (log_fault (log_file s) = false →
           tree s !! path_parent (log_file s) = Some NDir →
           is_Some (tree s1 !! log_file s)).
Proof.
  intros Hrun. destruct (execute_shape s) as (s1 & L & G & S & M & P & _ & E).
  exists s1. split_and!; try done. by apply E.
Qed.

(** A run that does not return [True] stopped at a prompt: nothing was
    copied and no counter moved. *)
Lemma execute_not_true (source : list src_file) (s : state) :
  (execute source s).1 ≠ Some true →
  logs_only s (execute source s).2
  ∧ stats (execute source s).2 = stats s
  ∧ target_md5s (execute source s).2 = target_md5s s.
Proof.
  unfold execute.
  set (s0 := print "Fortfahren? (j/n)" _ _).
  assert (logs_only s s0) as G0.
  { subst s0. repeat apply logs_print. repeat apply logs_log. apply logs_only_refl. }
  assert (stats s0 = stats s) as S0 by done.
  assert (target_md5s s0 = target_md5s s) as M0 by done.
  pose proof (logs_input s s0 G0) as G1.
  pose proof (input_stats s0) as S1. pose proof (input_md5s s0) as M1.
  destruct (input s0) as [[l|] s2]; cbn [fst snd] in *; [|done].
  destruct (negb (says_j l)); cbn [fst snd].
  { intros _. split_and!; [by apply logs_log | simpl; congruence | simpl; congruence]. }
  pose proof (logs_space_gate s s2 G1) as G2.
  pose proof (space_gate_stats s2) as S2. pose proof (space_gate_md5s s2) as M2.
  destruct (space_gate s2) as [[|] s3]; cbn [fst snd] in *; [done|].
  intros _. split_and!; [done | congruence | congruence].
Qed.

End ExecuteFrame.

Lemma scan_files_app `{Env} (l1 l2 : list path) (s : state) :
  scan_files (l1 ++ l2) s = fold_left scan_file l2 (scan_files l1 s).
Proof. apply fold_left_app. Qed.

Lemma fold_scan_file_later `{Env} (l : list path) (acc : Z * state) :
  later acc.2 (fold_left scan_file l acc).2.
Proof.
  revert acc. induction l as [|p l IH]; intros acc; [apply later_refl|].
  simpl. eapply later_trans; [apply scan_file_later | apply IH].
Qed.

(** C10: the target index only grows.  The target scan, the dry run, the
    copy loop body and the whole of execute leave every hash of the index in
    it, and the index after a prefix of a loop is contained in the index
    after the whole loop. *)
Theorem target_index_only_grows `{Env} :
  (∀ s, target_md5s s ⊆ target_md5s (scan_target s))
  ∧ (∀ source s, target_md5s s ⊆ target_md5s (dry_run source s).2)
  ∧ (∀ s f, target_md5s s ⊆ target_md5s (copy_step s f))
  ∧ (∀ source s, target_md5s s ⊆ target_md5s (execute source s).2)
  ∧ (∀ l1 l2 s, target_md5s (scan_files l1 s).2 ⊆ target_md5s (scan_files (l1 ++ l2) s).2)
  ∧ (∀ l1 l2 s, target_md5s (copy_all l1 s) ⊆ target_md5s (copy_all (l1 ++ l2) s)).
Proof.
  split_and!.
  - intros s. apply later_md5s, scan_target_later.
  - intros source s. apply later_md5s, dry_run_later.
  - intros s f. apply later_md5s, copy_step_later.
  - intros source s. apply later_md5s, execute_later.
  - intros l1 l2 s. rewrite scan_files_app. apply later_md5s, fold_scan_file_later.
  - intros l1 l2 s. unfold copy_all. rewrite fold_left_app.
    apply later_md5s, copy_all_later.
Qed.

Section Counters.

Context `{Env}.

Lemma copy_to_stats (f : src_file) (h : string) (dest : path) (s : state) :
  stats (copy_to f h dest s)
  = match copy_fault (rel f) dest with
    | CopyOk =>
        if (copied (stats s) + 1) mod 100 =? 0
        then add_errors (add_copied (stats s)) else add_copied (stats s)
    | CopyFails _ => add_errors (stats s)
    end.
Proof.
  unfold copy_to. destruct (copy_fault (rel f) dest); [|done].
  cbn [stats set_stats set_md5s set_tree add_copied copied]. by case_match.
Qed.

(** What one round of the copy loop does to the counters: the file is
    counted as an error, as a duplicate or as copied, and as copied and as
    an error when the copy brings the counter to a multiple of 100. *)
Lemma copy_step_stats (s : state) (f : src_file) :
  stats (copy_step s f) = add_errors (stats s)
  ∨ stats (copy_step s f) = add_duplicates (stats s)
  ∨ ((copied (stats s) + 1) mod 100 ≠ 0 ∧ stats (copy_step s f) = add_copied (stats s))
  ∨ ((copied (stats s) + 1) mod 100 = 0
     ∧ stats (copy_step s f) = add_errors (add_copied (stats s))).
Proof.
  unfold copy_step.
  pose proof (calculate_md5_stats (rel f) (Some (NFile (body f))) s) as S0.
  destruct (calculate_md5 (rel f) (Some (NFile (body f))) s) as [[h|] s0]; cbn [fst snd] in *.
  2: { left. simpl. by rewrite S0. }
  destruct (negb (truthy (Some h))). { left. simpl. by rewrite S0. }
  case_bool_decide. { right; left. simpl. by rewrite S0. }
  destruct (mkdir_parents (path_parent (rel f)) (tree s0)) as [t|] eqn:Hm.
  2: { left. simpl. by rewrite S0. }
  change (tree (set_tree t s0)) with t.
  assert (∀ dest s', stats s' = stats s →
            stats (copy_to f h dest s') = add_errors (stats s)
            ∨ stats (copy_to f h dest s') = add_duplicates (stats s)
            ∨ ((copied (stats s) + 1) mod 100 ≠ 0
               ∧ stats (copy_to f h dest s') = add_copied (stats s))
            ∨ ((copied (stats s) + 1) mod 100 = 0
               ∧ stats (copy_to f h dest s') = add_errors (add_copied (stats s)))) as Hcopy.
  { intros dest s' E. rewrite copy_to_stats, E.
    destruct (copy_fault (rel f) dest); [|by left].
    destruct (Z.eqb_spec ((copied (stats s) + 1) mod 100) 0); auto. }
  destruct (t !! rel f) as [n|] eqn:Ht; [|by apply Hcopy].
  pose proof (calculate_md5_stats (rel f) (Some n) (set_tree t s0)) as S2.
  destruct (calculate_md5 (rel f) (Some n) (set_tree t s0)) as [m s2]; cbn [fst snd] in *.
  case_bool_decide. { right; left. simpl. rewrite S2. simpl. by rewrite S0. }
  destruct (unique_name_total (rel f) (tree s2)) as (k & _ & -> & _).
  apply Hcopy. rewrite S2. done.
Qed.

Lemma copy_step_hundreds (s : state) (f : src_file) :
  hundreds_counted (stats s) → hundreds_counted (stats (copy_step s f)).
Proof.
  unfold hundreds_counted. intros Hs.
  destruct (copy_step_stats s f) as [-> | [-> | [[Hm ->] | [Hm ->]]]]; simpl; try lia.
  destruct (decide (copied (stats s) = 100 * errors (stats s) + 99)) as [E|]; [|lia].
  exfalso. apply Hm. rewrite E.
  replace (100 * errors (stats s) + 99 + 1) with ((errors (stats s) + 1) * 100) by lia.
  apply Z_mod_mult.
Qed.

Lemma copy_all_hundreds (source : list src_file) (s : state) :
  hundreds_counted (stats s) → hundreds_counted (stats (copy_all source s)).
Proof.
  revert s. induction source as [|f l IH]; intros s Hs; [done|].
  simpl. apply IH. by apply copy_step_hundreds.
Qed.

End Counters.

(** C8: a successful copy that brings the copied counter to a multiple of 100
    is also counted as an error (the progress line reads an attribute that
    does not exist and the handler of the loop body counts the exception);
    so a run of execute that ends with 100 or more copies reports at least
    one error, whatever the files were. *)
Theorem hundredth_copy_counts_as_error `{Env} :
  (∀ s f h dest,
      copy_fault (rel f) dest = CopyOk → (copied (stats s) + 1) mod 100 = 0 →
      copied (stats (copy_to f h dest s)) = copied (stats s) + 1
      ∧ errors (stats (copy_to f h dest s)) = errors (stats s) + 1
      ∧ last (console (copy_to f h dest s)) = Some (Logged "Fehler" (rel f) []))
  ∧ (∀ timestamp source t inp,
      100 ≤ copied (stats (main Execute timestamp source t inp).2) →
      1 ≤ errors (stats (main Execute timestamp source t inp).2)).
Proof.
  split.
  - intros s f h dest Hok Hm. rewrite copy_to_stats, Hok.
    apply Z.eqb_eq in Hm as Hb. rewrite Hb. split_and!; [done | done |].
    unfold copy_to. rewrite Hok.
    cbn [stats set_stats set_md5s set_tree add_copied copied]. rewrite Hb.
    simpl. apply last_snoc.
  - intros timestamp source t inp. unfold main.
    set (s := init timestamp t inp).
    enough (hundreds_counted (stats (execute source s).2)) as G
      by (unfold hundreds_counted in G; lia).
    destruct (execute source s).1 as [[|]|] eqn:E.
    + destruct (execute_true source s E) as (s1 & -> & _ & _ & S1 & _).
      rewrite final_report_stats. apply copy_all_hundreds. rewrite S1.
      unfold hundreds_counted. simpl. lia.
    + destruct (execute_not_true source s) as (_ & -> & _); [by rewrite E|].
      unfold hundreds_counted. simpl. lia.
    + destruct (execute_not_true source s) as (_ & -> & _); [by rewrite E|].
      unfold hundreds_counted. simpl. lia.
Qed.

(** C6, as the code has it: a file that cannot be read has no digest; the copy
    loop counts it as one error and neither as a duplicate nor as copied,
    and writes nothing but a log line; the planning pass of the dry run
    leaves it out of both lists and out of every counter, the error counter
    included, and writes nothing but log lines. *)
Theorem unreadable_file_is_skipped `{Env} (f : src_file) :
  readable (body f) = false →
  (∀ s, (calculate_md5 (rel f) (Some (NFile (body f))) s).1 = None)
  ∧ (∀ s, stats (copy_step s f) = add_errors (stats s)
          ∧ target_md5s (copy_step s f) = target_md5s s
          ∧ logs_only s (copy_step s f))
  ∧ (∀ p s, (analyse_file (p, s) f).1 = p
            ∧ stats (analyse_file (p, s) f).2 = stats s
            ∧ target_md5s (analyse_file (p, s) f).2 = target_md5s s
            ∧ logs_only s (analyse_file (p, s) f).2).
Proof.
  intros Hr. split_and!.
  - intros s. unfold calculate_md5. by rewrite Hr.
  - intros s. unfold copy_step, calculate_md5. rewrite Hr. cbn [fst snd].
    split_and!; [done | done |]. apply logs_set_stats, logs_log, logs_only_refl.
  - intros p s. unfold analyse_file, calculate_md5. rewrite Hr. cbn [fst snd].
    case_match; split_and!; try done; eauto with logs.
Qed.


Section SpaceGuard.

Context `{Env}.

Lemma later_root (s s' : state) :
  later s s' → log_file s ≠ [] → tree s !! [] = Some NDir → tree s' !! [] = Some NDir.
Proof. intros L Hl Hr. apply (later_tree _ _ L); [congruence | done]. Qed.

Lemma later_said (s s' : state) (e : event) : later s s' → e ∈ console s → e ∈ console s'.
Proof.
  intros L He. destruct (later_console _ _ L) as [k ->]. apply elem_of_app. by left.
Qed.

Lemma log_said (tag : string) (about : path) (nums : list Z) (s : state) :
  Logged tag about nums ∈ console (log tag about nums s).
Proof. simpl. apply elem_of_app. right. by apply list_elem_of_singleton. Qed.

Lemma disk_usage_root (s : state) :
  tree s !! [] = Some NDir → disk_usage s = free_space.
Proof. intros Hr. unfold disk_usage. by rewrite Hr. Qed.

(** *** the planning pass adds to [total_size] what it puts on [to_copy] *)

Lemma analyse_file_total (acc : plan * state) (f : src_file) :
  (to_copy (analyse_file acc f).1 = to_copy acc.1
   ∧ total_size (stats (analyse_file acc f).2) = total_size (stats acc.2))
  ∨ ∃ e, to_copy (analyse_file acc f).1 = to_copy acc.1 ++ [e].
Proof.
  unfold analyse_file. cbn [fst snd].
  pose proof (calculate_md5_stats (rel f) (Some (NFile (body f))) acc.2) as S0.
  destruct (calculate_md5 (rel f) (Some (NFile (body f))) acc.2) as [[h|] s0];
    cbn [fst snd] in *.
  - destruct (truthy (Some h)); [case_bool_decide|]; cbn [fst snd].
    + left. split; [done|]. case_match; simpl; by rewrite S0.
    + right. by eexists.
    + left. split; [done|]. case_match; simpl; by rewrite S0.
  - left. split; [done|]. case_match; simpl; by rewrite S0.
Qed.

Lemma analyse_total (source : list src_file) (s : state) :
  to_copy (analyse source s).1 = [] →
  total_size (stats (analyse source s).2) = total_size (stats s).
Proof.
  unfold analyse.
  enough (∀ acc, to_copy (fold_left analyse_file source acc).1 = [] →
            to_copy acc.1 = []
            ∧ total_size (stats (fold_left analyse_file source acc).2)
              = total_size (stats acc.2)) as G.
  { intros E. by destruct (G (Plan [] [], s) E). }
  induction source as [|f l IH]; intros acc E; [done|].
  simpl in E. destruct (IH _ E) as [E1 E2]. simpl. rewrite E2.
  destruct (analyse_file_total acc f) as [[Ht Hs] | [e Ht]].
  - split; congruence.
  - rewrite Ht in E1. by destruct (to_copy acc.1).
Qed.

Lemma fold_scan_file_total (l : list path) (acc : Z * state) :
  total_size (stats (fold_left scan_file l acc).2) = total_size (stats acc.2).
Proof.
  revert acc. induction l as [|p l IH]; intros acc; [done|].
  simpl. rewrite IH. unfold scan_file. cbn [fst snd].
  pose proof (calculate_md5_stats p (tree acc.2 !! p) acc.2) as S0.
  destruct (calculate_md5 p (tree acc.2 !! p) acc.2) as [[h|] s0]; cbn [fst snd] in *;
    repeat case_match; simpl; by rewrite S0.
Qed.

Lemma scan_target_total (s : state) :
  total_size (stats (scan_target s)) = total_size (stats s).
Proof.
  unfold scan_target, scan_files. cbn [log set_tree emit stats set_stats set_target_files
    total_size]. by rewrite fold_scan_file_total.
Qed.

Lemma report_space_said (s : state) (free : Z) :
  free_space = Some free → tree s !! [] = Some NDir → log_file s ≠ [] →
  free < total_size (stats s) →
  Logged "WARNUNG: Nicht genug Platz!" [] [] ∈ console (report_space s)
  ∧ Logged "Fehlend" [] [total_size (stats s) - free] ∈ console (report_space s)
  ∧ stats (report_space s) = stats s.
Proof.
  intros Hf Hr Hl Hlt. unfold report_space.
  set (s1 := log "Platzbedarf" _ _ s).
  assert (tree s1 !! [] = Some NDir) as Hr1.
  { apply (later_root s); [apply log_later | done | done]. }
  rewrite (disk_usage_root _ Hr1), Hf.
  change (stats (log "Freier Platz" [] [free] s1)) with (stats s).
  apply Z.ltb_lt in Hlt. rewrite Hlt. split_and!; [| apply log_said | done].
  apply (later_said (log "WARNUNG: Nicht genug Platz!" [] [] (log "Freier Platz" [] [free] s1)));
    [apply log_later | apply log_said].
Qed.

End SpaceGuard.

Section SpaceGuardRuns.

Context `{Env}.

Lemma report_space_stats (s : state) : stats (report_space s) = stats s.
Proof. unfold report_space. by repeat case_match. Qed.

Lemma examples_stats (l : list (path * Z)) (s : state) :
  stats (fold_left (λ s (e : path * Z), log "Beispiel" e.1 [e.2] s) l s) = stats s.
Proof. revert s. induction l as [|e l IH]; intros s; simpl; [done | by rewrite IH]. Qed.

Lemma log_examples_stats (tag : string) (l : list (path * Z)) (s : state) :
  stats (log_examples tag l s) = stats s.
Proof.
  unfold log_examples. destruct l; [done|]. case_match; [|done]. by rewrite examples_stats.
Qed.

Lemma dry_run_shortfall (source : list src_file) (s : state) (free : Z) :
  free_space = Some free → tree s !! [] = Some NDir → log_file s ≠ [] →
  total_size (stats s) ≤ free →
  free < total_size (stats (dry_run source s).2) →
  Logged "WARNUNG: Nicht genug Platz!" [] [] ∈ console (dry_run source s).2
  ∧ Logged "Fehlend" [] [total_size (stats (dry_run source s).2) - free]
      ∈ console (dry_run source s).2
  ∧ (dry_run source s).1 = true.
Proof.
  intros Hf Hr Hl Hle. unfold dry_run. cbn [fst snd].
  set (s0 := log "Analysiere Quelle" [] [] _).
  assert (later s s0) as L0.
  { subst s0. apply after_log. eapply later_trans; [|apply scan_target_later].
    eauto with later. }
  assert (total_size (stats s0) = total_size (stats s)) as T0.
  { subst s0. cbn [log stats set_tree emit]. by rewrite scan_target_total. }
  pose proof (analyse_later source s0) as La.
  pose proof (analyse_total source s0) as Ta.
  destruct (analyse source s0) as [p sa]; cbn [fst snd] in *.
  set (s8 := log "Zu kopieren" _ _ _).
  assert (later s s8) as L8.
  { subst s8. eapply later_trans; [done|]. eapply later_trans; [done|].
    eauto 20 with later. }
  assert (stats s8 = stats sa) as S8 by done.
  rewrite !log_examples_stats.
  destruct (to_copy p) as [|e l] eqn:Ep.
  { rewrite S8, Ta by done. lia. }
  rewrite report_space_stats, S8. intros Hlt.
  destruct (report_space_said s8 free Hf) as (W & F & _);
    [by apply (later_root s) | by rewrite (later_log_file _ _ L8) | by rewrite S8 |].
  rewrite S8 in F.
  split_and!; [| |done].
  - eapply later_said; [|exact W]. eauto with later.
  - eapply later_said; [|exact F]. eauto with later.
Qed.

Lemma print_said (tag : string) (nums : list Z) (s : state) :
  Printed tag nums ∈ console (print tag nums s).
Proof. simpl. apply elem_of_app. right. apply list_elem_of_singleton. done. Qed.

Lemma said_print (e : event) (tag : string) (nums : list Z) (s : state) :
  e ∈ console s → e ∈ console (print tag nums s).
Proof. intros He. simpl. apply elem_of_app. by left. Qed.

Lemma said_usage_hint (e : event) (s : state) :
  e ∈ console s → e ∈ console (usage_hint s).
Proof. intros He. unfold usage_hint. by do 4 apply said_print. Qed.

Lemma usage_hint_stats (s : state) : stats (usage_hint s) = stats s.
Proof. reflexivity. Qed.

Lemma said_log (e : event) (tag : string) (about : path) (nums : list Z) (s : state) :
  e ∈ console s → e ∈ console (log tag about nums s).
Proof. intros He. simpl. apply elem_of_app. by left. Qed.

Lemma input_cons (s : state) (l : string) (rest : list string) :
  stdin s = l :: rest → input s = (Some l, set_stdin rest s).
Proof. intros E. unfold input. by rewrite E. Qed.

Lemma space_gate_short (s : state) (free : Z) (l : string) (rest : list string) :
  free_space = Some free → tree s !! [] = Some NDir →
  free < total_size (stats s) → stdin s = l :: rest →
  ∃ s', space_gate s = (says_j l, s')
        ∧ Logged "WARNUNG: Nicht genug Platz!" [] [] ∈ console s'
        ∧ Printed "Fehlend" [total_size (stats s) - free] ∈ console s'.
Proof.
  intros Hf Hr Hlt Hin. unfold space_gate.
  rewrite (disk_usage_root s Hr), Hf.
  apply Z.ltb_lt in Hlt as Hb. rewrite Hb.
  set (s3 := print "Trotzdem fortfahren? (j/n)" _ _).
  assert (Logged "WARNUNG: Nicht genug Platz!" [] [] ∈ console s3
          ∧ Printed "Fehlend" [total_size (stats s) - free] ∈ console s3) as [W F].
  { subst s3. split.
    - apply said_print, said_print, log_said.
    - apply said_print, print_said. }
  rewrite (input_cons s3 l rest) by done. cbn [fst snd].
  destruct (says_j l); eexists; (split; [reflexivity|]).
  - done.
  - split; by apply said_log.
Qed.

Lemma execute_shortfall (source : list src_file) (s : state) (free : Z)
    (l1 l2 : string) (rest : list string) :
  free_space = Some free → tree s !! [] = Some NDir → log_file s ≠ [] →
  free < total_size (stats s) →
  stdin s = l1 :: l2 :: rest → says_j l1 = true →
  Logged "WARNUNG: Nicht genug Platz!" [] [] ∈ console (execute source s).2
  ∧ Printed "Fehlend" [total_size (stats s) - free] ∈ console (execute source s).2
  ∧ (execute source s).1 = Some (says_j l2).
Proof.
  intros Hf Hr Hl Hlt Hin Hj1. unfold execute.
  set (s0 := print "Fortfahren? (j/n)" _ _).
  assert (later s s0) as L0 by (subst s0; eauto 20 with later).
  rewrite (input_cons s0 l1 (l2 :: rest)) by done.
  cbn [fst snd]. rewrite Hj1. cbn [negb].
  set (s2 := set_stdin _ s0).
  assert (later s s2) as L2 by (subst s2; eauto with later).
  destruct (space_gate_short s2 free l2 rest Hf) as (s3 & -> & W & F);
    [by apply (later_root s) | done | done |].
  change (stats s2) with (stats s) in F.
  cbn [fst snd]. destruct (says_j l2); cbn [fst snd]; (split_and!; [| | done]).
  - eapply later_said; [|exact W]. eapply later_trans; [|apply final_report_later].
    eauto with later.
  - eapply later_said; [|exact F]. eapply later_trans; [|apply final_report_later].
    eauto with later.
  - done.
  - done.
Qed.

End SpaceGuardRuns.

Lemma later_dom (s s' : state) (q : path) :
  later s s' → is_Some (tree s !! q) → is_Some (tree s' !! q).
Proof.
  intros L [n Hn]. destruct (decide (q = log_file s)) as [->|Hq].
  - apply (later_log _ _ L). eauto.
  - rewrite (later_tree _ _ L q n Hq Hn). eauto.
Qed.

Lemma later_absent (s s' : state) (q : path) :
  later s s' → tree s' !! q = None → tree s !! q = None.
Proof.
  intros L Hn. apply eq_None_not_Some. intros Hs.
  apply (later_dom _ _ _ L) in Hs. rewrite Hn in Hs. by destruct Hs.
Qed.

Lemma append_line_present (lf q : path) (line : string) (t : gmap path node) :
  is_Some (t !! lf) → is_Some (append_line lf line t !! q) → is_Some (t !! q).
Proof.
  intros Hl Hq. destruct (decide (q = lf)) as [->|Hne]; [done|].
  by rewrite append_line_off in Hq.
Qed.

Section CopyStep.

Context `{Env}.

Lemma write_log_present (lf q : path) (line : string) (t : gmap path node) :
  log_fault lf = true ∨ is_Some (t !! lf) →
  is_Some (write_log lf line t !! q) → is_Some (t !! q).
Proof.
  intros Hl. destruct (write_log_cases lf line t) as [[_ ->] | [Hf ->]]; [done|].
  destruct Hl as [Hl|Hl]; [congruence|]. by apply append_line_present.
Qed.

(** when the log file cannot be opened a message leaves the tree as it is *)
Lemma log_quiet (tag : string) (about : path) (nums : list Z) (s : state) :
  log_fault (log_file s) = true → tree (log tag about nums s) = tree s.
Proof.
  intros Hf. cbn [log set_tree tree emit log_file]. unfold write_log. by rewrite Hf.
Qed.

(** *** A copy that succeeds *)
Lemma copy_to_ok (f : src_file) (h : string) (dest : path) (s : state) :
  copy_fault (rel f) dest = CopyOk →
  copied (stats (copy_to f h dest s)) = copied (stats s) + 1
  ∧ duplicates (stats (copy_to f h dest s)) = duplicates (stats s)
  ∧ h ∈ target_md5s (copy_to f h dest s)
  ∧ (dest ≠ log_file s → tree (copy_to f h dest s) !! dest = Some (NFile (body f)))
  ∧ (∀ q, q ≠ dest → q ≠ log_file s → tree (copy_to f h dest s) !! q = tree s !! q).
Proof.
  intros Hok. unfold copy_to. rewrite Hok.
  cbn [stats set_stats set_md5s set_tree add_copied copied].
  destruct (_ =? 0); cbn [on_error log set_tree emit set_stats set_md5s stats tree target_md5s
    add_errors copied duplicates log_file].
  - split_and!; [done | done | set_solver | |].
    + intros Hd. rewrite write_log_off by done. apply lookup_insert_eq.
    + intros q Hq Hl. rewrite write_log_off by done. by rewrite lookup_insert_ne by done.
  - split_and!; [done | done | set_solver | |].
    + intros _. apply lookup_insert_eq.
    + intros q Hq _. by rewrite lookup_insert_ne by done.
Qed.

(** a copy that succeeds leaves the file at a stable destination *)
Lemma copy_to_at (f : src_file) (h : string) (dest : path) (s : state) :
  copy_fault (rel f) dest = CopyOk → stable s dest →
  tree (copy_to f h dest s) !! dest = Some (NFile (body f)).
Proof.
  intros Hok Hst. unfold copy_to. rewrite Hok. cbn zeta.
  destruct (_ =? 0); [|apply lookup_insert_eq].
  unfold on_error. destruct Hst as [Hd|Hf].
  - cbn [log set_tree tree emit log_file set_stats set_md5s].
    rewrite write_log_off by done. apply lookup_insert_eq.
  - rewrite log_quiet by exact Hf. apply lookup_insert_eq.
Qed.

(** *** The loop body for a readable file whose digest is not in the index *)
Lemma copy_step_fresh (s : state) (f : src_file) (t : gmap path node) :
  readable (body f) = true → md5 (data (body f)) ≠ "" →
  md5 (data (body f)) ∉ target_md5s s →
  mkdir_parents (path_parent (rel f)) (tree s) = Some t →
  copy_step s f
  = match t !! rel f with
    | Some n =>
        let r := calculate_md5 (rel f) (Some n) (set_tree t s) in
        if bool_decide (r.1 = Some (md5 (data (body f))))
        then set_stats (add_duplicates (stats r.2)) r.2
        else match _unique_name (rel f) (tree r.2) with
             | Some dest => copy_to f (md5 (data (body f))) dest r.2
             | None => r.2
             end
    | None => copy_to f (md5 (data (body f))) (rel f) (set_tree t s)
    end.
Proof.
  intros Hr Hne Hni Hm. unfold copy_step.
  rewrite (calculate_md5_readable _ _ _ Hr). cbn [fst snd].
  assert (truthy (Some (md5 (data (body f)))) = true) as ->.
  { simpl. apply negb_true_iff. by apply String.eqb_neq. }
  cbn [negb]. rewrite bool_decide_eq_false_2 by done. rewrite Hm. done.
Qed.

End CopyStep.

Section Dedup.

Context `{Env}.

(** a readable file whose digest is in the index is a duplicate, and
    nothing else happens *)
Lemma copy_step_known (s : state) (f : src_file) :
  readable (body f) = true → md5 (data (body f)) ≠ "" →
  md5 (data (body f)) ∈ target_md5s s →
  copy_step s f = set_stats (add_duplicates (stats s)) s.
Proof.
  intros Hr Hne Hin. unfold copy_step.
  rewrite (calculate_md5_readable _ _ _ Hr). cbn [fst snd].
  assert (truthy (Some (md5 (data (body f)))) = true) as ->.
  { simpl. apply negb_true_iff. by apply String.eqb_neq. }
  cbn [negb]. by rewrite bool_decide_eq_true_2.
Qed.

(** the digest at a path of the tree is not [h] when no file of the tree
    has it *)
Lemma calculate_md5_absent (p : path) (n : node) (t : gmap path node) (s : state)
    (h : string) :
  t !! p = Some n →
  (∀ q g, t !! q = Some (NFile g) → md5 (data g) ≠ h) →
  (calculate_md5 p (Some n) s).1 ≠ Some h.
Proof.
  intros Hn Hno E. apply calculate_md5_Some in E as (g & [= ->] & _ & E).
  by apply (Hno p g).
Qed.

(** where a fresh file is copied to when no file of the tree has its
    digest *)
Lemma copy_step_new (s : state) (f : src_file) :
  readable (body f) = true → md5 (data (body f)) ≠ "" →
  md5 (data (body f)) ∉ target_md5s s →
  (∀ q g, tree s !! q = Some (NFile g) → md5 (data g) ≠ md5 (data (body f))) →
  is_Some (mkdir_parents (path_parent (rel f)) (tree s)) →
  ∃ dest s', copy_step s f = copy_to f (md5 (data (body f))) dest s'
             ∧ later s s' ∧ stats s' = stats s ∧ tree s' !! dest = None.
Proof.
  intros Hr Hne Hni Hno [t Hm].
  rewrite (copy_step_fresh s f t Hr Hne Hni Hm).
  assert (later s (set_tree t s)) as L1.
  { apply set_tree_later. intros q n. exact (mkdir_parents_keeps _ _ _ _ _ Hm). }
  destruct (t !! rel f) as [n|] eqn:Ht.
  - cbn zeta.
    pose proof (calculate_md5_later (rel f) (Some n) (set_tree t s)) as L2.
    pose proof (calculate_md5_stats (rel f) (Some n) (set_tree t s)) as S2.
    rewrite bool_decide_eq_false_2.
    2: { apply (calculate_md5_absent _ _ t); [done|].
         intros q g Hq. apply (Hno q g). by apply (mkdir_parents_files _ _ _ _ _ Hm). }
    destruct (unique_name_total (rel f) (tree (calculate_md5 (rel f) (Some n) (set_tree t s)).2))
      as (k & _ & -> & Hfree & _).
    eexists _, _. split_and!; [done | by eapply later_trans | by rewrite S2 | done].
  - exists (rel f), (set_tree t s). done.
Qed.

End Dedup.

Section Collision.

Context `{Env}.

(** With the log file in place, or not to be opened, hashing a file of the
    tree changes which paths exist at no path. *)
Lemma calculate_md5_same_paths (p q : path) (n : option node) (s : state) :
  log_fault (log_file s) = true ∨ is_Some (tree s !! log_file s) →
  is_Some (tree (calculate_md5 p n s).2 !! q) ↔ is_Some (tree s !! q).
Proof.
  intros Hl. split; [|apply later_dom, calculate_md5_later].
  unfold calculate_md5. repeat case_match; cbn [snd]; try done;
    by apply write_log_present.
Qed.

Lemma calculate_md5_off (p q : path) (n : option node) (s : state) :
  q ≠ log_file s → tree (calculate_md5 p n s).2 !! q = tree s !! q.
Proof.
  intros Hq. unfold calculate_md5.
  repeat case_match; cbn [snd]; try done; by apply write_log_off.
Qed.

Lemma calculate_md5_log_file (p : path) (n : option node) (s : state) :
  log_file (calculate_md5 p n s).2 = log_file s.
Proof. apply (later_log_file _ _ (calculate_md5_later p n s)). Qed.

End Collision.

Section Kept.

Context `{Env}.

Lemma kept_refl (s : state) : kept s s.
Proof. by split. Qed.

Lemma kept_trans (s1 s2 s3 : state) : kept s1 s2 → kept s2 s3 → kept s1 s3.
Proof.
  intros [E1 K1] [E2 K2]. split; [congruence|].
  intros Hf q n Hn. apply K2; [by rewrite E1 | by apply K1].
Qed.

Lemma kept_same_tree (s s' : state) :
  log_file s' = log_file s → tree s' = tree s → kept s s'.
Proof. intros El Et. split; [done|]. intros _ q n. by rewrite Et. Qed.

Lemma log_kept (tag : string) (about : path) (nums : list Z) (s : state) :
  kept s (log tag about nums s).
Proof. split; [done|]. intros Hf q n. by rewrite log_quiet. Qed.

Lemma calculate_md5_kept (p : path) (n : option node) (s : state) :
  kept s (calculate_md5 p n s).2.
Proof.
  unfold calculate_md5. repeat case_match; cbn [snd];
    (apply kept_refl || apply log_kept).
Qed.

Lemma on_error_kept (p : path) (s : state) : kept s (on_error p s).
Proof.
  unfold on_error. eapply kept_trans; [|apply log_kept]. by apply kept_same_tree.
Qed.

Lemma set_tree_kept (t : gmap path node) (s : state) :
  (∀ q n, tree s !! q = Some n → t !! q = Some n) → kept s (set_tree t s).
Proof. intros Hk. split; [done|]. intros _. exact Hk. Qed.

Lemma copy_to_kept (f : src_file) (h : string) (dest : path) (s : state) :
  tree s !! dest = None → kept s (copy_to f h dest s).
Proof.
  intros Hd. unfold copy_to. destruct (copy_fault (rel f) dest) as [|[d|]].
  - set (s1 := set_stats _ _).
    assert (kept s s1) as K1.
    { split; [done|]. intros _ q n. by apply insert_keeps. }
    case_match; [|done]. eapply kept_trans; [done | apply on_error_kept].
  - eapply kept_trans; [|apply on_error_kept].
    apply set_tree_kept. by apply insert_keeps.
  - eapply kept_trans; [|apply on_error_kept].
    by apply set_tree_kept.
Qed.

Lemma copy_step_kept (s : state) (f : src_file) : kept s (copy_step s f).
Proof.
  unfold copy_step.
  pose proof (calculate_md5_kept (rel f) (Some (NFile (body f))) s) as L0.
  destruct (calculate_md5 (rel f) (Some (NFile (body f))) s) as [[h|] s0]; cbn [fst snd] in *.
  2: { eapply kept_trans; [done | by apply kept_same_tree]. }
  destruct (negb (truthy (Some h))).
  { eapply kept_trans; [done | by apply kept_same_tree]. }
  case_bool_decide.
  { eapply kept_trans; [done | by apply kept_same_tree]. }
  destruct (mkdir_parents (path_parent (rel f)) (tree s0)) as [t|] eqn:Hm.
  2: { eapply kept_trans; [done | apply on_error_kept]. }
  assert (kept s0 (set_tree t s0)) as L1.
  { apply set_tree_kept. intros q n. exact (mkdir_parents_keeps _ _ _ _ _ Hm). }
  change (tree (set_tree t s0)) with t.
  destruct (t !! rel f) as [n|] eqn:Ht.
  - pose proof (calculate_md5_kept (rel f) (Some n) (set_tree t s0)) as L2.
    destruct (calculate_md5 (rel f) (Some n) (set_tree t s0)) as [m s2]; cbn [fst snd] in *.
    case_bool_decide.
    { eapply kept_trans; [done|]. eapply kept_trans; [done|].
      eapply kept_trans; [done | by apply kept_same_tree]. }
    destruct (unique_name_total (rel f) (tree s2)) as (k & _ & -> & Hfree & _).
    eapply kept_trans; [done|]. eapply kept_trans; [done|].
    eapply kept_trans; [done | by apply copy_to_kept].
  - eapply kept_trans; [done|]. eapply kept_trans; [done|].
    by apply copy_to_kept.
Qed.

Lemma copy_all_kept (source : list src_file) (s : state) : kept s (copy_all source s).
Proof.
  revert s. induction source as [|f source IH]; intros s; [apply kept_refl|].
  simpl. eapply kept_trans; [apply copy_step_kept | apply IH].
Qed.

Lemma final_report_kept (s : state) : kept s (final_report s).
Proof.
  unfold final_report. cbn zeta.
  repeat case_match;
    repeat (eapply kept_trans; [|apply log_kept]); apply kept_refl.
Qed.

End Kept.

Section NothingLost.

Context `{Env}.

Lemma presentb_true (h : string) (t : gmap path node) :
  presentb h t = true ↔ ∃ q n, t !! q = Some n ∧ has_hash h n = true.
Proof.
  unfold presentb. rewrite existsb_exists. split.
  - intros ([q n] & Hin & Hh). exists q, n. split; [|done].
    apply elem_of_map_to_list. by apply list_elem_of_In.
  - intros (q & n & Hq & Hh). exists (q, n). split; [|done].
    apply list_elem_of_In. by apply elem_of_map_to_list.
Qed.

Lemma present_off_presentb (h : string) (s : state) :
  present_off h s → presentb h (tree s) = true.
Proof. intros (q & n & _ & Hq & Hh). apply presentb_true. eauto. Qed.

Lemma present_off_later (h : string) (s s' : state) :
  later s s' → kept s s' → present_off h s → present_off h s'.
Proof.
  intros L [_ K] (q & n & Hq & Hn & Hh). exists q, n.
  unfold stable in *. rewrite (later_log_file _ _ L). split_and!; [done | | done].
  destruct Hq as [Hq|Hf]; [by apply (later_tree _ _ L) | by apply K].
Qed.

Lemma index_backed_later (s s' : state) :
  later s s' → kept s s' → target_md5s s' = target_md5s s →
  index_backed s → index_backed s'.
Proof.
  intros L K E Hb h Hh. apply (present_off_later h s); [done | done |].
  apply Hb. by rewrite <- E.
Qed.

Lemma settled_present (done : list path) (s : state) :
  is_Some (tree s !! log_file s) → settled done s.
Proof. right. by left. Qed.

Lemma logged_lines_dom (lf q : path) (lines : list string) (t : gmap path node) :
  is_Some (t !! q) → is_Some (logged_lines lf lines t !! q).
Proof.
  revert t. induction lines as [|l lines IH]; intros t Hq; [done|].
  simpl. apply IH. by apply append_line_dom.
Qed.

(** a step that only logs keeps a settled state settled *)
Lemma settled_logs (done : list path) (s s' : state) :
  logs_only s s' → settled done s → settled done s'.
Proof.
  intros G [Hq|[Hl|Hf]].
  - left. destruct G as [-> _]. done.
  - right. left. destruct G as [-> [lines ->]]. by apply logged_lines_dom.
  - destruct (decide (is_Some (tree s' !! log_file s'))) as [Hl'|Hl'];
      [right; by left|].
    right. right. intros q g Hq. apply (Hf q g).
    rewrite <- (logs_only_off s s' q G); [done|].
    intros E. apply Hl'. destruct G as [-> _]. rewrite <- E, Hq. eauto.
Qed.

Lemma settled_more (done : list path) (p : path) (s : state) :
  settled done s → settled (p :: done) s.
Proof.
  intros [Hq|[Hl|Hf]]; [by left | right; by left |].
  right. right. intros q g Hq. right. by apply (Hf q g).
Qed.

Lemma has_hash_body (f : src_file) : has_hash (md5 (data (body f))) (NFile (body f)) = true.
Proof. simpl. apply String.eqb_refl. Qed.

Lemma on_error_errors (p : path) (s : state) :
  errors (stats (on_error p s)) = errors (stats s) + 1.
Proof. done. Qed.

Lemma on_error_logs (p : path) (s : state) : logs_only s (on_error p s).
Proof. unfold on_error. apply logs_log, logs_set_stats, logs_only_refl. Qed.

Lemma prefixes_root (d : path) : [] ∈ prefixes d.
Proof. destruct d; simpl; by left. Qed.

(** a file put at a free stable path *)
Lemma settled_insert (done : list path) (dest : path) (x : file) (s : state) :
  stable s dest → settled done s →
  settled (dest :: done) (set_tree (<[dest := NFile x]> (tree s)) s).
Proof.
  intros [Hd|Hq] [Hq'|[Hl|Hf]]; try by left.
  - right. left. simpl. rewrite lookup_insert_ne by done. done.
  - right. right. simpl. intros q g Hq.
    destruct (decide (q = dest)) as [->|Hne]; [by left|].
    right. rewrite lookup_insert_ne in Hq by done. by apply (Hf q g).
Qed.

(** a free path is stable once the log file cannot be opened or is in
    place *)
Lemma free_is_stable (dest : path) (s : state) :
  log_fault (log_file s) = true ∨ is_Some (tree s !! log_file s) →
  tree s !! dest = None → stable s dest.
Proof.
  intros [Hf|Hl] Hfree; [by right|]. left. intros ->. rewrite Hfree in Hl.
  by destruct Hl.
Qed.

(** A copy to a free stable path either counts a failure, and nothing
    else, or leaves the content in the tree. *)
Lemma copy_to_accounts (done : list path) (f : src_file) (dest : path) (s : state) :
  index_backed s → settled done s → tree s !! dest = None → stable s dest →
  index_backed (copy_to f (md5 (data (body f))) dest s)
  ∧ settled (dest :: done) (copy_to f (md5 (data (body f))) dest s)
  ∧ (stats (copy_to f (md5 (data (body f))) dest s) = add_errors (stats s)
     ∨ present_off (md5 (data (body f))) (copy_to f (md5 (data (body f))) dest s)).
Proof.
  intros B St Hfree Hdl.
  pose proof (copy_to_later f (md5 (data (body f))) dest s Hfree) as L.
  pose proof (copy_to_kept f (md5 (data (body f))) dest s Hfree) as K.
  pose proof (copy_to_stats f (md5 (data (body f))) dest s) as Sts.
  destruct (copy_fault (rel f) dest) as [|left_behind] eqn:Hc.
  - assert (present_off (md5 (data (body f))) (copy_to f (md5 (data (body f))) dest s))
      as Hp.
    { exists dest, (NFile (body f)). unfold stable. rewrite (later_log_file _ _ L).
      split_and!; [done | by apply copy_to_at | apply has_hash_body]. }
    split_and!; [| |by right].
    + intros h Hh.
      assert (target_md5s (copy_to f (md5 (data (body f))) dest s)
              = {[md5 (data (body f))]} ∪ target_md5s s) as E.
      { unfold copy_to. rewrite Hc. destruct (_ =? 0); reflexivity. }
      rewrite E in Hh. apply elem_of_union in Hh as [Hh|Hh].
      * apply elem_of_singleton in Hh as ->. done.
      * apply (present_off_later h s); [done | done |]. by apply B.
    + pose proof (settled_insert done dest (body f) s Hdl St) as S1.
      unfold copy_to. rewrite Hc. cbn zeta.
      set (s1 := set_stats _ _).
      assert (settled (dest :: done) s1) as S2 by exact S1.
      destruct (_ =? 0); [|done].
      apply (settled_logs _ s1); [apply on_error_logs | done].
  - split_and!.
    + apply (index_backed_later s); [done | done | | done]. unfold copy_to. by rewrite Hc.
    + unfold copy_to. rewrite Hc. destruct left_behind as [d|].
      * eapply settled_logs; [apply on_error_logs |].
        by apply settled_insert.
      * eapply settled_logs; [apply on_error_logs |].
        apply settled_more. by destruct s.
    + by left.
Qed.

End NothingLost.

Section NothingLostRuns.

Context `{Env}.

(** One round of the copy loop: the round counts a failure, and nothing
    else, or the content of the file is in the tree afterwards. *)
Lemma copy_step_accounts (done : list path) (s : state) (f : src_file) :
  index_backed s → settled done s → path_parent (log_file s) = [] →
  stable s (rel f) → rel f ∉ done →
  index_backed (copy_step s f)
  ∧ settled (rel f :: done) (copy_step s f)
  ∧ (stats (copy_step s f) = add_errors (stats s)
     ∨ present_off (md5 (data (body f))) (copy_step s f)).
Proof.
  intros B St Hpar Hnl Hnd. unfold copy_step.
  pose proof (calculate_md5_later (rel f) (Some (NFile (body f))) s) as L0.
  pose proof (calculate_md5_kept (rel f) (Some (NFile (body f))) s) as K0.
  pose proof (logs_calculate_md5 s s (rel f) (Some (NFile (body f))) (logs_only_refl s))
    as G0.
  pose proof (calculate_md5_stats (rel f) (Some (NFile (body f))) s) as S0.
  pose proof (calculate_md5_md5s (rel f) (Some (NFile (body f))) s) as M0.
  pose proof (calculate_md5_Some (rel f) (Some (NFile (body f))) s) as H0.
  destruct (calculate_md5 (rel f) (Some (NFile (body f))) s) as [[h|] s0];
    cbn [fst snd] in *.
  2: { pose proof (index_backed_later s s0 L0 K0 M0 B) as B0.
       pose proof (settled_logs done s s0 G0 St) as St0.
       split_and!; [exact B0 | apply settled_more; exact St0 |].
       left. simpl. by rewrite S0. }
  destruct (proj1 (H0 h) eq_refl) as (g & [= <-] & _ & <-). clear H0.
  pose proof (index_backed_later s s0 L0 K0 M0 B) as B0.
  pose proof (settled_logs done s s0 G0 St) as St0.
  pose proof (later_log_file _ _ L0) as Elf.
  destruct (negb (truthy (Some (md5 (data (body f)))))).
  { split_and!; [exact B0 | apply settled_more; exact St0 |].
    left. simpl. by rewrite S0. }
  case_bool_decide as Hin.
  { split_and!; [exact B0 | apply settled_more; exact St0 |].
    right. by apply B0. }
  destruct (mkdir_parents (path_parent (rel f)) (tree s0)) as [t|] eqn:Hm.
  2: { split_and!.
       - apply (index_backed_later s0);
           [apply on_error_later | apply on_error_kept | done | done].
       - apply settled_more.
         apply (settled_logs _ s0); [apply on_error_logs | done].
       - left. unfold on_error. rewrite log_stats_eq. simpl. by rewrite S0. }
  assert (later s0 (set_tree t s0)) as L1.
  { apply set_tree_later. intros q n. exact (mkdir_parents_keeps _ _ _ _ _ Hm). }
  assert (kept s0 (set_tree t s0)) as K1.
  { apply set_tree_kept. intros q n. exact (mkdir_parents_keeps _ _ _ _ _ Hm). }
  pose proof (index_backed_later s0 (set_tree t s0) L1 K1 eq_refl B0) as B1.
  assert (settled done (set_tree t s0)) as St1.
  { destruct St0 as [Hq|[Hl|Hf]].
    - by left.
    - right. left. apply (later_log _ _ L1 Hl).
    - right. right. intros q g Hq. apply (Hf q g).
      exact (mkdir_parents_files _ _ _ _ _ Hm Hq). }
  assert (t !! [] = Some NDir) as Hroot.
  { rewrite (mkdir_parents_lookup _ [] _ _ Hm). rewrite decide_True; [done|].
    apply prefixes_root. }
  change (tree (set_tree t s0)) with t.
  destruct (t !! rel f) as [n|] eqn:Ht.
  - pose proof (calculate_md5_later (rel f) (Some n) (set_tree t s0)) as L2.
    pose proof (calculate_md5_kept (rel f) (Some n) (set_tree t s0)) as K2.
    pose proof (logs_calculate_md5 _ _ (rel f) (Some n) (logs_only_refl (set_tree t s0)))
      as G2.
    pose proof (calculate_md5_stats (rel f) (Some n) (set_tree t s0)) as S2.
    pose proof (calculate_md5_md5s (rel f) (Some n) (set_tree t s0)) as M2.
    pose proof (calculate_md5_Some (rel f) (Some n) (set_tree t s0)) as H2.
    pose proof (calculate_md5_off (rel f) (rel f) (Some n) (set_tree t s0)) as O2.
    (* once the path has been hashed the log file is in place, unless it
       cannot be opened *)
    assert (log_fault (log_file s0) = true
            ∨ is_Some (tree (calculate_md5 (rel f) (Some n) (set_tree t s0)).2
                         !! log_file s0)) as Hlog2.
    { destruct St1 as [Hq|[Hl|Hf]].
      - by left.
      - right. apply (later_log _ _ L2 Hl).
      - destruct n as [g|].
        + exfalso. apply Hnd. apply (Hf (rel f) g). exact Ht.
        + cbn [calculate_md5 snd log set_tree emit tree log_file].
          destruct (write_log_cases (log_file s0) (render (Logged "MD5 Fehler" (rel f) []))
                      t) as [[Hq _] | [_ ->]]; [by left|].
          right. apply append_line_creates. rewrite Elf, Hpar. exact Hroot. }
    destruct (calculate_md5 (rel f) (Some n) (set_tree t s0)) as [m s2]; cbn [fst snd] in *.
    pose proof (index_backed_later _ s2 L2 K2 M2 B1) as B2.
    pose proof (later_log_file _ _ L2) as Elf2. cbn [log_file set_tree] in Elf2.
    assert (settled done s2) as St2.
    { destruct Hlog2 as [Hq|Hl]; [left | right; left]; by rewrite Elf2. }
    case_bool_decide as Hsame.
    + split_and!; [exact B2 | apply settled_more; exact St2 |].
      right.
      destruct (proj1 (H2 _) Hsame) as (g & [= ->] & _ & Hg).
      exists (rel f), (NFile g). unfold stable. simpl.
      split_and!; [by rewrite Elf2, Elf | | by apply String.eqb_eq].
      destruct Hnl as [Hnl|Hq].
      * rewrite O2 by (simpl; congruence). done.
      * apply (proj2 K2); [simpl; by rewrite Elf | done].
    + destruct (unique_name_total (rel f) (tree s2)) as (k & _ & -> & Hfree & _).
      set (dest := renamed _ _) in *.
      assert (stable s2 dest) as Hdl.
      { apply free_is_stable; [|done]. by rewrite Elf2. }
      destruct (copy_to_accounts done f dest s2 B2 St2 Hfree Hdl) as (B3 & St3 & Hacc).
      split_and!; [done | |].
      * pose proof (copy_to_later f (md5 (data (body f))) dest s2 Hfree) as L3.
        destruct Hlog2 as [Hq|Hl].
        -- left. rewrite (later_log_file _ _ L3). by rewrite Elf2.
        -- right. left. rewrite (later_log_file _ _ L3).
           apply (later_log _ _ L3). by rewrite Elf2.
      * rewrite S2 in Hacc. simpl in Hacc. by rewrite S0 in Hacc.
  - assert (stable (set_tree t s0) (rel f)) as Hdl.
    { unfold stable. simpl. by rewrite Elf. }
    destruct (copy_to_accounts done f (rel f) (set_tree t s0) B1 St1 Ht Hdl)
      as (B3 & St3 & Hacc).
    split_and!; [done | done |]. simpl in Hacc. by rewrite S0 in Hacc.
Qed.

End NothingLostRuns.

(** ** The copy loop, round by round *)

Lemma mkdir_parents_free (d : path) (t : gmap path node) :
  (∀ q, q ∈ prefixes d → is_file (t !! q) = false) →
  ∃ t', mkdir_parents d t = Some t'.
Proof.
  intros Hno. unfold mkdir_parents.
  destruct (existsb _ _) eqn:E; [|by eexists].
  apply existsb_exists in E as (q & Hq & Hf).
  apply list_elem_of_In in Hq. by rewrite Hno in Hf.
Qed.

Lemma mkdir_parents_blocked (d q : path) (t : gmap path node) :
  q ∈ prefixes d → is_file (t !! q) = true → mkdir_parents d t = None.
Proof.
  intros Hq Hf. unfold mkdir_parents.
  assert (existsb (λ q, is_file (t !! q)) (prefixes d) = true) as ->; [|done].
  apply existsb_exists. exists q. split; [by apply list_elem_of_In | done].
Qed.

Lemma append_line_keeps_dir (lf q : path) (line : string) (t : gmap path node) :
  t !! q = Some NDir → append_line lf line t !! q = Some NDir.
Proof.
  intros Hq. destruct (decide (q = lf)) as [->|Hne]; [|by rewrite append_line_off].
  unfold append_line. rewrite Hq. by destruct (t !! path_parent lf) as [[x|]|].
Qed.

Lemma logged_lines_keeps_dir (lf q : path) (lines : list string) (t : gmap path node) :
  t !! q = Some NDir → logged_lines lf lines t !! q = Some NDir.
Proof.
  intros Hq. induction lines as [|l lines IH] using rev_ind; [done|].
  rewrite logged_lines_app. by apply append_line_keeps_dir.
Qed.

Lemma failures_add_errors (c : stats_t) : failures (add_errors c) = failures c + 1.
Proof. unfold failures. simpl. lia. Qed.

Section Rounds.
Context `{Env}.

Lemma copy_all_app (l1 l2 : list src_file) (s : state) :
  copy_all (l1 ++ l2) s = copy_all l2 (copy_all l1 s).
Proof. unfold copy_all. by rewrite fold_left_app. Qed.

Lemma copy_all_snoc (l : list src_file) (f : src_file) (s : state) :
  copy_all (l ++ [f]) s = copy_step (copy_all l s) f.
Proof. by rewrite copy_all_app. Qed.

(** A confirmed run of [main] is the report after the copy loop, started in
    a state that does not depend on the source: the run on the source cut
    after a file is the run up to and including the round of that file. *)
Lemma main_execute_rounds (timestamp : string) (source0 : list src_file)
    (t : gmap path node) (inp : list string) :
  (main Execute timestamp source0 t inp).1 = Some true →
  ∃ s1, later (init timestamp t inp) s1 ∧ logs_only (init timestamp t inp) s1
        ∧ stats s1 = Stats 0 0 0 0 0 0 ∧ target_md5s s1 = ∅
        ∧ (log_fault (log_file s1) = false → t !! [] = Some NDir →
           is_Some (tree s1 !! log_file s1))
        ∧ ∀ source, main Execute timestamp source t inp
                    = (Some true, final_report (copy_all source s1)).
Proof.
  unfold main. set (s := init timestamp t inp). intros Hrun.
  destruct (execute_shape s) as (s1 & L & G & S & M & P & Hsame & E).
  exists s1. rewrite (later_log_file _ _ L). split_and!; try done.
  intros source.
  assert ((execute source s).1 = Some true) as Hr by (by rewrite (Hsame source source0)).
  rewrite (surjective_pairing (execute source s)). by rewrite Hr, (E source Hr).
Qed.

(** the rounds that count a failure never get fewer *)
Lemma copy_step_failures (s : state) (f : src_file) :
  failures (stats s) ≤ failures (stats (copy_step s f)).
Proof.
  destruct (copy_step_stats s f) as [->|[->|[[Hm ->]|[Hm ->]]]];
    unfold failures; simpl; Z.div_mod_to_equations; lia.
Qed.

(** *** A target root that is a regular file *)

(** no directory can be made below it: every round ends in the handler *)
Lemma copy_step_blocked (g : file) (s : state) (f : src_file) :
  tree s !! [] = Some (NFile g) → log_file s ≠ [] → target_md5s s = ∅ →
  stats (copy_step s f) = add_errors (stats s)
  ∧ target_md5s (copy_step s f) = ∅.
Proof.
  intros Hroot Hlf Hm. unfold copy_step.
  pose proof (calculate_md5_later (rel f) (Some (NFile (body f))) s) as L0.
  pose proof (calculate_md5_stats (rel f) (Some (NFile (body f))) s) as S0.
  pose proof (calculate_md5_md5s (rel f) (Some (NFile (body f))) s) as M0.
  destruct (calculate_md5 (rel f) (Some (NFile (body f))) s) as [[h|] s0];
    cbn [fst snd] in *.
  2: { simpl. split; congruence. }
  destruct (negb _); [simpl; split; congruence|].
  case_bool_decide as Hin.
  { rewrite M0, Hm in Hin. by apply not_elem_of_empty in Hin. }
  rewrite (mkdir_parents_blocked _ [] (tree s0)).
  - unfold on_error. rewrite log_stats_eq, log_md5s_eq. simpl. split; congruence.
  - apply prefixes_root.
  - by rewrite (later_tree _ _ L0 [] (NFile g)).
Qed.

Lemma copy_all_blocked (g : file) (l : list src_file) (s : state) :
  tree s !! [] = Some (NFile g) → log_file s ≠ [] → target_md5s s = ∅ →
  tree (copy_all l s) !! [] = Some (NFile g)
  ∧ target_md5s (copy_all l s) = ∅
  ∧ failures (stats (copy_all l s)) = failures (stats s) + Z.of_nat (length l).
Proof.
  revert s. induction l as [|f l IH]; intros s Hroot Hlf Hm; [simpl; split_and!; try done; lia|].
  destruct (copy_step_blocked g s f Hroot Hlf Hm) as [S1 M1].
  pose proof (copy_step_later s f) as L1.
  destruct (IH (copy_step s f)) as (R & M & F).
  - by apply (later_tree _ _ L1).
  - by rewrite (later_log_file _ _ L1).
  - done.
  - cbn [copy_all fold_left length] in *. fold (copy_all l (copy_step s f)) in *.
    split_and!; [done | done |].
    rewrite F, S1, failures_add_errors. lia.
Qed.

(** *** What the loop keeps from round to round *)

Lemma settled_mono (seen seen' : list path) (s : state) :
  (∀ q, q ∈ seen → q ∈ seen') → settled seen s → settled seen' s.
Proof.
  intros Hsub [Hq|[Hl|Hf]]; [by left | right; by left |].
  right. right. intros q g Hq. apply Hsub. by apply (Hf q g).
Qed.

Lemma stable_later (s s' : state) (q : path) : later s s' → stable s q → stable s' q.
Proof. intros L. unfold stable. by rewrite (later_log_file _ _ L). Qed.

Lemma copy_all_inv (l : list src_file) (seen : list path) (s : state) :
  index_backed s → settled seen s → path_parent (log_file s) = [] →
  (∀ f, f ∈ l → stable s (rel f) ∧ rel f ∉ seen) →
  NoDup (rel <$> l) →
  index_backed (copy_all l s) ∧ settled ((rel <$> l) ++ seen) (copy_all l s).
Proof.
  revert seen s. induction l as [|f l IH]; intros seen s B St Hpar Hnl Hnd; [done|].
  destruct (Hnl f) as [Hf1 Hf2]; [by left|].
  destruct (copy_step_accounts seen s f B St Hpar Hf1 Hf2) as (B1 & St1 & _).
  pose proof (copy_step_later s f) as L1.
  rewrite fmap_cons in Hnd. apply NoDup_cons in Hnd as [Hfresh Hnd].
  destruct (IH (rel f :: seen) (copy_step s f) B1 St1) as [B2 St2].
  - by rewrite (later_log_file _ _ L1).
  - intros f0 Hf0. destruct (Hnl f0) as [Ha Hb]; [by right|].
    split; [by apply (stable_later s)|].
    intros Hin. apply elem_of_cons in Hin as [E|Hin]; [|done].
    apply Hfresh. rewrite <- E. apply list_elem_of_fmap. by exists f0.
  - done.
  - cbn [copy_all fold_left] in *. fold (copy_all l (copy_step s f)) in *.
    split; [done|].
    eapply settled_mono; [|exact St2].
    intros q Hq. rewrite fmap_cons.
    apply elem_of_app in Hq as [Hq|Hq].
    + apply elem_of_app. left. by right.
    + apply elem_of_cons in Hq as [->|Hq]; apply elem_of_app; [left; by left | by right].
Qed.

(** the round of one file of the source *)
Lemma copy_all_each (l1 l2 : list src_file) (f : src_file) (s s_end : state) :
  index_backed s → settled [] s → path_parent (log_file s) = [] →
  (∀ f0, f0 ∈ l1 ++ f :: l2 → stable s (rel f0)) →
  NoDup (rel <$> (l1 ++ f :: l2)) →
  later (copy_all (l1 ++ f :: l2) s) s_end → kept (copy_all (l1 ++ f :: l2) s) s_end →
  stats (copy_step (copy_all l1 s) f) = add_errors (stats (copy_all l1 s))
  ∨ present_off (md5 (data (body f))) s_end.
Proof.
  intros B St Hpar Hnl Hnd Lend Kend.
  rewrite fmap_app, fmap_cons in Hnd.
  apply NoDup_app in Hnd as (Hnd1 & Hcross & Hnd2).
  destruct (copy_all_inv l1 [] s B St Hpar) as [B1 St1]; [|done|].
  { intros f0 Hf0. split; [|apply not_elem_of_nil]. apply Hnl.
    apply elem_of_app. by left. }
  pose proof (copy_all_later l1 s) as L1.
  rewrite app_nil_r in St1.
  destruct (copy_step_accounts (rel <$> l1) (copy_all l1 s) f B1 St1) as (_ & _ & Hacc).
  - by rewrite (later_log_file _ _ L1).
  - apply (stable_later s); [done|]. apply Hnl. apply elem_of_app. right. by left.
  - intros Hin. apply (Hcross (rel f) Hin). by left.
  - destruct Hacc as [Hacc|Hacc]; [by left|]. right.
    rewrite copy_all_app in Lend, Kend.
    cbn [copy_all fold_left] in Lend, Kend. fold (copy_all l2 (copy_step (copy_all l1 s) f)) in *.
    apply (present_off_later _ (copy_step (copy_all l1 s) f)); [| |done].
    + eapply later_trans; [apply copy_all_later | done].
    + eapply kept_trans; [apply copy_all_kept | done].
Qed.

Lemma copy_all_accounts (source : list src_file) (seen : list path)
    (s s_end : state) (before : gmap path node) :
  index_backed s → settled seen s → path_parent (log_file s) = [] →
  (∀ f, f ∈ source → stable s (rel f) ∧ rel f ∉ seen) →
  NoDup (rel <$> source) →
  later (copy_all source s) s_end → kept (copy_all source s) s_end →
  Z.of_nat (length (unaccounted (tree s_end) before source))
  ≤ failures (stats (copy_all source s)) - failures (stats s).
Proof.
  revert seen s. induction source as [|f l IH]; intros seen s B St Hpar Hnl Hnd Lend Kend;
    [simpl; lia|].
  destruct (Hnl f) as [Hf1 Hf2]; [by left|].
  destruct (copy_step_accounts seen s f B St Hpar Hf1 Hf2) as (B1 & St1 & Hacc).
  pose proof (copy_step_later s f) as L1.
  cbn [copy_all fold_left] in *. fold (copy_all l (copy_step s f)) in *.
  rewrite fmap_cons in Hnd. apply NoDup_cons in Hnd as [Hfresh Hnd].
  specialize (IH (rel f :: seen) (copy_step s f) B1 St1).
  rewrite (later_log_file _ _ L1) in IH. specialize (IH Hpar).
  assert (∀ f0, f0 ∈ l → stable (copy_step s f) (rel f0) ∧ rel f0 ∉ rel f :: seen) as Hnl1.
  { intros f0 Hf0. destruct (Hnl f0) as [Ha Hb]; [by right|].
    split; [by apply (stable_later s)|].
    intros Hin. apply elem_of_cons in Hin as [E|Hin]; [|done].
    apply Hfresh. rewrite <- E. apply list_elem_of_fmap. by exists f0. }
  specialize (IH Hnl1 Hnd Lend Kend).
  pose proof (copy_step_failures s f) as He.
  unfold unaccounted in *. cbn [List.filter].
  destruct (presentb (md5 (data (body f))) (tree s_end)) eqn:Hp; cbn [negb andb]; [lia|].
  destruct Hacc as [Hacc|Hacc].
  - rewrite Hacc, failures_add_errors in IH.
    destruct (negb _); cbn [length]; lia.
  - exfalso. apply (present_off_later _ _ s_end) in Hacc.
    + apply present_off_presentb in Hacc. congruence.
    + eapply later_trans; [apply copy_all_later | done].
    + eapply kept_trans; [apply copy_all_kept | done].
Qed.

(** *** Directories stay, and the report writes to the log file only *)

Lemma write_log_keeps_dir (lf q : path) (line : string) (t : gmap path node) :
  t !! q = Some NDir → write_log lf line t !! q = Some NDir.
Proof.
  intros Hq. destruct (write_log_cases lf line t) as [[_ ->] | [_ ->]]; [done|].
  by apply append_line_keeps_dir.
Qed.

Lemma log_keeps_dir (tag : string) (about : path) (nums : list Z) (s : state) (d : path) :
  tree s !! d = Some NDir → tree (log tag about nums s) !! d = Some NDir.
Proof. intros Hd. cbn [log set_tree tree emit log_file]. by apply write_log_keeps_dir. Qed.

Lemma calculate_md5_keeps_dir (p : path) (n : option node) (s : state) (d : path) :
  tree s !! d = Some NDir → tree (calculate_md5 p n s).2 !! d = Some NDir.
Proof.
  intros Hd. unfold calculate_md5. repeat case_match; cbn [snd]; try done;
    by apply log_keeps_dir.
Qed.

Lemma copy_to_keeps_dir (f : src_file) (h : string) (dest d : path) (s : state) :
  tree s !! d = Some NDir → d ≠ dest → tree (copy_to f h dest s) !! d = Some NDir.
Proof.
  intros Hd Hne. unfold copy_to. destruct (copy_fault (rel f) dest) as [|[x|]].
  - cbn zeta. destruct (_ =? 0).
    + unfold on_error. apply log_keeps_dir.
      cbn [tree set_stats set_md5s set_tree]. by rewrite lookup_insert_ne.
    + cbn [tree set_stats set_md5s set_tree]. by rewrite lookup_insert_ne.
  - unfold on_error. apply log_keeps_dir.
    cbn [tree set_stats set_md5s set_tree]. by rewrite lookup_insert_ne.
  - unfold on_error. apply log_keeps_dir.
    cbn [tree set_stats set_md5s set_tree]. done.
Qed.

Lemma copy_step_keeps_dir (s : state) (f : src_file) (d : path) :
  tree s !! d = Some NDir → tree (copy_step s f) !! d = Some NDir.
Proof.
  intros Hd. unfold copy_step.
  pose proof (calculate_md5_keeps_dir (rel f) (Some (NFile (body f))) s d Hd) as D0.
  destruct (calculate_md5 (rel f) (Some (NFile (body f))) s) as [[h|] s0];
    cbn [fst snd] in *; [|done].
  destruct (negb _); [done|]. case_bool_decide; [done|].
  destruct (mkdir_parents (path_parent (rel f)) (tree s0)) as [t|] eqn:Hm.
  2: { unfold on_error. by apply log_keeps_dir. }
  pose proof (mkdir_parents_keeps _ d _ _ _ Hm D0) as D1.
  change (tree (set_tree t s0)) with t.
  destruct (t !! rel f) as [n|] eqn:Ht.
  - pose proof (calculate_md5_keeps_dir (rel f) (Some n) (set_tree t s0) d D1) as D2.
    destruct (calculate_md5 (rel f) (Some n) (set_tree t s0)) as [m s2]; cbn [fst snd] in *.
    case_bool_decide; [done|].
    destruct (unique_name_total (rel f) (tree s2)) as (k & _ & -> & Hfree & _).
    apply copy_to_keeps_dir; [done|]. intros ->. congruence.
  - apply copy_to_keeps_dir; [done|]. intros ->. congruence.
Qed.

Lemma copy_all_keeps_dir (l : list src_file) (s : state) (d : path) :
  tree s !! d = Some NDir → tree (copy_all l s) !! d = Some NDir.
Proof.
  revert s. induction l as [|f l IH]; intros s Hd; [done|].
  simpl. apply IH. by apply copy_step_keeps_dir.
Qed.

Lemma logs_final_report (s0 s : state) : logs_only s0 s → logs_only s0 (final_report s).
Proof. intros L. unfold final_report. repeat case_match; eauto 20 with logs. Qed.

Lemma final_report_off (s : state) (q : path) :
  q ≠ log_file s → tree (final_report s) !! q = tree s !! q.
Proof.
  intros Hq. apply logs_only_off; [|done]. apply logs_final_report, logs_only_refl.
Qed.

Lemma quiet_log (s0 s : state) (tag : string) (about : path) (nums : list Z) :
  log_fault (log_file s0) = true →
  log_file s = log_file s0 ∧ tree s = tree s0 →
  log_file (log tag about nums s) = log_file s0 ∧ tree (log tag about nums s) = tree s0.
Proof.
  intros Hf [E1 E2]. split; [done|]. rewrite log_quiet; [done|]. by rewrite E1.
Qed.

Lemma final_report_quiet (s : state) :
  log_fault (log_file s) = true → tree (final_report s) = tree s.
Proof.
  intros Hf.
  enough (log_file (final_report s) = log_file s ∧ tree (final_report s) = tree s) by tauto.
  unfold final_report. cbn zeta.
  repeat case_match; repeat (apply quiet_log; [exact Hf|]); done.
Qed.

(** with the log file in place, or not to be opened, the report changes
    which paths exist at no path *)
Lemma final_report_same_paths (s : state) (q : path) :
  log_fault (log_file s) = true ∨ is_Some (tree s !! log_file s) →
  is_Some (tree (final_report s) !! q) ↔ is_Some (tree s !! q).
Proof.
  intros [Hf|Hl].
  - by rewrite final_report_quiet.
  - split; [|apply later_dom, final_report_later].
    destruct (logs_final_report s s (logs_only_refl s)) as [_ [lines E]].
    rewrite E. clear E. revert Hl. generalize (tree s) as t. intros t Hl.
    induction lines as [|l lines IH] using rev_ind; [done|].
    rewrite logged_lines_app. simpl. intros Hq.
    apply IH. eapply append_line_present; [|exact Hq].
    by apply logged_lines_dom.
Qed.

(** a regular file stays one under lines that go to the log file *)
Lemma final_report_is_file (s : state) (d : path) :
  is_file (tree s !! d) = true → is_file (tree (final_report s) !! d) = true.
Proof.
  destruct (logs_final_report s s (logs_only_refl s)) as [_ [lines ->]].
  generalize (tree s) as t. intros t.
  induction lines as [|l lines IH] using rev_ind; [done|].
  rewrite logged_lines_app. simpl. intros Hd. specialize (IH Hd).
  destruct (decide (d = log_file s)) as [->|Hne]; [|by rewrite append_line_off].
  unfold append_line. repeat case_match; simplify_eq; try done;
    by rewrite lookup_insert_eq.
Qed.

End Rounds.

(** C3, as the code has it.  No source file sits at the relative path of the
    log file of the run, unless that file cannot be opened; the relative
    paths of the source files are pairwise different; a target root that
    does not exist holds no file; and execute, started by main, runs to its
    end.  Then for every file f of the source one of three holds: a file
    with the digest of f is under the target root after the run, or one was
    there before the run, or the round of f counted one error and changed no
    other counter (the counters of the run on the source cut after f are
    those of the run cut before f with one more error).  And the count is
    tight: the files for which neither of the first two holds, together with
    the one error that every hundredth copy counts, are at most as many as
    the error counter. *)
Theorem no_file_is_silently_lost `{Env} (timestamp : string) (source : list src_file)
    (t : gmap path node) (inp : list string) :
  let lf := ["merge_" +:+ timestamp +:+ ".log"] in
  let run := λ l, (main Execute timestamp l t inp).2 in
  (∀ f, f ∈ source → rel f ≠ lf ∨ log_fault lf = true) →
  (t !! [] = None → ∀ q g, t !! q ≠ Some (NFile g)) →
  NoDup (rel <$> source) →
  (main Execute timestamp source t inp).1 = Some true →
  (∀ l1 f l2, source = l1 ++ f :: l2 →
     presentb (md5 (data (body f))) (tree (run source)) = true
     ∨ presentb (md5 (data (body f))) t = true
     ∨ stats (run (l1 ++ [f])) = add_errors (stats (run l1)))
  ∧ Z.of_nat (length (unaccounted (tree (run source)) t source))
    + copied (stats (run source)) / 100
    ≤ errors (stats (run source)).
Proof.
  intros lf run Hnl Ht Hnd Hrun.
  destruct (main_execute_rounds timestamp source t inp Hrun)
    as (s1 & L & G & S & M & P & E).
  assert (∀ l, run l = final_report (copy_all l s1)) as Erun.
  { intros l. unfold run. by rewrite E. }
  clear E. rewrite !Erun.
  pose proof (later_log_file _ _ L) as Elf. change (log_file (init timestamp t inp)) with lf in Elf.
  assert (failures (stats s1) = 0) as F1 by (by rewrite S).
  assert (index_backed s1) as B1.
  { intros h Hh. rewrite M in Hh. by apply not_elem_of_empty in Hh. }
  assert (settled [] s1 ∨ ∃ g, tree s1 !! [] = Some (NFile g)) as [St1|[g Hroot]].
  { destruct (t !! []) as [[g|]|] eqn:Hr.
    - right. exists g. by apply (later_tree _ _ L).
    - left. destruct (log_fault (log_file s1)) eqn:Hq; [by left|].
      right. left. by apply P.
    - left. apply (settled_logs [] (init timestamp t inp) s1 G).
      right. right. intros q g Hq. by destruct (Ht eq_refl q g). }
  - (* the loop keeps its invariant *)
    assert (∀ f, f ∈ source → stable s1 (rel f)) as Hst.
    { intros f Hf. unfold stable. rewrite Elf. by apply Hnl. }
    split.
    + intros l1 f l2 ->. rewrite (Erun (l1 ++ [f])), (Erun l1), !final_report_stats.
      rewrite copy_all_snoc.
      destruct (copy_all_each l1 l2 f s1 (final_report (copy_all (l1 ++ f :: l2) s1)))
        as [Hacc|Hacc]; try done.
      * by rewrite Elf.
      * apply final_report_later.
      * apply final_report_kept.
      * right. by right.
      * left. by apply present_off_presentb.
    + rewrite final_report_stats.
      pose proof (copy_all_accounts source [] s1 (final_report (copy_all source s1)) t
                    B1 St1) as C.
      rewrite F1 in C. unfold failures in C.
      enough (Z.of_nat (length (unaccounted (tree (final_report (copy_all source s1))) t
                                  source))
              ≤ errors (stats (copy_all source s1)) - copied (stats (copy_all source s1)) / 100)
        by lia.
      rewrite <- (Z.sub_0_r (errors _ - _)). apply C.
      * by rewrite Elf.
      * intros f Hf. split; [by apply Hst | apply not_elem_of_nil].
      * done.
      * apply final_report_later.
      * apply final_report_kept.
  - (* the root is a regular file: every round ends in the handler *)
    assert (log_file s1 ≠ []) as Hlf by (by rewrite Elf).
    split.
    + intros l1 f l2 _. right. right.
      rewrite (Erun (l1 ++ [f])), (Erun l1), !final_report_stats, copy_all_snoc.
      destruct (copy_all_blocked g l1 s1 Hroot Hlf M) as (R & Mm & _).
      apply (copy_step_blocked g); [done | | done].
      by rewrite (later_log_file _ _ (copy_all_later l1 s1)).
    + rewrite final_report_stats.
      destruct (copy_all_blocked g source s1 Hroot Hlf M) as (_ & _ & F).
      rewrite F1 in F. unfold failures in F.
      pose proof (filter_length_le
                    (λ f, negb (presentb (md5 (data (body f)))
                                  (tree (final_report (copy_all source s1))))
                          && negb (presentb (md5 (data (body f))) t))%bool source) as Hle.
      unfold unaccounted. lia.
Qed.

(** ** The first file with a content, and the second *)

Section FirstCopy.

Context `{Env}.

(** where the regular file at a path off the log path comes from *)
Lemma copy_to_file_at (f : src_file) (h : string) (dest : path) (s : state)
    (q : path) (g : file) :
  q ≠ log_file s → tree (copy_to f h dest s) !! q = Some (NFile g) →
  tree s !! q = Some (NFile g) ∨ g = body f
  ∨ ∃ x, copy_fault (rel f) dest = CopyFails (Some x) ∧ g = File x true.
Proof.
  intros Hq. unfold copy_to. destruct (copy_fault (rel f) dest) as [|[x|]].
  - cbn zeta. destruct (_ =? 0);
      cbn [on_error log set_tree tree emit log_file set_stats set_md5s];
      rewrite ?write_log_off by done;
      (destruct (decide (q = dest)) as [->|Hne];
       [rewrite lookup_insert_eq; intros [= <-]; right; by left
       |rewrite lookup_insert_ne by done; by left]).
  - cbn [on_error log set_tree tree emit log_file set_stats set_md5s].
    rewrite write_log_off by done.
    destruct (decide (q = dest)) as [->|Hne].
    + rewrite lookup_insert_eq. intros [= <-]. right. right. by exists x.
    + rewrite lookup_insert_ne by done. by left.
  - cbn [on_error log set_tree tree emit log_file set_stats set_md5s].
    rewrite write_log_off by done. by left.
Qed.

Lemma copy_step_file_at (s : state) (f : src_file) (q : path) (g : file) :
  q ≠ log_file s → tree (copy_step s f) !! q = Some (NFile g) →
  tree s !! q = Some (NFile g) ∨ g = body f
  ∨ ∃ dest x, copy_fault (rel f) dest = CopyFails (Some x) ∧ g = File x true.
Proof.
  intros Hq. unfold copy_step.
  pose proof (calculate_md5_off (rel f) q (Some (NFile (body f))) s Hq) as O0.
  pose proof (calculate_md5_log_file (rel f) (Some (NFile (body f))) s) as E0.
  destruct (calculate_md5 (rel f) (Some (NFile (body f))) s) as [[h|] s0];
    cbn [fst snd] in *.
  2: { simpl. rewrite O0. by left. }
  destruct (negb _); [simpl; rewrite O0; by left|].
  case_bool_decide; [simpl; rewrite O0; by left|].
  destruct (mkdir_parents (path_parent (rel f)) (tree s0)) as [t|] eqn:Hm.
  2: { cbn [on_error log set_tree tree emit log_file set_stats set_md5s].
       rewrite write_log_off by congruence. rewrite O0. by left. }
  change (tree (set_tree t s0)) with t.
  assert (∀ g', t !! q = Some (NFile g') → tree s !! q = Some (NFile g')) as Ht.
  { intros g' Hg. rewrite <- O0. by apply (mkdir_parents_files _ _ _ _ _ Hm). }
  destruct (t !! rel f) as [n|] eqn:Hn.
  - pose proof (calculate_md5_off (rel f) q (Some n) (set_tree t s0)) as O2.
    pose proof (calculate_md5_log_file (rel f) (Some n) (set_tree t s0)) as E2.
    destruct (calculate_md5 (rel f) (Some n) (set_tree t s0)) as [m s2];
      cbn [fst snd log_file set_tree tree] in *.
    rewrite <- E0 in Hq. specialize (O2 Hq).
    case_bool_decide.
    + simpl. rewrite O2. intros Hg. left. by apply Ht.
    + destruct (unique_name_total (rel f) (tree s2)) as (k & _ & -> & _).
      intros Hg. apply copy_to_file_at in Hg as [Hg|[Hg|(x & Hx & Hg)]];
        [| by right; left | right; right; eauto | congruence].
      left. apply Ht. by rewrite <- O2.
  - intros Hg. apply copy_to_file_at in Hg as [Hg|[Hg|(x & Hx & Hg)]];
      [| by right; left | right; right; eauto | simpl; congruence].
    left. by apply Ht.
Qed.

(** where a digest of the index comes from *)
Lemma copy_to_index (f : src_file) (h : string) (dest : path) (s : state) (h0 : string) :
  h0 ∈ target_md5s (copy_to f h dest s) → h0 = h ∨ h0 ∈ target_md5s s.
Proof.
  unfold copy_to. destruct (copy_fault (rel f) dest) as [|[x|]].
  - cbn zeta. destruct (_ =? 0);
      cbn [on_error log set_tree tree emit log_file set_stats set_md5s target_md5s];
      intros Hin; apply elem_of_union in Hin as [Hin|Hin];
      [left; by apply elem_of_singleton in Hin | by right
      |left; by apply elem_of_singleton in Hin | by right].
  - intros Hin. by right.
  - intros Hin. by right.
Qed.

Lemma copy_step_index (s : state) (f : src_file) (h0 : string) :
  h0 ∈ target_md5s (copy_step s f) → h0 = md5 (data (body f)) ∨ h0 ∈ target_md5s s.
Proof.
  unfold copy_step.
  pose proof (calculate_md5_md5s (rel f) (Some (NFile (body f))) s) as M0.
  pose proof (calculate_md5_Some (rel f) (Some (NFile (body f))) s) as H0.
  destruct (calculate_md5 (rel f) (Some (NFile (body f))) s) as [[h|] s0];
    cbn [fst snd] in *.
  2: { simpl. rewrite M0. by right. }
  destruct (proj1 (H0 h) eq_refl) as (g & [= <-] & _ & <-). clear H0.
  destruct (negb _); [simpl; rewrite M0; by right|].
  case_bool_decide; [simpl; rewrite M0; by right|].
  destruct (mkdir_parents (path_parent (rel f)) (tree s0)) as [t|] eqn:Hm.
  2: { unfold on_error. rewrite log_md5s_eq. simpl. rewrite M0. by right. }
  change (tree (set_tree t s0)) with t.
  destruct (t !! rel f) as [n|] eqn:Hn.
  - pose proof (calculate_md5_md5s (rel f) (Some n) (set_tree t s0)) as M2.
    destruct (calculate_md5 (rel f) (Some n) (set_tree t s0)) as [m s2];
      cbn [fst snd] in *.
    case_bool_decide.
    + simpl. rewrite M2. simpl. rewrite M0. by right.
    + destruct (unique_name_total (rel f) (tree s2)) as (k & _ & -> & _).
      intros Hin. apply copy_to_index in Hin as [Hin|Hin]; [by left|].
      right. rewrite M2 in Hin. simpl in Hin. by rewrite M0 in Hin.
  - intros Hin. apply copy_to_index in Hin as [Hin|Hin]; [by left|].
    right. simpl in Hin. by rewrite M0 in Hin.
Qed.

(** Rounds for files with other digests bring a digest neither into the
    index nor to a path off the log path. *)
Lemma copy_all_unseen (h : string) (l : list src_file) (q : path) (s : state) :
  h ∉ target_md5s s → q ≠ log_file s →
  (∀ g, tree s !! q = Some (NFile g) → md5 (data g) ≠ h) →
  (∀ f, f ∈ l → md5 (data (body f)) ≠ h
                ∧ ∀ dest x, copy_fault (rel f) dest = CopyFails (Some x) → md5 x ≠ h) →
  (h ∉ target_md5s (copy_all l s))
  ∧ ∀ g, tree (copy_all l s) !! q = Some (NFile g) → md5 (data g) ≠ h.
Proof.
  revert s. induction l as [|f l IH]; intros s Hni Hq Hat Hl; [done|].
  destruct (Hl f) as [Hf Hx]; [by left|].
  cbn [copy_all fold_left]. fold (copy_all l (copy_step s f)). apply IH.
  - intros Hin. apply copy_step_index in Hin as [Hin|Hin]; [by apply Hf | done].
  - by rewrite (later_log_file _ _ (copy_step_later s f)).
  - intros g Hg. apply copy_step_file_at in Hg as [Hg|[->|(dest & x & Hc & ->)]];
      [by apply Hat | done | by apply (Hx dest x) | done].
  - intros f0 Hf0. apply Hl. by right.
Qed.

(** The round of a readable file whose digest is not in the index, whose
    directory can be made and at whose path no file with its digest is:
    the file is copied to a free path, its own or a numbered one. *)
Lemma copy_step_first (s : state) (f : src_file) :
  readable (body f) = true → md5 (data (body f)) ≠ "" →
  md5 (data (body f)) ∉ target_md5s s →
  (∀ g, tree s !! rel f = Some (NFile g) → md5 (data g) ≠ md5 (data (body f))) →
  is_Some (mkdir_parents (path_parent (rel f)) (tree s)) →
  ∃ dest s', copy_step s f = copy_to f (md5 (data (body f))) dest s'
             ∧ later s s' ∧ kept s s' ∧ stats s' = stats s
             ∧ tree s' !! dest = None
             ∧ (dest = rel f ∨ ∃ k, dest = renamed (rel f) k).
Proof.
  intros Hr Hne Hni Hno [t Hm].
  rewrite (copy_step_fresh s f t Hr Hne Hni Hm).
  assert (later s (set_tree t s)) as L1.
  { apply set_tree_later. intros q n. exact (mkdir_parents_keeps _ _ _ _ _ Hm). }
  assert (kept s (set_tree t s)) as K1.
  { apply set_tree_kept. intros q n. exact (mkdir_parents_keeps _ _ _ _ _ Hm). }
  destruct (t !! rel f) as [n|] eqn:Ht.
  - cbn zeta.
    pose proof (calculate_md5_later (rel f) (Some n) (set_tree t s)) as L2.
    pose proof (calculate_md5_kept (rel f) (Some n) (set_tree t s)) as K2.
    pose proof (calculate_md5_stats (rel f) (Some n) (set_tree t s)) as S2.
    rewrite bool_decide_eq_false_2.
    2: { intros E. apply calculate_md5_Some in E as (g & [= ->] & _ & E).
         apply (Hno g); [|done]. by apply (mkdir_parents_files _ _ _ _ _ Hm). }
    destruct (unique_name_total (rel f) (tree (calculate_md5 (rel f) (Some n) (set_tree t s)).2))
      as (k & _ & -> & Hfree & _).
    eexists _, _. split_and!;
      [done | by eapply later_trans | by eapply kept_trans | by rewrite S2 | done |].
    right. by exists k.
  - exists (rel f), (set_tree t s). split_and!; try done. by left.
Qed.

End FirstCopy.

(** C4: within-run dedup, for a run of execute started by main that goes to
    its end.  The source holds two readable files f1 and f2 with the same
    content, f1 before f2.  No file of the target has their digest, and
    neither has a source file processed before f1 (nor what a failing copy
    of such a file leaves behind): f1 is the first with this content.  f1 is
    not at the path of the log file of the run, its directory exists or can
    be made when its round starts, and its copy succeeds.  Then the round of
    f1 adds one to the copied counter and none to the duplicates, and puts
    the digest into the index; the file is written to a path that was free
    in the target, its own or a numbered one, and it is there with the
    content of f1 at the end of the run (unless that path is the log file,
    which the run goes on writing to).  The round of f2 adds one to the
    duplicates and changes no other counter, nor the index, nor any path of
    the target but the log file. *)
Theorem within_run_dedup `{Env} (timestamp : string) (pre mid post : list src_file)
    (f1 f2 : src_file) (t : gmap path node) (inp : list string) :
  let lf := ["merge_" +:+ timestamp +:+ ".log"] in
  let run := λ l, (main Execute timestamp l t inp).2 in
  let h := md5 (data (body f1)) in
  let source := pre ++ f1 :: mid ++ f2 :: post in
  (main Execute timestamp source t inp).1 = Some true →
  readable (body f1) = true → readable (body f2) = true →
  data (body f2) = data (body f1) → h ≠ "" →
  (∀ q g, t !! q = Some (NFile g) → md5 (data g) ≠ h) →
  (∀ f, f ∈ pre → md5 (data (body f)) ≠ h
                  ∧ ∀ dest x, copy_fault (rel f) dest = CopyFails (Some x) → md5 x ≠ h) →
  rel f1 ≠ lf →
  (∀ d, d ∈ prefixes (path_parent (rel f1)) → is_file (tree (run pre) !! d) = false) →
  (∀ dest, copy_fault (rel f1) dest = CopyOk) →
  copied (stats (run (pre ++ [f1]))) = copied (stats (run pre)) + 1
  ∧ duplicates (stats (run (pre ++ [f1]))) = duplicates (stats (run pre))
  ∧ h ∈ target_md5s (run (pre ++ [f1]))
  ∧ (∃ dest, (dest = rel f1 ∨ ∃ k, dest = renamed (rel f1) k)
             ∧ t !! dest = None
             ∧ (dest ≠ lf ∨ log_fault lf = true →
                tree (run source) !! dest = Some (NFile (body f1))))
  ∧ stats (run (pre ++ f1 :: mid ++ [f2])) = add_duplicates (stats (run (pre ++ f1 :: mid)))
  ∧ target_md5s (run (pre ++ f1 :: mid ++ [f2])) = target_md5s (run (pre ++ f1 :: mid))
  ∧ ∀ q, q ≠ lf →
         tree (run (pre ++ f1 :: mid ++ [f2])) !! q = tree (run (pre ++ f1 :: mid)) !! q.
Proof.
  intros lf run h source Hrun Hr1 Hr2 Hdata Hne Ht Hpre Hlf Hdirs Hok. subst h.
  destruct (main_execute_rounds timestamp source t inp Hrun)
    as (s1 & L & G & S & M & P & E).
  assert (∀ l, run l = final_report (copy_all l s1)) as Erun.
  { intros l. unfold run. by rewrite E. }
  clear E.
  pose proof (later_log_file _ _ L) as Elf.
  change (log_file (init timestamp t inp)) with lf in Elf.
  set (s := copy_all pre s1).
  pose proof (copy_all_later pre s1) as Lpre. fold s in Lpre.
  assert (log_file s = lf) as Elfs by (by rewrite (later_log_file _ _ Lpre)).
  (* the digest is new when the round of f1 starts *)
  destruct (copy_all_unseen (md5 (data (body f1))) pre (rel f1) s1) as [Hni Hat].
  { rewrite M. apply not_elem_of_empty. }
  { by rewrite Elf. }
  { intros g. rewrite (logs_only_off _ _ (rel f1) G) by done. apply Ht. }
  { done. }
  fold s in Hni, Hat.
  assert (is_Some (mkdir_parents (path_parent (rel f1)) (tree s))) as Hm.
  { apply mkdir_parents_free. intros d Hd.
    destruct (is_file (tree s !! d)) eqn:Hf; [|done].
    apply final_report_is_file in Hf. specialize (Hdirs d Hd).
    rewrite Erun in Hdirs. fold s in Hdirs. congruence. }
  destruct (copy_step_first s f1 Hr1 Hne Hni Hat Hm)
    as (dest & s' & Ec & L' & K' & S' & Hfree & Hshape).
  destruct (copy_to_ok f1 (md5 (data (body f1))) dest s' (Hok dest)) as (C1 & C2 & C3 & _ & _).
  assert (pre ++ f1 :: mid ++ [f2] = (pre ++ f1 :: mid) ++ [f2]) as Ea
    by (by rewrite <- app_assoc).
  assert (∀ l, copy_all (pre ++ f1 :: l) s1 = copy_all l (copy_step s f1)) as Eb.
  { intros l. by rewrite copy_all_app. }
  split_and!.
  - rewrite !Erun, !final_report_stats, copy_all_snoc. fold s.
    rewrite Ec, C1. by rewrite S'.
  - rewrite !Erun, !final_report_stats, copy_all_snoc. fold s.
    rewrite Ec, C2. by rewrite S'.
  - rewrite Erun, final_report_md5s, copy_all_snoc. fold s. by rewrite Ec.
  - exists dest. split_and!; [done | |].
    + apply (later_absent (init timestamp t inp) s'); [|done].
      eapply later_trans; [exact L|]. by eapply later_trans.
    + intros Hst. unfold source. rewrite Erun, Eb.
      set (c := copy_step s f1).
      assert (tree c !! dest = Some (NFile (body f1))) as Hc.
      { unfold c. rewrite Ec. apply copy_to_at; [done|]. unfold stable.
        by rewrite (later_log_file _ _ L'), Elfs. }
      assert (log_file c = lf) as Elc.
      { unfold c. by rewrite (later_log_file _ _ (copy_step_later s f1)). }
      set (rest := mid ++ f2 :: post).
      pose proof (later_trans _ _ _ (copy_all_later rest c)
                    (final_report_later (copy_all rest c))) as Lend.
      pose proof (kept_trans _ _ _ (copy_all_kept rest c)
                    (final_report_kept (copy_all rest c))) as Kend.
      destruct Hst as [Hd|Hq].
      * apply (later_tree _ _ Lend); [by rewrite Elc | done].
      * apply (proj2 Kend); [by rewrite Elc | done].
  - rewrite Ea, !Erun, !final_report_stats, copy_all_snoc.
    rewrite copy_step_known; [done | done | by rewrite Hdata | rewrite Hdata].
    rewrite Eb. apply (later_md5s _ _ (copy_all_later mid (copy_step s f1))). by rewrite Ec.
  - rewrite Ea, !Erun, !final_report_md5s, copy_all_snoc.
    rewrite copy_step_known; [done | done | by rewrite Hdata | rewrite Hdata].
    rewrite Eb. apply (later_md5s _ _ (copy_all_later mid (copy_step s f1))). by rewrite Ec.
  - intros q Hq. rewrite Ea, !Erun, copy_all_snoc.
    set (s2 := copy_all (pre ++ f1 :: mid) s1).
    assert (log_file s2 = lf) as El2.
    { unfold s2. by rewrite (later_log_file _ _ (copy_all_later _ s1)). }
    rewrite copy_step_known; [| done | by rewrite Hdata | rewrite Hdata].
    + rewrite !final_report_off; [done | by rewrite El2 | simpl; by rewrite El2].
    + unfold s2. rewrite Eb.
      apply (later_md5s _ _ (copy_all_later mid (copy_step s f1))). by rewrite Ec.
Qed.

(** ** A source file whose path is taken in the target *)

Section NameCollision.

Context `{Env}.

Lemma copy_all_index (l : list src_file) (s : state) (h0 : string) :
  h0 ∈ target_md5s (copy_all l s) →
  h0 ∈ target_md5s s ∨ ∃ f, f ∈ l ∧ h0 = md5 (data (body f)).
Proof.
  revert s. induction l as [|f l IH]; intros s Hin; [by left|].
  cbn [copy_all fold_left] in Hin. fold (copy_all l (copy_step s f)) in Hin.
  apply IH in Hin as [Hin|(f0 & Hf0 & ->)].
  - apply copy_step_index in Hin as [->|Hin]; [|by left].
    right. exists f. split; [by left | done].
  - right. exists f0. split; [by right | done].
Qed.

(** The round of a readable file whose digest is not in the index and at
    whose path the tree has a file with another digest: the file goes to
    the name with the least counter from 1 on that is free. *)
Lemma copy_step_collision (s : state) (f : src_file) (g : file) :
  readable (body f) = true → md5 (data (body f)) ≠ "" →
  md5 (data (body f)) ∉ target_md5s s →
  tree s !! rel f = Some (NFile g) → md5 (data g) ≠ md5 (data (body f)) →
  Forall (λ d, tree s !! d = Some NDir) (prefixes (path_parent (rel f))) →
  log_fault (log_file s) = true ∨ is_Some (tree s !! log_file s) →
  ∃ k s', (1 ≤ k)%nat
          ∧ copy_step s f = copy_to f (md5 (data (body f))) (renamed (rel f) k) s'
          ∧ later s s' ∧ kept s s' ∧ stats s' = stats s
          ∧ (∀ q, is_Some (tree s' !! q) ↔ is_Some (tree s !! q))
          ∧ tree s' !! renamed (rel f) k = None
          ∧ ∀ i, (1 ≤ i < k)%nat → is_Some (tree s' !! renamed (rel f) i).
Proof.
  intros Hr Hne Hni Hg Hdiff Hdirs Hlog.
  pose proof (mkdir_parents_id _ _ Hdirs) as Hm.
  rewrite (copy_step_fresh s f (tree s) Hr Hne Hni Hm). rewrite Hg. cbn zeta.
  assert (set_tree (tree s) s = s) as -> by (by destruct s).
  pose proof (calculate_md5_later (rel f) (Some (NFile g)) s) as L2.
  pose proof (calculate_md5_kept (rel f) (Some (NFile g)) s) as K2.
  pose proof (calculate_md5_stats (rel f) (Some (NFile g)) s) as S2.
  pose proof (λ q, calculate_md5_same_paths (rel f) q (Some (NFile g)) s Hlog) as D2.
  rewrite bool_decide_eq_false_2.
  2: { intros E. apply calculate_md5_Some in E as (g' & [= <-] & _ & E). done. }
  destruct (unique_name_total (rel f) (tree (calculate_md5 (rel f) (Some (NFile g)) s).2))
    as (k & Hk & -> & Hfree & Hbelow).
  exists k, (calculate_md5 (rel f) (Some (NFile g)) s).2. by split_and!.
Qed.

End NameCollision.

(** C5, as the code has it, for a run of execute started by main that goes
    to its end.  The target holds a regular file at the relative path of a
    source file f, in directories of the target, and that path is not the
    one of the log file of the run.  f is readable, the digest of its
    content differs from the one of the file in the target, no source file
    processed before f has the digest of f, and the copy of f succeeds.
    Then f is copied to the name with the least counter k from 1 on that is
    free when its round starts: the names with smaller counters are taken,
    the name with counter k is free before the round and holds the content
    of f at the end of the run, the file at the path of f is the one the
    target had, and the round adds one to the copied counter. *)
Theorem collision_gets_numbered_name `{Env} (timestamp : string) (pre post : list src_file)
    (f : src_file) (g : file) (t : gmap path node) (inp : list string) :
  let lf := ["merge_" +:+ timestamp +:+ ".log"] in
  let run := λ l, (main Execute timestamp l t inp).2 in
  let source := pre ++ f :: post in
  (main Execute timestamp source t inp).1 = Some true →
  t !! rel f = Some (NFile g) →
  Forall (λ d, t !! d = Some NDir) (prefixes (path_parent (rel f))) →
  rel f ≠ lf →
  readable (body f) = true → md5 (data (body f)) ≠ "" →
  md5 (data g) ≠ md5 (data (body f)) →
  (∀ f', f' ∈ pre → md5 (data (body f')) ≠ md5 (data (body f))) →
  (∀ dest, copy_fault (rel f) dest = CopyOk) →
  ∃ k, (1 ≤ k)%nat
       ∧ (∀ i, (1 ≤ i < k)%nat → is_Some (tree (run pre) !! renamed (rel f) i))
       ∧ tree (run pre) !! renamed (rel f) k = None
       ∧ tree (run source) !! renamed (rel f) k = Some (NFile (body f))
       ∧ tree (run source) !! rel f = Some (NFile g)
       ∧ copied (stats (run (pre ++ [f]))) = copied (stats (run pre)) + 1.
Proof.
  intros lf run source Hrun Hg Hdirs Hlf Hr Hne Hdiff Hpre Hok.
  destruct (main_execute_rounds timestamp source t inp Hrun)
    as (s1 & L & G & S & M & P & E).
  assert (∀ l, run l = final_report (copy_all l s1)) as Erun.
  { intros l. unfold run. by rewrite E. }
  clear E.
  pose proof (later_log_file _ _ L) as Elf.
  change (log_file (init timestamp t inp)) with lf in Elf.
  set (s := copy_all pre s1).
  pose proof (copy_all_later pre s1) as Lpre. fold s in Lpre.
  assert (log_file s = lf) as Elfs by (by rewrite (later_log_file _ _ Lpre)).
  assert (later (init timestamp t inp) s) as L0 by (by eapply later_trans).
  (* the log file is in place, or cannot be opened *)
  assert (log_fault (log_file s) = true ∨ is_Some (tree s !! log_file s)) as Hlog.
  { rewrite Elfs. destruct (log_fault lf) eqn:Hq; [by left|]. right.
    rewrite <- Elf. apply (later_log _ _ Lpre). rewrite Elf in *. apply P; [done|].
    rewrite Forall_forall in Hdirs. apply Hdirs, prefixes_root. }
  assert (Forall (λ d, tree s !! d = Some NDir) (prefixes (path_parent (rel f)))) as Hds.
  { rewrite Forall_forall in *. intros d Hd. apply copy_all_keeps_dir.
    destruct G as [_ [lines ->]]. apply logged_lines_keeps_dir. by apply Hdirs. }
  assert (md5 (data (body f)) ∉ target_md5s s) as Hni.
  { intros Hin. apply copy_all_index in Hin as [Hin|(f0 & Hf0 & E0)].
    - rewrite M in Hin. by apply not_elem_of_empty in Hin.
    - by apply (Hpre f0 Hf0). }
  assert (tree s !! rel f = Some (NFile g)) as Hgs.
  { by apply (later_tree _ _ L0). }
  destruct (copy_step_collision s f g Hr Hne Hni Hgs Hdiff Hds Hlog)
    as (k & s' & Hk & Ec & L' & K' & S' & D' & Hfree & Hbelow).
  assert (∀ q, is_Some (tree (run pre) !! q) ↔ is_Some (tree s' !! q)) as Dq.
  { intros q. rewrite Erun. fold s. by rewrite (final_report_same_paths s q Hlog), D'. }
  assert (∀ l, copy_all (pre ++ f :: l) s1 = copy_all l (copy_step s f)) as Eb.
  { intros l. by rewrite copy_all_app. }
  exists k. split_and!.
  - done.
  - intros i Hi. apply Dq. by apply Hbelow.
  - apply eq_None_not_Some. intros Hs. apply Dq in Hs. rewrite Hfree in Hs.
    by destruct Hs.
  - unfold source. rewrite Erun, Eb.
    set (c := copy_step s f).
    assert (stable s' (renamed (rel f) k)) as Hst.
    { apply free_is_stable; [|done]. rewrite (later_log_file _ _ L').
      destruct Hlog as [Hq|Hl]; [by left|]. right. by apply (later_log _ _ L'). }
    assert (tree c !! renamed (rel f) k = Some (NFile (body f))) as Hc.
    { unfold c. rewrite Ec. by apply copy_to_at. }
    assert (log_file c = lf) as Elc.
    { unfold c. by rewrite (later_log_file _ _ (copy_step_later s f)). }
    pose proof (later_trans _ _ _ (copy_all_later post c)
                  (final_report_later (copy_all post c))) as Lend.
    pose proof (kept_trans _ _ _ (copy_all_kept post c)
                  (final_report_kept (copy_all post c))) as Kend.
    destruct Hst as [Hd|Hq].
    + apply (later_tree _ _ Lend); [|done].
      by rewrite Elc, <- Elfs, <- (later_log_file _ _ L').
    + apply (proj2 Kend); [|done].
      by rewrite Elc, <- Elfs, <- (later_log_file _ _ L').
  - unfold source. rewrite Erun.
    pose proof (later_trans _ _ _ (copy_all_later (pre ++ f :: post) s1)
                  (final_report_later (copy_all (pre ++ f :: post) s1))) as Lend.
    apply (later_tree _ _ (later_trans _ _ _ L Lend)); done.
  - rewrite !Erun, !final_report_stats, copy_all_snoc. fold s.
    rewrite Ec. destruct (copy_to_ok f (md5 (data (body f))) (renamed (rel f) k) s' (Hok _))
      as (C1 & _). rewrite C1. by rewrite S'.
Qed.

(** ** Stems and suffixes *)

Lemma append_assoc (a b c : string) : (a +:+ b) +:+ c = a +:+ (b +:+ c).
Proof.
  induction a as [|x a IH]; [done|].
  rewrite !append_cons. by rewrite IH.
Qed.

Lemma append_nil_r (a : string) : a +:+ "" = a.
Proof. induction a as [|x a IH]; [done|]. rewrite append_cons. by rewrite IH. Qed.

Lemma substring_all (b : string) : substring 0 (String.length b) b = b.
Proof. induction b as [|x b IH]; [done|]. simpl. by rewrite IH. Qed.

Lemma substring_app_l (a b : string) : substring 0 (String.length a) (a +:+ b) = a.
Proof.
  induction a as [|x a IH]; [by destruct b|].
  rewrite append_cons. simpl. by rewrite IH.
Qed.

Lemma substring_app_r (a b : string) :
  substring (String.length a) (String.length b) (a +:+ b) = b.
Proof.
  induction a as [|x a IH]; [apply substring_all|].
  rewrite append_cons. simpl. apply IH.
Qed.

Lemma rfind_app_last (c : ascii) (a r : string) :
  rfind c r = None → rfind c (a +:+ String c r) = Some (String.length a).
Proof.
  intros Hr. induction a as [|x a IH].
  - change ("" +:+ String c r) with (String c r). simpl. rewrite Hr.
    by rewrite Ascii.eqb_refl.
  - rewrite append_cons. simpl. by rewrite IH.
Qed.

Lemma rfind_split (c : ascii) (s : string) (i : nat) :
  rfind c s = Some i →
  ∃ a r, s = a +:+ String c r ∧ String.length a = i ∧ rfind c r = None.
Proof.
  revert i. induction s as [|x s IH]; intros i E; [done|].
  simpl in E. destruct (rfind c s) as [j|] eqn:Ej.
  - injection E as <-. destruct (IH j eq_refl) as (a & r & -> & <- & Hr).
    exists (String x a), r. by rewrite append_cons.
  - destruct (Ascii.eqb x c) eqn:Ex; [|done].
    injection E as <-. apply Ascii.eqb_eq in Ex as ->.
    by exists "", s.
Qed.

(** What [split_ext] returns: the name as it is and no suffix, or the part
    before the last dot and the part from it on, neither of them empty
    around the dot. *)
Lemma split_ext_cases (name : string) :
  split_ext name = (name, "")
  ∨ ∃ a r, name = a +:+ String "." r ∧ a ≠ "" ∧ r ≠ "" ∧ rfind "." r = None
           ∧ split_ext name = (a, String "." r).
Proof.
  unfold split_ext. destruct (rfind "." name) as [i|] eqn:E; [|by left].
  destruct (_ && _)%bool eqn:B; [|by left]. right.
  apply andb_true_iff in B as [B1 B2].
  apply Nat.ltb_lt in B1, B2.
  destruct (rfind_split _ _ _ E) as (a & r & -> & <- & Hr).
  rewrite append_length in B2. simpl in B2.
  exists a, r. split_and!; [done | | | done |].
  - intros ->. simpl in B1. lia.
  - intros ->. simpl in B2. lia.
  - f_equal; [apply substring_app_l|].
    rewrite append_length.
    replace (String.length a + String.length (String "." r) - String.length a)%nat
      with (String.length (String "." r)) by lia.
    apply substring_app_r.
Qed.

Lemma split_ext_join (name : string) : (split_ext name).1 +:+ (split_ext name).2 = name.
Proof.
  destruct (split_ext_cases name) as [-> | (a & r & E & _ & _ & _ & ->)]; simpl.
  - apply append_nil_r.
  - done.
Qed.

Lemma split_ext_dotted (a r : string) :
  a ≠ "" → r ≠ "" → rfind "." r = None →
  split_ext (a +:+ String "." r) = (a, String "." r).
Proof.
  intros Ha Hr E. unfold split_ext. rewrite (rfind_app_last _ _ _ E).
  rewrite append_length.
  assert ((0 <? String.length a)%nat
          && (String.length a <? String.length a + String.length (String "." r) - 1)%nat
          = true)%bool as ->.
  { apply andb_true_iff. split; apply Nat.ltb_lt.
    - destruct a; [done | simpl; lia].
    - destruct r; [done | simpl; lia]. }
  f_equal; [apply substring_app_l|].
  replace (String.length a + String.length (String "." r) - String.length a)%nat
    with (String.length (String "." r)) by lia.
  apply substring_app_r.
Qed.

Lemma numbered_length (stem suffix : string) (k : nat) :
  (String.length stem + String.length suffix < String.length (numbered stem suffix k))%nat.
Proof. unfold numbered. rewrite !append_length. simpl. lia. Qed.

Lemma renamed_parent (p : path) (k : nat) : path_parent (renamed p k) = path_parent p.
Proof. unfold renamed, candidate, path_parent. apply removelast_last. Qed.

Lemma renamed_name (p : path) (k : nat) :
  path_name (renamed p k) = numbered (path_stem p) (path_suffix p) k.
Proof. unfold renamed, candidate, path_name. apply last_last. Qed.

Lemma renamed_other (p : path) (k : nat) : renamed p k ≠ p.
Proof.
  intros E. pose proof (renamed_name p k) as N. rewrite E in N.
  pose proof (numbered_length (path_stem p) (path_suffix p) k) as L.
  rewrite <- N in L. unfold path_stem, path_suffix in L.
  rewrite <- (split_ext_join (path_name p)) in L at 3.
  rewrite append_length in L. lia.
Qed.

Lemma unique_from_bound (t : gmap path node) (parent : path) (stem suffix : string)
    (fuel counter : nat) (q : path) :
  unique_from t parent stem suffix fuel counter = Some q →
  ∃ k, (counter ≤ k < counter + fuel)%nat ∧ q = candidate parent stem suffix k.
Proof.
  revert counter. induction fuel as [|fuel IH]; intros counter E; [done|].
  simpl in E. destruct (t !! candidate parent stem suffix counter).
  - destruct (IH _ E) as (k & Hk & ->). exists k. split; [lia | done].
  - injection E as <-. exists counter. split; [lia | done].
Qed.

(** X1: [_unique_name] on any path and any tree: it returns, after at most one
    round more than the tree has entries, and what it returns is not in the
    tree, is not the path it was given, and lies in the same directory; all
    the names with a smaller counter are taken. *)
Theorem unique_name_is_a_free_sibling (p : path) (t : gmap path node) :
  ∃ k : nat,
    (1 ≤ k ≤ S (size t))%nat
    ∧ _unique_name p t = Some (renamed p k)
    ∧ t !! renamed p k = None
    ∧ renamed p k ≠ p
    ∧ path_parent (renamed p k) = path_parent p
    ∧ ∀ i, (1 ≤ i < k)%nat → is_Some (t !! renamed p i).
Proof.
  destruct (unique_name_total p t) as (k & Hk & E & Hfree & Hbelow).
  exists k. split_and!; try done.
  - destruct (unique_from_bound _ _ _ _ _ _ _ E) as (k' & Hk' & E').
    apply cand_inj in E' as ->. lia.
  - apply renamed_other.
  - apply renamed_parent.
Qed.

(** X2: A path with an extension keeps it under [_unique_name]: the new name has
    the same suffix, and its stem is the old stem, an underscore and the
    counter. *)
Theorem unique_name_keeps_the_extension (p q : path) (t : gmap path node) :
  path_suffix p ≠ "" →
  _unique_name p t = Some q →
  path_suffix q = path_suffix p
  ∧ ∃ k : nat, (1 ≤ k)%nat ∧ path_stem q = path_stem p +:+ "_" +:+ decimal k.
Proof.
  intros Hs E.
  destruct (unique_from_bound _ _ _ _ _ _ _ E) as (k & Hk & ->).
  fold (renamed p k).
  unfold path_stem at 1, path_suffix at 1. rewrite renamed_name.
  unfold path_stem, path_suffix in *.
  destruct (split_ext_cases (path_name p)) as [E1 | (a & r & _ & Ha & Hr & Hno & E1)];
    rewrite E1 in *; cbn [fst snd] in *; [done|].
  unfold numbered.
  replace (a +:+ "_" +:+ decimal k +:+ String "." r)
    with ((a +:+ "_" +:+ decimal k) +:+ String "." r)
    by (by rewrite !append_assoc).
  rewrite split_ext_dotted; [| |done|done].
  - split; [done|]. exists k. split; [lia | done].
  - destruct a; [done|]. by rewrite append_cons.
Qed.

(** ** What the dry run plans *)

Section Plan.

Context `{Env}.

Lemma log_stats (tag : string) (about : path) (nums : list Z) (s : state) :
  stats (log tag about nums s) = stats s.
Proof. reflexivity. Qed.

Lemma log_md5s (tag : string) (about : path) (nums : list Z) (s : state) :
  target_md5s (log tag about nums s) = target_md5s s.
Proof. reflexivity. Qed.

Lemma analyse_file_plan (acc : plan * state) (f : src_file) :
  to_copy (analyse_file acc f).1
    = to_copy acc.1
      ++ (if (hashable f && negb (known (target_md5s acc.2) f))%bool then [entry f] else [])
  ∧ dup_list (analyse_file acc f).1
    = dup_list acc.1
      ++ (if (hashable f && known (target_md5s acc.2) f)%bool then [entry f] else [])
  ∧ target_md5s (analyse_file acc f).2 = target_md5s acc.2
  ∧ stats (analyse_file acc f).2
    = if hashable f then
        if known (target_md5s acc.2) f
        then add_duplicates (add_source_files (stats acc.2))
        else add_total_size (st_size (body f)) (add_source_files (stats acc.2))
      else stats acc.2.
Proof.
  destruct acc as [p s]. unfold analyse_file, hashable, known, entry, calculate_md5.
  cbn [fst snd]. destruct (readable (body f)); cbn [andb fst snd].
  - destruct (truthy (Some (md5 (data (body f))))); cbn [andb fst snd].
    + cbn [set_stats target_md5s stats].
      destruct (bool_decide (md5 (data (body f)) ∈ target_md5s s));
        cbn [fst snd negb to_copy dup_list];
        destruct (_ =? 0); rewrite ?log_stats, ?log_md5s, ?app_nil_r; done.
    + destruct (_ =? 0); rewrite ?log_stats, ?log_md5s, ?app_nil_r; done.
  - destruct (_ =? 0); rewrite ?log_stats, ?log_md5s, ?app_nil_r; done.
Qed.

Lemma bytes_app (l1 l2 : list (path * Z)) : bytes (l1 ++ l2) = bytes l1 + bytes l2.
Proof. induction l1 as [|e l1 IH]; simpl; [done|]. unfold bytes in *. simpl. lia. Qed.

Lemma fold_analyse_file_plan (source : list src_file) (acc : plan * state) :
  to_copy (fold_left analyse_file source acc).1
    = to_copy acc.1 ++ (entry <$> planned (target_md5s acc.2) source)
  ∧ dup_list (fold_left analyse_file source acc).1
    = dup_list acc.1 ++ (entry <$> recognised (target_md5s acc.2) source)
  ∧ target_md5s (fold_left analyse_file source acc).2 = target_md5s acc.2
  ∧ stats (fold_left analyse_file source acc).2
    = Stats (source_files (stats acc.2)
               + Z.of_nat (length (planned (target_md5s acc.2) source))
               + Z.of_nat (length (recognised (target_md5s acc.2) source)))
            (target_files (stats acc.2))
            (duplicates (stats acc.2)
               + Z.of_nat (length (recognised (target_md5s acc.2) source)))
            (copied (stats acc.2))
            (errors (stats acc.2))
            (total_size (stats acc.2)
               + bytes (entry <$> planned (target_md5s acc.2) source)).
Proof.
  revert acc. induction source as [|f source IH]; intros acc.
  - cbn [fold_left planned recognised List.filter fmap list_fmap length bytes foldr].
    rewrite !app_nil_r, !Z.add_0_r. by destruct (stats acc.2).
  - cbn [fold_left]. destruct (IH (analyse_file acc f)) as (IH1 & IH2 & IH3 & IH4).
    destruct (analyse_file_plan acc f) as (E1 & E2 & E3 & E4).
    rewrite IH1, IH2, IH3, IH4, E1, E2, E3, E4. clear IH IH1 IH2 IH3 IH4 E1 E2 E3 E4.
    unfold planned, recognised. cbn [List.filter].
    destruct (hashable f), (known (target_md5s acc.2) f);
      cbn [andb negb fmap list_fmap length bytes foldr];
      rewrite <- ?app_assoc, ?app_nil_r; split_and!; try done;
      unfold bytes;
      cbn [add_duplicates add_source_files add_total_size source_files target_files
           duplicates copied errors total_size entry snd foldr];
      f_equal; lia.
Qed.

Lemma analyse_md5s (source : list src_file) (s : state) :
  target_md5s (analyse source s).2 = target_md5s s.
Proof.
  destruct (fold_analyse_file_plan source (Plan [] [], s)) as (_ & _ & E3 & _).
  exact E3.
Qed.

Lemma analyse_stats_kept (source : list src_file) (s : state) :
  target_files (stats (analyse source s).2) = target_files (stats s)
  ∧ copied (stats (analyse source s).2) = copied (stats s)
  ∧ errors (stats (analyse source s).2) = errors (stats s).
Proof.
  destruct (fold_analyse_file_plan source (Plan [] [], s)) as (_ & _ & _ & E4).
  unfold analyse. by rewrite E4.
Qed.

End Plan.

(** X3: The plan of the dry run in closed form: a source file is planned for
    copying when its digest can be computed and is not in the index, and
    taken as already there when its digest is in the index, each file on its
    own and in the order of the walk.  The analysis adds nothing to the
    index, so a second source file of the same new content is planned as
    well. *)
Theorem analyse_plans_by_digest `{Env} (source : list src_file) (s : state) :
  to_copy (analyse source s).1 = entry <$> planned (target_md5s s) source
  ∧ dup_list (analyse source s).1 = entry <$> recognised (target_md5s s) source
  ∧ target_md5s (analyse source s).2 = target_md5s s.
Proof.
  destruct (fold_analyse_file_plan source (Plan [] [], s)) as (E1 & E2 & E3 & _).
  unfold analyse. by rewrite E1, E2, E3.
Qed.

(** X4: The counters after the analysis: every source file with a digest is
    counted once, as a duplicate or as a file to copy; the bytes to copy are
    the sizes of the planned files; the other counters are as before. *)
Theorem analyse_counters_add_up `{Env} (source : list src_file) (s : state) :
  source_files (stats (analyse source s).2)
    = source_files (stats s) + Z.of_nat (length (to_copy (analyse source s).1))
      + Z.of_nat (length (dup_list (analyse source s).1))
  ∧ duplicates (stats (analyse source s).2)
    = duplicates (stats s) + Z.of_nat (length (dup_list (analyse source s).1))
  ∧ total_size (stats (analyse source s).2)
    = total_size (stats s) + bytes (to_copy (analyse source s).1)
  ∧ target_files (stats (analyse source s).2) = target_files (stats s)
  ∧ copied (stats (analyse source s).2) = copied (stats s)
  ∧ errors (stats (analyse source s).2) = errors (stats s).
Proof.
  destruct (fold_analyse_file_plan source (Plan [] [], s)) as (E1 & E2 & _ & E4).
  unfold analyse. rewrite E1, E2, E4. cbn [fst snd to_copy dup_list app].
  rewrite !length_fmap. done.
Qed.

(** ** The walk over the target and the scan *)

Lemma elem_of_os_walk (t : gmap path node) (q : path) :
  q ∈ os_walk t ↔ t !! [] = Some NDir ∧ ∃ g, t !! q = Some (NFile g).
Proof.
  unfold os_walk. destruct (t !! []) as [[x|]|] eqn:E.
  - split; [by intros ?%elem_of_nil | by intros [? _]].
  - rewrite list_elem_of_omap. split.
    + intros ([q' n] & Hin & Hf). apply elem_of_map_to_list in Hin.
      simpl in Hf. destruct n as [g|]; [|done]. injection Hf as ->. eauto.
    + intros (_ & g & Hg). exists (q, NFile g).
      split; [by apply elem_of_map_to_list | done].
  - split; [by intros ?%elem_of_nil | by intros [? _]].
Qed.

Lemma append_line_root (lf : path) (line : string) (t : gmap path node) :
  t !! [] = Some NDir → append_line lf line t !! [] = Some NDir.
Proof.
  intros Hr. destruct (decide (lf = [])) as [->|Hne].
  - unfold append_line. change (path_parent []) with (@nil string). by rewrite Hr.
  - by rewrite append_line_off.
Qed.

Lemma append_line_no_root (lf : path) (line : string) (t : gmap path node) :
  path_parent lf = [] → t !! [] ≠ Some NDir → append_line lf line t = t.
Proof.
  intros Hp Hr. unfold append_line. rewrite Hp.
  by destruct (t !! []) as [[x|]|].
Qed.

Lemma logged_lines_no_root (lf : path) (lines : list string) (t : gmap path node) :
  path_parent lf = [] → t !! [] ≠ Some NDir → logged_lines lf lines t = t.
Proof.
  intros Hp Hr. induction lines as [|l lines IH] using rev_ind; [done|].
  rewrite logged_lines_app, IH. by apply append_line_no_root.
Qed.

Lemma os_walk_append_line (x : string) (line : string) (t : gmap path node) :
  t !! [] = Some NDir →
  length (os_walk (append_line [x] line t))
  = (length (os_walk t) + match t !! [x] with None => 1 | Some _ => 0 end)%nat.
Proof.
  intros Hr. pose proof (append_line_root [x] line t Hr) as Hr'.
  unfold os_walk. rewrite Hr, Hr'. unfold append_line.
  change (path_parent [x]) with (@nil string). rewrite Hr.
  set (F := λ pn : path * node, match pn.2 with NFile _ => Some pn.1 | NDir => None end).
  assert (∀ v l, length (omap F (([x], NFile v) :: l)) = S (length (omap F l))) as C by done.
  destruct (t !! [x]) as [[g|]|] eqn:E.
  - rewrite <- insert_delete_eq.
    pose proof (map_to_list_insert (delete [x] t) [x]
                  (NFile (File (data g +:+ line) (readable g)))
                  (lookup_delete_eq t [x])) as P1.
    pose proof (map_to_list_delete t [x] (NFile g) E) as P2.
    apply (omap_Permutation F) in P1, P2.
    apply Permutation_length in P1, P2. rewrite C in P1, P2. lia.
  - lia.
  - pose proof (map_to_list_insert t [x] (NFile (File line true)) E) as P1.
    apply (omap_Permutation F) in P1.
    apply Permutation_length in P1. rewrite C in P1. lia.
Qed.

Section Scan.

Context `{Env}.

Lemma log_tree (tag : string) (about : path) (nums : list Z) (s : state) :
  tree (log tag about nums s)
  = write_log (log_file s) (render (Logged tag about nums)) (tree s).
Proof. reflexivity. Qed.

Lemma write_log_root (lf : path) (line : string) (t : gmap path node) :
  t !! [] = Some NDir → write_log lf line t !! [] = Some NDir.
Proof.
  intros Hr. destruct (write_log_cases lf line t) as [[_ ->] | [_ ->]]; [done|].
  by apply append_line_root.
Qed.

Lemma write_log_no_root (lf : path) (line : string) (t : gmap path node) :
  path_parent lf = [] → t !! [] ≠ Some NDir → write_log lf line t = t.
Proof.
  intros Hp Hr. destruct (write_log_cases lf line t) as [[_ ->] | [_ ->]]; [done|].
  by apply append_line_no_root.
Qed.

Lemma log_log_file (tag : string) (about : path) (nums : list Z) (s : state) :
  log_file (log tag about nums s) = log_file s.
Proof. reflexivity. Qed.

Lemma log_root (tag : string) (about : path) (nums : list Z) (s : state) :
  tree s !! [] = Some NDir → tree (log tag about nums s) !! [] = Some NDir.
Proof. rewrite log_tree. apply write_log_root. Qed.

Lemma scan_file_count (acc : Z * state) (p : path) : (scan_file acc p).1 = acc.1 + 1.
Proof. reflexivity. Qed.

Lemma scan_file_stats (acc : Z * state) (p : path) :
  stats (scan_file acc p).2 = stats acc.2.
Proof.
  unfold scan_file. cbn [fst snd].
  pose proof (calculate_md5_stats p (tree acc.2 !! p) acc.2) as E.
  destruct (calculate_md5 p (tree acc.2 !! p) acc.2) as [[h|] s0]; cbn [fst snd] in *.
  - destruct (truthy (Some h)), (_ =? 0); done.
  - destruct (_ =? 0); done.
Qed.

Lemma fold_scan_file_count (l : list path) (acc : Z * state) :
  (fold_left scan_file l acc).1 = acc.1 + Z.of_nat (length l)
  ∧ stats (fold_left scan_file l acc).2 = stats acc.2.
Proof.
  revert acc. induction l as [|p l IH]; intros acc.
  - simpl. split; [lia | done].
  - cbn [fold_left length]. destruct (IH (scan_file acc p)) as [-> ->].
    rewrite scan_file_count, scan_file_stats. split; [lia | done].
Qed.

Lemma scan_target_stats (s : state) :
  stats (scan_target s)
  = set_target_files
      (Z.of_nat (length (os_walk (tree (log "Scanne Ziel" [] [] s))))) (stats s).
Proof.
  unfold scan_target, scan_files. cbn zeta. rewrite log_stats. cbn [set_stats stats].
  destruct (fold_scan_file_count (os_walk (tree (log "Scanne Ziel" [] [] s)))
              (0, log "Scanne Ziel" [] [] s)) as [-> ->].
  cbn [fst snd]. rewrite log_stats. by rewrite Z.add_0_l.
Qed.

Lemma scan_file_adds (acc : Z * state) (q : path) (g : file) :
  tree acc.2 !! q = Some (NFile g) → readable g = true → md5 (data g) ≠ "" →
  md5 (data g) ∈ target_md5s (scan_file acc q).2.
Proof.
  intros Hg Hr Hne. unfold scan_file. cbn [fst snd]. rewrite Hg.
  rewrite (calculate_md5_readable q g acc.2 Hr). cbn [fst snd].
  assert (truthy (Some (md5 (data g))) = true) as ->.
  { simpl. apply negb_true_iff. by apply String.eqb_neq. }
  destruct (_ =? 0); rewrite ?log_md5s; cbn [set_md5s target_md5s]; set_solver.
Qed.

Lemma scan_target_complete (s : state) (q : path) (g : file) :
  tree s !! [] = Some NDir → q ≠ log_file s → tree s !! q = Some (NFile g) →
  readable g = true → md5 (data g) ≠ "" →
  md5 (data g) ∈ target_md5s (scan_target s).
Proof.
  intros Hr Hq Hg Hrd Hne. unfold scan_target. cbn zeta.
  rewrite log_md5s. cbn [set_stats target_md5s].
  pose proof (log_later "Scanne Ziel" [] [] s) as L1.
  assert (q ∈ os_walk (tree (log "Scanne Ziel" [] [] s))) as Hin.
  { apply elem_of_os_walk. split; [by apply log_root|].
    exists g. by apply (later_tree _ _ L1). }
  apply list_elem_of_split in Hin as (l1 & l2 & E). rewrite E.
  rewrite scan_files_app. cbn [fold_left].
  apply (later_md5s _ _ (fold_scan_file_later l2 _)).
  apply scan_file_adds; [|done|done].
  pose proof (scan_files_later l1 (log "Scanne Ziel" [] [] s)) as L2.
  apply (later_tree _ _ L2); [done|]. by apply (later_tree _ _ L1).
Qed.

End Scan.

(** X5: The scan is complete: after [scan_target] the index holds the digest of
    every readable file that was under the target root, the log file of the
    run apart. *)
Theorem scan_indexes_every_readable_file `{Env} (s : state) (q : path) (g : file) :
  tree s !! [] = Some NDir → q ≠ log_file s → tree s !! q = Some (NFile g) →
  readable g = true → md5 (data g) ≠ "" →
  md5 (data g) ∈ target_md5s (scan_target s)
  ∧ tree (scan_target s) !! q = Some (NFile g).
Proof.
  intros Hr Hq Hg Hrd Hne. split; [by apply (scan_target_complete s q g)|].
  pose proof (scan_target_later s) as L.
  by apply (later_tree _ _ L).
Qed.

(** ** The report of the dry run *)

Lemma os_walk_no_root (t : gmap path node) : t !! [] ≠ Some NDir → os_walk t = [].
Proof. intros Hr. unfold os_walk. by destruct (t !! []) as [[x|]|]. Qed.

Section DryRunReport.

Context `{Env}.

Lemma report_space_md5s (s : state) : target_md5s (report_space s) = target_md5s s.
Proof.
  unfold report_space. cbn zeta.
  destruct (disk_usage _); [destruct (_ <? _)|]; done.
Qed.

Lemma examples_md5s (l : list (path * Z)) (s : state) :
  target_md5s (fold_left (λ s (e : path * Z), log "Beispiel" e.1 [e.2] s) l s)
  = target_md5s s.
Proof. revert s. induction l as [|e l IH]; intros s; [done|]. simpl. by rewrite IH. Qed.

Lemma log_examples_md5s (tag : string) (l : list (path * Z)) (s : state) :
  target_md5s (log_examples tag l s) = target_md5s s.
Proof.
  unfold log_examples. destruct l as [|e l]; [done|].
  destruct (_ <=? 10); [|done]. by rewrite examples_md5s.
Qed.

Lemma said_report_space (e : event) (s : state) :
  e ∈ console s → e ∈ console (report_space s).
Proof. apply later_said. apply after_report_space, later_refl. Qed.

Lemma said_log_examples (e : event) (tag : string) (l : list (path * Z)) (s : state) :
  e ∈ console s → e ∈ console (log_examples tag l s).
Proof. apply later_said. apply after_log_examples, later_refl. Qed.

Lemma dry_run_report (source : list src_file) (s : state) :
  ∃ s3,
    s3 = log "Analysiere Quelle" [] []
           (scan_target (log "====" [] [] (log "TROCKENLAUF" [] [] s)))
    ∧ stats (dry_run source s).2 = stats (analyse source s3).2
    ∧ target_md5s (dry_run source s).2 = target_md5s (analyse source s3).2
    ∧ Logged "Quelldateien" [] [source_files (stats (analyse source s3).2)]
        ∈ console (dry_run source s).2
    ∧ Logged "Zieldateien" [] [target_files (stats (analyse source s3).2)]
        ∈ console (dry_run source s).2
    ∧ Logged "Bereits vorhanden (gleicher Inhalt)" []
        [duplicates (stats (analyse source s3).2)] ∈ console (dry_run source s).2
    ∧ Logged "Zu kopieren" [] [Z.of_nat (length (to_copy (analyse source s3).1))]
        ∈ console (dry_run source s).2.
Proof.
  eexists. split; [reflexivity|].
  unfold dry_run. cbn zeta.
  set (s3 := log "Analysiere Quelle" [] [] _).
  set (r := analyse source s3). cbn [snd].
  split_and!.
  - rewrite !log_examples_stats.
    destruct (to_copy r.1); [|rewrite report_space_stats]; reflexivity.
  - rewrite !log_examples_md5s.
    destruct (to_copy r.1); [|rewrite report_space_md5s]; reflexivity.
  - do 2 apply said_log_examples.
    destruct (to_copy r.1); [|apply said_report_space];
      do 3 apply said_log; apply log_said.
  - do 2 apply said_log_examples.
    destruct (to_copy r.1); [|apply said_report_space];
      do 2 apply said_log; apply log_said.
  - do 2 apply said_log_examples.
    destruct (to_copy r.1); [|apply said_report_space];
      do 1 apply said_log; apply log_said.
  - do 2 apply said_log_examples.
    destruct (to_copy r.1) eqn:E; [|apply said_report_space]; apply log_said.
Qed.

Lemma main_dry_run (timestamp : string) (source : list src_file) (t : gmap path node)
    (inp : list string) :
  main DryRun timestamp source t inp
  = (Some true, usage_hint (dry_run source (init timestamp t inp)).2).
Proof. reflexivity. Qed.

Lemma hashable_split (i : gset string) (source : list src_file) :
  (length (planned i source) + length (recognised i source))%nat
  = length (List.filter hashable source).
Proof.
  unfold planned, recognised. induction source as [|f source IH]; [done|].
  cbn [List.filter]. destruct (hashable f), (known i f); simpl; lia.
Qed.

Lemma recognised_all (i : gset string) (source : list src_file) :
  (∀ f, f ∈ source → hashable f = true ∧ known i f = true) →
  recognised i source = source ∧ planned i source = [].
Proof.
  unfold planned, recognised. induction source as [|f source IH]; intros Hall; [done|].
  cbn [List.filter]. destruct (Hall f) as [-> ->]; [by left|]. cbn [andb negb].
  destruct IH as [-> ->]; [|done]. intros f' Hf'. apply Hall. by right.
Qed.

Lemma recognised_none (source : list src_file) : recognised ∅ source = [].
Proof.
  unfold recognised. induction source as [|f source IH]; [done|].
  cbn [List.filter]. unfold known at 1.
  rewrite bool_decide_eq_false_2 by set_solver.
  by rewrite andb_false_r.
Qed.

End DryRunReport.

(** X6: What the dry run reports adds up: every source file whose digest could be
    computed is counted as a source file, the number of files to copy it
    announces is the source files minus the duplicates, and it counts no
    copy and no error. *)
Theorem dry_run_report_adds_up `{Env} (timestamp : string) (source : list src_file)
    (t : gmap path node) (inp : list string) :
  let s' := (main DryRun timestamp source t inp).2 in
  source_files (stats s') = Z.of_nat (length (List.filter hashable source))
  ∧ Logged "Quelldateien" [] [source_files (stats s')] ∈ console s'
  ∧ Logged "Bereits vorhanden (gleicher Inhalt)" [] [duplicates (stats s')] ∈ console s'
  ∧ Logged "Zu kopieren" [] [source_files (stats s') - duplicates (stats s')] ∈ console s'
  ∧ copied (stats s') = 0
  ∧ errors (stats s') = 0.
Proof.
  rewrite main_dry_run. cbn [snd]. rewrite usage_hint_stats.
  destruct (dry_run_report source (init timestamp t inp))
    as (s3 & E3 & -> & _ & S1 & _ & S3 & S4).
  destruct (fold_analyse_file_plan source (Plan [] [], s3)) as (T1 & _ & _ & T4).
  unfold analyse in *. rewrite T1 in S4. rewrite T4 in *. clear T1 T4.
  cbn [fst snd to_copy app source_files duplicates copied errors] in *.
  rewrite length_fmap in S4.
  assert (stats s3 = set_target_files (target_files (stats s3)) (Stats 0 0 0 0 0 0)) as ES.
  { rewrite E3, log_stats, scan_target_stats. reflexivity. }
  rewrite ES in *. cbn [set_target_files source_files duplicates copied errors] in *.
  pose proof (hashable_split (target_md5s s3) source) as HS.
  split_and!; try done.
  - lia.
  - by apply said_usage_hint.
  - by apply said_usage_hint.
  - apply said_usage_hint.
    replace (0 + Z.of_nat (length (planned (target_md5s s3) source))
             + Z.of_nat (length (recognised (target_md5s s3) source))
             - (0 + Z.of_nat (length (recognised (target_md5s s3) source))))
      with (Z.of_nat (length (planned (target_md5s s3) source))) by lia.
    done.
Qed.

(** X7: The number of target files a dry run reports is the number of regular
    files under the target root, plus one when the run had to create its log
    file and could: the log file is under the root when the scan walks it.
    When the log file cannot be opened nothing is added. *)
Theorem dry_run_counts_its_own_log `{Env} (timestamp : string) (source : list src_file)
    (t : gmap path node) (inp : list string) :
  let s' := (main DryRun timestamp source t inp).2 in
  t !! [] = Some NDir →
  target_files (stats s')
  = Z.of_nat (length (os_walk t))
    + (if log_fault ["merge_" +:+ timestamp +:+ ".log"] then 0
       else match t !! ["merge_" +:+ timestamp +:+ ".log"] with None => 1 | Some _ => 0 end)
  ∧ Logged "Zieldateien" [] [target_files (stats s')] ∈ console s'.
Proof.
  intros s' Hr. subst s'. rewrite main_dry_run. cbn [snd]. rewrite usage_hint_stats.
  destruct (dry_run_report source (init timestamp t inp))
    as (s3 & E3 & -> & _ & _ & S2 & _ & _).
  split; [|by apply said_usage_hint].
  destruct (analyse_stats_kept source s3) as (-> & _).
  rewrite E3, log_stats, scan_target_stats. cbn [set_target_files target_files].
  rewrite !log_tree, !log_log_file.
  cbn [init log_file tree].
  set (lf := "merge_" +:+ timestamp +:+ ".log").
  unfold write_log. destruct (log_fault [lf]); [lia|].
  rewrite !os_walk_append_line; [|done|by apply append_line_root
                                 |by do 2 apply append_line_root].
  destruct (append_line_creates [lf] (render (Logged "TROCKENLAUF" [] [])) t Hr) as [n1 E1].
  rewrite E1.
  destruct (append_line_dom [lf] [lf] (render (Logged "====" [] [])) _ (mk_is_Some _ _ E1))
    as [n2 E2].
  rewrite E2.
  destruct (t !! [lf]); lia.
Qed.

(** X8: A dry run against a target root that does not exist (or is not a
    directory) leaves the target exactly as it was, not even a log file is
    written; it finds no target file and no duplicate. *)
Theorem dry_run_of_a_missing_target `{Env} (timestamp : string) (source : list src_file)
    (t : gmap path node) (inp : list string) :
  let s' := (main DryRun timestamp source t inp).2 in
  t !! [] ≠ Some NDir →
  tree s' = t
  ∧ target_files (stats s') = 0
  ∧ duplicates (stats s') = 0
  ∧ target_md5s s' = ∅.
Proof.
  intros s' Hr. subst s'. rewrite main_dry_run. cbn [snd]. rewrite usage_hint_stats.
  assert (∀ s, tree s = t → log_file s = ["merge_" +:+ timestamp +:+ ".log"] →
               ∀ tag, tree (log tag [] [] s) = t) as Hlog.
  { intros s Et El tag. rewrite log_tree, El, Et. by apply write_log_no_root. }
  split.
  { destruct (dry_run_logs_only source (init timestamp t inp)) as (_ & lines & E).
    cbn [usage_hint print emit tree]. rewrite E. by apply logged_lines_no_root. }
  destruct (dry_run_report source (init timestamp t inp))
    as (s3 & E3 & -> & M & _).
  change (target_md5s (usage_hint ?s)) with (target_md5s s). rewrite M.
  destruct (fold_analyse_file_plan source (Plan [] [], s3)) as (_ & _ & T3 & T4).
  unfold analyse. rewrite T3, T4.
  cbn [fst snd target_files duplicates].
  assert (target_md5s s3 = ∅ ∧ target_files (stats s3) = 0 ∧ duplicates (stats s3) = 0)
    as (-> & -> & ->).
  { rewrite E3, log_md5s, log_stats, scan_target_stats.
    unfold scan_target. cbn zeta. rewrite log_md5s. cbn [set_stats target_md5s].
    rewrite os_walk_no_root; [done|].
    pose proof (Hlog (init timestamp t inp) eq_refl eq_refl "TROCKENLAUF") as E1.
    pose proof (Hlog _ E1 eq_refl "====") as E2.
    pose proof (Hlog _ E2 eq_refl "Scanne Ziel") as E4.
    by rewrite E4. }
  rewrite recognised_none. done.
Qed.

(** X9: The dry run recognises content the target holds: when every source file
    has the content of some readable file under the target root, the dry run
    counts each of them as a duplicate and announces that nothing is to be
    copied, whatever the paths are. *)
Theorem dry_run_recognises_target_content `{Env} (timestamp : string)
    (source : list src_file) (t : gmap path node) (inp : list string) :
  let s' := (main DryRun timestamp source t inp).2 in
  t !! [] = Some NDir →
  (∀ f, f ∈ source →
        readable (body f) = true ∧ md5 (data (body f)) ≠ ""
        ∧ ∃ q g, q ≠ ["merge_" +:+ timestamp +:+ ".log"]
                 ∧ t !! q = Some (NFile g) ∧ readable g = true
                 ∧ data g = data (body f)) →
  duplicates (stats s') = Z.of_nat (length source)
  ∧ total_size (stats s') = 0
  ∧ Logged "Zu kopieren" [] [0] ∈ console s'.
Proof.
  intros s' Hr Hall. subst s'. rewrite main_dry_run. cbn [snd]. rewrite usage_hint_stats.
  destruct (dry_run_report source (init timestamp t inp))
    as (s3 & E3 & -> & _ & _ & _ & _ & S4).
  destruct (fold_analyse_file_plan source (Plan [] [], s3)) as (T1 & _ & _ & T4).
  unfold analyse in *. rewrite T1 in S4. rewrite T4. clear T1 T4.
  assert (stats s3 = set_target_files (target_files (stats s3)) (Stats 0 0 0 0 0 0)) as ES.
  { rewrite E3, log_stats, scan_target_stats. reflexivity. }
  cbn [fst snd to_copy app] in *. rewrite ES.
  cbn [set_target_files duplicates total_size] in *.
  destruct (recognised_all (target_md5s s3) source) as [-> E0].
  { intros f Hf. destruct (Hall f Hf) as (Hrd & Hne & q & g & Hq & Hg & Hgr & Ed).
    unfold hashable, known. rewrite Hrd. cbn [andb truthy]. split.
    - apply negb_true_iff. by apply String.eqb_neq.
    - apply bool_decide_eq_true_2. rewrite E3, log_md5s, <- Ed.
      apply (scan_target_complete _ q g); try done.
      + by do 2 apply log_root.
      + rewrite !log_tree. cbn [log log_file init emit set_tree].
        rewrite !write_log_off; done.
      + by rewrite Ed. }
  rewrite E0 in *. cbn [fmap list_fmap length bytes foldr] in *.
  split_and!; [lia | done | by apply said_usage_hint].
Qed.

(** X10: Neither mode removes or changes what the target holds: every entry of the
    target tree, the log file of the run apart, is the same after [main]. *)
Theorem runs_keep_what_the_target_holds `{Env} (m : mode) (timestamp : string)
    (source : list src_file) (t : gmap path node) (inp : list string)
    (q : path) (n : node) :
  q ≠ ["merge_" +:+ timestamp +:+ ".log"] →
  t !! q = Some n →
  tree (main m timestamp source t inp).2 !! q = Some n.
Proof.
  intros Hq Hn. destruct m.
  - rewrite main_dry_run. cbn [snd].
    pose proof (dry_run_later source (init timestamp t inp)) as L.
    by apply (later_tree _ _ L).
  - unfold main.
    pose proof (execute_later source (init timestamp t inp)) as L.
    by apply (later_tree _ _ L).
Qed.

(** ** The prompts of execute *)

Section Prompts.

Context `{Env}.

Lemma copy_to_stdin (f : src_file) (h : string) (dest : path) (s : state) :
  stdin (copy_to f h dest s) = stdin s.
Proof.
  unfold copy_to. destruct (copy_fault (rel f) dest); [|done].
  cbn zeta. by destruct (_ =? 0).
Qed.

Lemma copy_step_stdin (s : state) (f : src_file) : stdin (copy_step s f) = stdin s.
Proof.
  unfold copy_step.
  pose proof (calculate_md5_stdin (rel f) (Some (NFile (body f))) s) as E0.
  destruct (calculate_md5 (rel f) (Some (NFile (body f))) s) as [[h|] s0];
    cbn [fst snd] in *; [|done].
  destruct (negb (truthy (Some h))); [done|].
  destruct (bool_decide (h ∈ target_md5s s0)); [done|].
  destruct (mkdir_parents (path_parent (rel f)) (tree s0)) as [t|]; [|done].
  cbn zeta. change (tree (set_tree t s0)) with t.
  destruct (t !! rel f) as [n|]; [|by rewrite copy_to_stdin].
  pose proof (calculate_md5_stdin (rel f) (Some n) (set_tree t s0)) as E1.
  destruct (calculate_md5 (rel f) (Some n) (set_tree t s0)) as [r1 s1];
    cbn [fst snd set_tree stdin] in *.
  destruct (bool_decide (r1 = Some h)); [simpl; congruence|].
  destruct (_unique_name (rel f) (tree s1)); [rewrite copy_to_stdin|]; congruence.
Qed.

Lemma copy_all_stdin (source : list src_file) (s : state) :
  stdin (copy_all source s) = stdin s.
Proof.
  revert s. unfold copy_all. induction source as [|f source IH]; intros s; [done|].
  cbn [fold_left]. by rewrite IH, copy_step_stdin.
Qed.

Lemma final_report_stdin (s : state) : stdin (final_report s) = stdin s.
Proof. unfold final_report. by repeat case_match. Qed.

Lemma copy_step_tally (s : state) (f : src_file) :
  0 ≤ copied (stats s) →
  0 ≤ copied (stats (copy_step s f))
  ∧ copied (stats (copy_step s f)) + duplicates (stats (copy_step s f))
    + errors (stats (copy_step s f)) - copied (stats (copy_step s f)) / 100
    = copied (stats s) + duplicates (stats s) + errors (stats s)
      - copied (stats s) / 100 + 1.
Proof.
  intros H0.
  destruct (copy_step_stats s f) as [-> | [-> | [[Hm ->] | [Hm ->]]]];
    cbn [add_errors add_duplicates add_copied copied duplicates errors].
  - split; lia.
  - split; lia.
  - split; [lia|]. revert Hm. generalize (copied (stats s)) H0. intros c Hc Hm.
    Z.div_mod_to_equations. lia.
  - split; [lia|]. revert Hm. generalize (copied (stats s)) H0. intros c Hc Hm.
    Z.div_mod_to_equations. lia.
Qed.

Lemma copy_all_tally (source : list src_file) (s : state) :
  0 ≤ copied (stats s) →
  0 ≤ copied (stats (copy_all source s))
  ∧ copied (stats (copy_all source s)) + duplicates (stats (copy_all source s))
    + errors (stats (copy_all source s)) - copied (stats (copy_all source s)) / 100
    = copied (stats s) + duplicates (stats s) + errors (stats s)
      - copied (stats s) / 100 + Z.of_nat (length source).
Proof.
  revert s. unfold copy_all. induction source as [|f source IH]; intros s H0.
  - simpl. split; lia.
  - cbn [fold_left length]. destruct (copy_step_tally s f H0) as [H1 E1].
    destruct (IH _ H1) as [H2 E2]. split; [done|]. lia.
Qed.

Lemma execute_after_prompt (source : list src_file) (s : state) :
  later (print "Fortfahren? (j/n)" []
           (print "Platzbedarf" [total_size (stats s)]
              (print "Neue Dateien" [source_files (stats s) - duplicates (stats s)]
                 (print "ZIEL" []
                    (print "QUELLE" []
                       (log "====" [] [] (log "KOPIERVORGANG" [] [] s)))))))
        (execute source s).2.
Proof.
  unfold execute. cbn zeta.
  set (sp := print "Fortfahren? (j/n)" _ _).
  pose proof (input_later sp) as L1.
  destruct (input sp) as [[l|] s1]; cbn [fst snd] in *; [|done].
  destruct (negb (says_j l)); cbn [snd]; [by apply after_log|].
  pose proof (space_gate_later s1) as L2.
  destruct (space_gate s1) as [[|] s2]; cbn [fst snd] in *.
  - eapply later_trans; [exact L1|]. eapply later_trans; [exact L2|].
    eapply later_trans; [|apply final_report_later].
    apply after_copy_all, after_log, later_refl.
  - by eapply later_trans.
Qed.

End Prompts.

(** X11: Declining the prompt: when the answer to the first question is not j or
    J, [execute] returns false, says that the user cancelled, and has copied
    nothing: the tree differs by log lines only, counters and index are as
    before, and one line of input is consumed. *)
Theorem declined_run_copies_nothing `{Env} (source : list src_file) (s : state)
    (l : string) (rest : list string) :
  stdin s = l :: rest → says_j l = false →
  (execute source s).1 = Some false
  ∧ last (console (execute source s).2) = Some (Logged "Abgebrochen durch Benutzer" [] [])
  ∧ logs_only s (execute source s).2
  ∧ stats (execute source s).2 = stats s
  ∧ target_md5s (execute source s).2 = target_md5s s
  ∧ stdin (execute source s).2 = rest.
Proof.
  intros Hin Hj.
  assert ((execute source s).1 = Some false
          ∧ last (console (execute source s).2)
            = Some (Logged "Abgebrochen durch Benutzer" [] [])
          ∧ stdin (execute source s).2 = rest) as (E1 & E2 & E3).
  { unfold execute. cbn zeta. set (sp := print "Fortfahren? (j/n)" _ _).
    assert (stdin sp = l :: rest) as Hin' by exact Hin.
    rewrite (input_cons sp l rest Hin'). cbn [fst snd].
    rewrite Hj. cbn [negb fst snd]. split_and!; [done | | done].
    cbn [log emit set_tree console]. apply last_snoc. }
  destruct (execute_not_true source s) as (G & S & M); [by rewrite E1|].
  done.
Qed.

(** X12: The end of the input at the first prompt: [input()] raises, nothing
    catches it, and the run ends without a result; nothing was copied. *)
Theorem end_of_input_ends_the_run `{Env} (source : list src_file) (s : state) :
  stdin s = [] →
  (execute source s).1 = None
  ∧ logs_only s (execute source s).2
  ∧ stats (execute source s).2 = stats s
  ∧ target_md5s (execute source s).2 = target_md5s s.
Proof.
  intros Hin.
  assert ((execute source s).1 = None) as E1.
  { unfold execute. cbn zeta. unfold input at 1. cbn [print emit stdin log set_tree].
    rewrite Hin. done. }
  destruct (execute_not_true source s) as (G & S & M); [by rewrite E1|].
  done.
Qed.

(** X13: Started from [main], execute asks once only: no byte count was ever
    added up, so the space check passes against any free space, the result
    is decided by the first answer alone, and exactly one line of input is
    read. *)
Theorem execute_asks_once `{Env} (timestamp : string) (source : list src_file)
    (t : gmap path node) (l : string) (rest : list string) :
  (∀ free, free_space = Some free → 0 ≤ free) →
  (main Execute timestamp source t (l :: rest)).1 = Some (says_j l)
  ∧ stdin (main Execute timestamp source t (l :: rest)).2 = rest
  ∧ total_size (stats (main Execute timestamp source t (l :: rest)).2) = 0.
Proof.
  intros Hfree. unfold main, execute. cbn zeta.
  set (sp := print "Fortfahren? (j/n)" _ _).
  assert (stdin sp = l :: rest) as Hin by reflexivity.
  rewrite (input_cons sp l rest Hin). cbn [fst snd].
  destruct (says_j l) eqn:Hj; cbn [negb]; [|done].
  set (s1 := set_stdin rest _).
  assert (∃ s2, space_gate s1 = (true, s2) ∧ stdin s2 = rest ∧ stats s2 = stats s1)
    as (s2 & -> & E2 & S2).
  { unfold space_gate. destruct (disk_usage s1) as [free|] eqn:Ed.
    - assert (0 ≤ free) as H0.
      { apply Hfree. unfold disk_usage in Ed. by destruct (tree s1 !! []) as [[x|]|]. }
      assert ((free <? total_size (stats s1)) = false) as ->.
      { apply Z.ltb_ge. done. }
      by eexists.
    - by eexists. }
  cbn [fst snd]. rewrite final_report_stdin, copy_all_stdin, final_report_stats.
  split_and!; [done | done |].
  assert (total_size (stats (log "Beginne mit Kopieren..." [] [] s2)) = 0) as E0.
  { rewrite log_stats, S2. done. }
  revert E0. generalize (log "Beginne mit Kopieren..." [] [] s2). clear.
  unfold copy_all. induction source as [|f source IH]; intros s E0; [done|].
  cbn [fold_left]. apply IH.
  destruct (copy_step_stats s f) as [-> | [-> | [[_ ->] | [_ ->]]]]; done.
Qed.

(** X14: What the prompt of execute shows when the program is started in execute
    mode: the number of new files and the bytes needed are both 0, whatever
    the source holds, since the counters they are read from are only filled
    by a dry run of the same object. *)
Theorem execute_prompt_shows_zero `{Env} (timestamp : string) (source : list src_file)
    (t : gmap path node) (inp : list string) :
  Printed "Neue Dateien" [0] ∈ console (main Execute timestamp source t inp).2
  ∧ Printed "Platzbedarf" [0] ∈ console (main Execute timestamp source t inp).2.
Proof.
  unfold main.
  pose proof (execute_after_prompt source (init timestamp t inp)) as L.
  split; apply (later_said _ _ _ L).
  - do 2 apply said_print. apply print_said.
  - apply said_print. apply print_said.
Qed.

(** X15: The counters of the copy loop add up: after a run of execute that went
    through, every source file is counted once, as copied, as a duplicate or
    as an error, except that every hundredth copy is counted as copied and as
    an error. *)
Theorem copy_counters_add_up `{Env} (timestamp : string) (source : list src_file)
    (t : gmap path node) (inp : list string) :
  (main Execute timestamp source t inp).1 = Some true →
  copied (stats (main Execute timestamp source t inp).2)
  + duplicates (stats (main Execute timestamp source t inp).2)
  + errors (stats (main Execute timestamp source t inp).2)
  = Z.of_nat (length source)
    + copied (stats (main Execute timestamp source t inp).2) / 100.
Proof.
  unfold main. intros Hrun.
  destruct (execute_true source (init timestamp t inp) Hrun)
    as (s1 & -> & _ & _ & S1 & _).
  rewrite final_report_stats.
  destruct (copy_all_tally source s1) as [H0 E]; [by rewrite S1|].
  rewrite S1 in E. cbn [init stats copied duplicates errors] in E.
  change (0 / 100) with 0 in E. lia.
Qed.

(** ** One round of the copy loop *)



Section OneRound.

Context `{Env}.



Lemma copy_step_same_path (s : state) (f : src_file) (g : file) :
  readable (body f) = true → md5 (data (body f)) ≠ "" →
  md5 (data (body f)) ∉ target_md5s s →
  Forall (λ d, tree s !! d = Some NDir) (prefixes (path_parent (rel f))) →
  tree s !! rel f = Some (NFile g) → readable g = true → data g = data (body f) →
  copy_step s f = set_stats (add_duplicates (stats s)) s.
Proof.
  intros Hr Hne Hni Hdirs Hg Hgr Hd.
  rewrite (copy_step_fresh s f (tree s) Hr Hne Hni (mkdir_parents_id _ _ Hdirs)).
  rewrite Hg. cbn zeta.
  replace (set_tree (tree s) s) with s by by destruct s.
  rewrite (calculate_md5_readable _ _ _ Hgr). cbn [fst snd].
  rewrite Hd. by rewrite bool_decide_eq_true_2.
Qed.

Lemma copy_all_mirrored (source : list src_file) (s : state) :
  target_md5s s = ∅ →
  (∀ f, f ∈ source →
        readable (body f) = true ∧ md5 (data (body f)) ≠ ""
        ∧ (∃ g, tree s !! rel f = Some (NFile g) ∧ readable g = true
                ∧ data g = data (body f))
        ∧ Forall (λ d, tree s !! d = Some NDir) (prefixes (path_parent (rel f)))) →
  ∃ c, copy_all source s = set_stats c s
       ∧ copied c = copied (stats s)
       ∧ errors c = errors (stats s)
       ∧ duplicates c = duplicates (stats s) + Z.of_nat (length source).
Proof.
  revert s. unfold copy_all. induction source as [|f source IH]; intros s Hi Hall.
  - exists (stats s). split_and!; [by destruct s | done | done | simpl; lia].
  - cbn [fold_left].
    destruct (Hall f) as (Hr & Hne & (g & Hg & Hgr & Hd) & Hdirs); [by left|].
    rewrite (copy_step_same_path s f g); [|done|done| |done|done|done|done].
    2: { rewrite Hi. set_solver. }
    destruct (IH (set_stats (add_duplicates (stats s)) s)) as (c & -> & E1 & E2 & E3).
    { done. }
    { intros f' Hf'. apply Hall. by right. }
    exists c. cbn [set_stats stats add_duplicates copied errors duplicates length] in *.
    split_and!; [done | done | done | lia].
Qed.

End OneRound.




(** X19: A second run over a target that already holds every source file at its
    relative path: each file is found at its path with the same content and
    counted as a duplicate; nothing is copied, no error is counted, and the
    target changes by the lines of the log only. *)
Theorem rerun_on_a_mirrored_target `{Env} (timestamp : string) (source : list src_file)
    (t : gmap path node) (inp : list string) :
  (∀ f, f ∈ source →
        readable (body f) = true ∧ md5 (data (body f)) ≠ ""
        ∧ rel f ≠ ["merge_" +:+ timestamp +:+ ".log"]
        ∧ (∃ g, t !! rel f = Some (NFile g) ∧ readable g = true
                ∧ data g = data (body f))
        ∧ Forall (λ d, t !! d = Some NDir) (prefixes (path_parent (rel f)))) →
  (main Execute timestamp source t inp).1 = Some true →
  copied (stats (main Execute timestamp source t inp).2) = 0
  ∧ errors (stats (main Execute timestamp source t inp).2) = 0
  ∧ duplicates (stats (main Execute timestamp source t inp).2) = Z.of_nat (length source)
  ∧ ∀ q, q ≠ ["merge_" +:+ timestamp +:+ ".log"] →
         tree (main Execute timestamp source t inp).2 !! q = t !! q.
Proof.
  intros Hall. unfold main. intros Hrun.
  destruct (execute_true source (init timestamp t inp) Hrun)
    as (s1 & -> & _ & G1 & S1 & M1 & _).
  destruct (copy_all_mirrored source s1) as (c & -> & E1 & E2 & E3).
  { by rewrite M1. }
  { intros f Hf. destruct (Hall f Hf) as (Hr & Hne & Hnl & (g & Hg & Hgr & Hd) & Hdirs).
    destruct G1 as [_ [lines Et]]. cbn [init log_file tree] in Et.
    split_and!; [done | done | |].
    - exists g. rewrite Et, logged_lines_off by done. done.
    - eapply Forall_impl; [exact Hdirs|]. intros d Hd'. rewrite Et.
      by apply logged_lines_keeps_dir. }
  rewrite final_report_stats. rewrite S1 in *.
  cbn [set_stats stats init copied errors duplicates] in *.
  split_and!; [done | done | lia |].
  intros q Hq.
  assert (logs_only (init timestamp t inp) (final_report (set_stats c s1))) as G.
  { apply logs_final_report. by apply logs_set_stats. }
  by rewrite (logs_only_off _ _ q G).
Qed.

(** ** The log file and the console *)

Create HintDb synced discriminated.

Section LogFile.

Context `{Env}.

Lemma log_text_logged (evs : list event) (tag : string) (about : path) (nums : list Z) :
  log_text (evs ++ [Logged tag about nums])
  = log_text evs +:+ render (Logged tag about nums).
Proof.
  induction evs as [|e evs IH].
  - simpl. by rewrite append_nil_r.
  - cbn [app log_text foldr] in *. fold (log_text (evs ++ [Logged tag about nums])).
    fold (log_text evs). rewrite IH. destruct e; [by rewrite append_assoc | done].
Qed.

Lemma log_text_printed (evs : list event) (tag : string) (nums : list Z) :
  log_text (evs ++ [Printed tag nums]) = log_text evs.
Proof.
  induction evs as [|e evs IH]; [done|].
  cbn [app log_text foldr] in *. fold (log_text (evs ++ [Printed tag nums])).
  fold (log_text evs). by rewrite IH.
Qed.

Lemma synced_log (d : string) (r : bool) (s : state) (tag : string) (about : path)
    (nums : list Z) :
  synced d r s → synced d r (log tag about nums s).
Proof.
  intros (Hf & Hp & Hr & Hq). unfold synced.
  rewrite log_log_file, log_tree. unfold write_log, append_line. rewrite Hq, Hp, Hr, Hf.
  cbn [data readable log emit console set_tree].
  rewrite log_text_logged, append_assoc.
  split_and!; [apply lookup_insert_eq | done | | done].
  rewrite lookup_insert_ne; [done|]. intros E. rewrite E, Hr in Hf. done.
Qed.

Lemma synced_first_log (s : state) (tag : string) (about : path) (nums : list Z) :
  tree s !! log_file s = None → console s = [] →
  path_parent (log_file s) = [] → tree s !! [] = Some NDir →
  log_fault (log_file s) = false →
  synced "" true (log tag about nums s).
Proof.
  intros Hf Hc Hp Hr Hq. unfold synced.
  rewrite log_log_file, log_tree. unfold write_log, append_line. rewrite Hq, Hp, Hr, Hf.
  cbn [log emit console set_tree]. rewrite Hc.
  cbn [app log_text foldr]. rewrite append_nil_r.
  split_and!; [apply lookup_insert_eq | done | | done].
  rewrite lookup_insert_ne; [done|]. intros E. rewrite E, Hr in Hf. done.
Qed.

Lemma synced_print (d : string) (r : bool) (s : state) (tag : string) (nums : list Z) :
  synced d r s → synced d r (print tag nums s).
Proof.
  intros (Hf & Hp & Hr & Hq). unfold synced.
  cbn [print emit console tree log_file]. by rewrite log_text_printed.
Qed.

Lemma synced_set_stats (d : string) (r : bool) (s : state) (c : stats_t) :
  synced d r s → synced d r (set_stats c s).
Proof. done. Qed.

Lemma synced_set_md5s (d : string) (r : bool) (s : state) (i : gset string) :
  synced d r s → synced d r (set_md5s i s).
Proof. done. Qed.

Lemma synced_set_stdin (d : string) (r : bool) (s : state) (l : list string) :
  synced d r s → synced d r (set_stdin l s).
Proof. done. Qed.

Lemma synced_calculate_md5 (d : string) (r : bool) (s : state) (p : path)
    (n : option node) :
  synced d r s → synced d r (calculate_md5 p n s).2.
Proof.
  intros S. unfold calculate_md5. destruct n as [[g|]|]; [destruct (readable g)| |];
    cbn [snd]; by try apply synced_log.
Qed.

Hint Resolve synced_log synced_print synced_set_stats synced_set_md5s synced_set_stdin
  synced_calculate_md5 : synced.

Lemma synced_scan_file (d : string) (r : bool) (acc : Z * state) (p : path) :
  synced d r acc.2 → synced d r (scan_file acc p).2.
Proof.
  intros S. unfold scan_file. cbn [fst snd].
  pose proof (synced_calculate_md5 d r acc.2 p (tree acc.2 !! p) S) as S1.
  destruct (calculate_md5 p (tree acc.2 !! p) acc.2) as [[h|] s1]; cbn [fst snd] in *;
    repeat case_match; eauto with synced.
Qed.

Lemma synced_fold_scan_file (d : string) (r : bool) (l : list path) (acc : Z * state) :
  synced d r acc.2 → synced d r (fold_left scan_file l acc).2.
Proof.
  revert acc. induction l as [|p l IH]; intros acc S; [done|].
  cbn [fold_left]. by apply IH, synced_scan_file.
Qed.

Lemma synced_scan_target (d : string) (r : bool) (s : state) :
  synced d r s → synced d r (scan_target s).
Proof.
  intros S. unfold scan_target, scan_files. cbn zeta.
  apply synced_log, synced_set_stats, synced_fold_scan_file. cbn [snd].
  by apply synced_log.
Qed.

Lemma synced_analyse_file (d : string) (r : bool) (acc : plan * state) (f : src_file) :
  synced d r acc.2 → synced d r (analyse_file acc f).2.
Proof.
  intros S. unfold analyse_file. cbn [fst snd].
  pose proof (synced_calculate_md5 d r acc.2 (rel f) (Some (NFile (body f))) S) as S1.
  destruct (calculate_md5 (rel f) (Some (NFile (body f))) acc.2) as [[h|] s1];
    cbn [fst snd] in *; repeat case_match; cbn [fst snd]; eauto with synced.
Qed.

Lemma synced_analyse (d : string) (r : bool) (source : list src_file) (s : state) :
  synced d r s → synced d r (analyse source s).2.
Proof.
  unfold analyse. generalize (Plan [] []). revert s.
  induction source as [|f source IH]; intros s p S; [done|].
  cbn [fold_left].
  pose proof (synced_analyse_file d r (p, s) f S) as S1.
  destruct (analyse_file (p, s) f) as [p1 s1]. by apply IH.
Qed.

Lemma synced_report_space (d : string) (r : bool) (s : state) :
  synced d r s → synced d r (report_space s).
Proof. intros S. unfold report_space. repeat case_match; eauto 10 with synced. Qed.

Lemma synced_examples (d : string) (r : bool) (l : list (path * Z)) (s : state) :
  synced d r s →
  synced d r (fold_left (λ s (e : path * Z), log "Beispiel" e.1 [e.2] s) l s).
Proof.
  revert s. induction l as [|e l IH]; intros s S; [done|].
  cbn [fold_left]. by apply IH, synced_log.
Qed.

Lemma synced_log_examples (d : string) (r : bool) (tag : string) (l : list (path * Z))
    (s : state) :
  synced d r s → synced d r (log_examples tag l s).
Proof.
  intros S. unfold log_examples. destruct l as [|e l]; [done|].
  destruct (_ <=? 10); [|done]. by apply synced_examples, synced_log.
Qed.

Hint Resolve synced_scan_target synced_analyse synced_report_space
  synced_log_examples : synced.

Lemma synced_dry_run (d : string) (r : bool) (source : list src_file) (s : state) :
  synced d r (log "TROCKENLAUF" [] [] s) → synced d r (dry_run source s).2.
Proof.
  intros S. unfold dry_run. cbn zeta. cbn [snd].
  do 2 apply synced_log_examples.
  destruct (to_copy _); [|apply synced_report_space]; eauto 20 with synced.
Qed.

Lemma synced_on_error (d : string) (r : bool) (p : path) (s : state) :
  synced d r s → synced d r (on_error p s).
Proof. intros S. unfold on_error. eauto with synced. Qed.

Lemma synced_insert (d : string) (r : bool) (dest : path) (x : node) (s : state) :
  tree s !! dest = None → synced d r s →
  synced d r (set_tree (<[dest := x]> (tree s)) s).
Proof.
  intros Hfree (Hf & Hp & Hr & Hq). unfold synced. cbn [set_tree tree log_file console].
  rewrite !lookup_insert_ne; [done | |]; intros E; by rewrite E, ?Hr, ?Hf in Hfree.
Qed.

Lemma synced_copy_to (d : string) (r : bool) (f : src_file) (h : string) (dest : path)
    (s : state) :
  tree s !! dest = None → synced d r s → synced d r (copy_to f h dest s).
Proof.
  intros Hfree S. unfold copy_to. destruct (copy_fault (rel f) dest) as [|[x|]].
  - cbn zeta. pose proof (synced_insert d r dest (NFile (body f)) s Hfree S) as S1.
    destruct (_ =? 0); [apply synced_on_error|]; eauto with synced.
  - apply synced_on_error. by apply synced_insert.
  - apply synced_on_error. by destruct s.
Qed.

Lemma synced_mkdir (d : string) (r : bool) (dir : path) (t : gmap path node) (s : state) :
  mkdir_parents dir (tree s) = Some t → synced d r s → synced d r (set_tree t s).
Proof.
  intros Hm (Hf & Hp & Hr & Hq). unfold synced. cbn [set_tree tree log_file console].
  split_and!; [|done| |done]; by apply (mkdir_parents_keeps dir _ (tree s)).
Qed.

Lemma synced_copy_step (d : string) (r : bool) (s : state) (f : src_file) :
  synced d r s → synced d r (copy_step s f).
Proof.
  intros S. unfold copy_step.
  pose proof (synced_calculate_md5 d r s (rel f) (Some (NFile (body f))) S) as S0.
  destruct (calculate_md5 (rel f) (Some (NFile (body f))) s) as [[h|] s0];
    cbn [fst snd] in *; [|done].
  destruct (negb (truthy (Some h))); [done|].
  destruct (bool_decide (h ∈ target_md5s s0)); [done|].
  destruct (mkdir_parents (path_parent (rel f)) (tree s0)) as [t|] eqn:Hm;
    [|by apply synced_on_error].
  pose proof (synced_mkdir d r _ t s0 Hm S0) as S1.
  cbn zeta. change (tree (set_tree t s0)) with t.
  destruct (t !! rel f) as [n|] eqn:Hn; [|by apply synced_copy_to].
  pose proof (synced_calculate_md5 d r (set_tree t s0) (rel f) (Some n) S1) as S2.
  destruct (calculate_md5 (rel f) (Some n) (set_tree t s0)) as [r1 s1];
    cbn [fst snd] in *.
  destruct (bool_decide (r1 = Some h)); [done|].
  destruct (unique_name_total (rel f) (tree s1)) as (k & _ & -> & Hfree & _).
  by apply synced_copy_to.
Qed.

Lemma synced_copy_all (d : string) (r : bool) (source : list src_file) (s : state) :
  synced d r s → synced d r (copy_all source s).
Proof.
  revert s. unfold copy_all. induction source as [|f source IH]; intros s S; [done|].
  cbn [fold_left]. by apply IH, synced_copy_step.
Qed.

Lemma synced_input (d : string) (r : bool) (s : state) :
  synced d r s → synced d r (input s).2.
Proof. intros S. unfold input. by destruct (stdin s). Qed.

Lemma synced_space_gate (d : string) (r : bool) (s : state) :
  synced d r s → synced d r (space_gate s).2.
Proof.
  intros S. unfold space_gate. destruct (disk_usage s); [|by apply synced_log].
  destruct (_ <? _); [|done]. cbn zeta.
  set (sp := print "Trotzdem fortfahren? (j/n)" _ _).
  assert (synced d r sp) as Sp by (subst sp; eauto with synced).
  pose proof (synced_input d r sp Sp) as Si.
  destruct (input sp) as [[l|] si]; cbn [fst snd] in *; [|by apply synced_log].
  destruct (says_j l); [done | by apply synced_log].
Qed.

Lemma synced_final_report (d : string) (r : bool) (s : state) :
  synced d r s → synced d r (final_report s).
Proof. intros S. unfold final_report. repeat case_match; eauto 20 with synced. Qed.

Lemma synced_execute (d : string) (r : bool) (source : list src_file) (s : state) :
  synced d r (log "KOPIERVORGANG" [] [] s) → synced d r (execute source s).2.
Proof.
  intros S. unfold execute. cbn zeta.
  set (sp := print "Fortfahren? (j/n)" _ _).
  assert (synced d r sp) as Sp by (subst sp; eauto 10 with synced).
  pose proof (synced_input d r sp Sp) as Si.
  destruct (input sp) as [[l|] si]; cbn [fst snd] in *; [|done].
  destruct (negb (says_j l)); cbn [snd]; [by apply synced_log|].
  pose proof (synced_space_gate d r si Si) as Sg.
  destruct (space_gate si) as [[|] sg]; cbn [fst snd] in *; [|done].
  by apply synced_final_report, synced_copy_all, synced_log.
Qed.

End LogFile.

(** X20: The log file mirrors the console: when the target root exists and
    the log file can be opened for appending, the log file holds after a
    run, in either mode, what it held before (nothing, when the run made it)
    followed by the lines of the messages that went through [log], in the
    order of the console, and by nothing else. *)
Theorem log_file_mirrors_the_console `{Env} (m : mode) (timestamp : string)
    (source : list src_file) (t : gmap path node) (inp : list string) :
  t !! [] = Some NDir →
  t !! ["merge_" +:+ timestamp +:+ ".log"] ≠ Some NDir →
  log_fault ["merge_" +:+ timestamp +:+ ".log"] = false →
  tree (main m timestamp source t inp).2 !! ["merge_" +:+ timestamp +:+ ".log"]
  = Some (NFile (File
       (match t !! ["merge_" +:+ timestamp +:+ ".log"] with
        | Some (NFile g) => data g
        | _ => ""
        end +:+ log_text (console (main m timestamp source t inp).2))
       (match t !! ["merge_" +:+ timestamp +:+ ".log"] with
        | Some (NFile g) => readable g
        | _ => true
        end))).
Proof.
  intros Hr Hnd Hq.
  set (lf := "merge_" +:+ timestamp +:+ ".log") in *.
  set (d := match t !! [lf] with Some (NFile g) => data g | _ => "" end).
  set (r := match t !! [lf] with Some (NFile g) => readable g | _ => true end).
  assert (∀ tag, synced d r (log tag [] [] (init timestamp t inp))) as S.
  { intros tag. subst d r. destruct (t !! [lf]) as [[g|]|] eqn:E; [|done|].
    - apply synced_log. unfold synced. cbn [init tree log_file console log_text foldr].
      fold lf. rewrite append_nil_r, E. by destruct g.
    - by apply synced_first_log. }
  assert (synced d r (main m timestamp source t inp).2) as (Hf & _).
  { destruct m.
    - rewrite main_dry_run. cbn [snd]. unfold usage_hint.
      do 4 apply synced_print. apply synced_dry_run, S.
    - unfold main. apply synced_execute, S. }
  assert (log_file (main m timestamp source t inp).2 = [lf]) as El.
  { destruct m.
    - rewrite main_dry_run. cbn [snd].
      apply (later_log_file _ _ (dry_run_later source (init timestamp t inp))).
    - unfold main. apply (later_log_file _ _ (execute_later source (init timestamp t inp))). }
  by rewrite El in Hf.
Qed.

(** ** The index during a run of execute *)

Lemma append_line_root_eq (lf : path) (line : string) (t : gmap path node) :
  append_line lf line t !! [] = t !! [].
Proof.
  destruct (decide (lf = [])) as [->|Hne]; [|by rewrite append_line_off].
  unfold append_line. change (path_parent []) with (@nil string).
  by destruct (t !! []) as [[x|]|] eqn:E.
Qed.

Section Index.

Context `{Env}.

Lemma write_log_root_eq (lf : path) (line : string) (t : gmap path node) :
  write_log lf line t !! [] = t !! [].
Proof.
  destruct (write_log_cases lf line t) as [[_ ->] | [_ ->]]; [done|].
  apply append_line_root_eq.
Qed.

Lemma copy_all_known (source : list src_file) (s : state) :
  (∀ f, f ∈ source →
        readable (body f) = true ∧ md5 (data (body f)) ≠ ""
        ∧ md5 (data (body f)) ∈ target_md5s s) →
  ∃ c, copy_all source s = set_stats c s
       ∧ copied c = copied (stats s)
       ∧ errors c = errors (stats s)
       ∧ duplicates c = duplicates (stats s) + Z.of_nat (length source).
Proof.
  revert s. unfold copy_all. induction source as [|f source IH]; intros s Hall.
  - exists (stats s). split_and!; [by destruct s | done | done | simpl; lia].
  - cbn [fold_left]. destruct (Hall f) as (Hr & Hne & Hin); [by left|].
    rewrite (copy_step_known s f Hr Hne Hin).
    destruct (IH (set_stats (add_duplicates (stats s)) s)) as (c & -> & E1 & E2 & E3).
    { intros f' Hf'. apply Hall. by right. }
    exists c. cbn [set_stats stats add_duplicates copied errors duplicates length] in *.
    split_and!; [done | done | done | lia].
Qed.

Lemma dry_run_counts_kept (source : list src_file) (s : state) :
  copied (stats (dry_run source s).2) = copied (stats s)
  ∧ errors (stats (dry_run source s).2) = errors (stats s).
Proof.
  destruct (dry_run_report source s) as (s3 & E3 & -> & _).
  destruct (analyse_stats_kept source s3) as (_ & -> & ->).
  rewrite E3, log_stats, scan_target_stats. done.
Qed.

End Index.

(** X21: The index is backed by the target: after a run of execute that went
    through, every digest in the index is the digest of a file that is under
    the target root then.  A source file that was skipped because its digest
    was in the index therefore has its content in the target. *)
Theorem index_is_backed_by_the_target `{Env} (timestamp : string) (source : list src_file)
    (t : gmap path node) (inp : list string) (h : string) :
  (∀ f, f ∈ source → rel f ≠ ["merge_" +:+ timestamp +:+ ".log"]) →
  (t !! [] = Some NDir ∨ ∀ q g, t !! q ≠ Some (NFile g)) →
  NoDup (rel <$> source) →
  (main Execute timestamp source t inp).1 = Some true →
  h ∈ target_md5s (main Execute timestamp source t inp).2 →
  presentb h (tree (main Execute timestamp source t inp).2) = true.
Proof.
  intros Hnl Ht Hnd. unfold main. set (s := init timestamp t inp). intros Hrun.
  destruct (execute_true source s Hrun) as (s1 & -> & L1 & G1 & S1 & M1 & Hlog).
  rewrite final_report_md5s. intros Hh.
  assert (index_backed s1) as B1.
  { intros h' Hh'. rewrite M1 in Hh'. by apply not_elem_of_empty in Hh'. }
  assert (settled [] s1) as St1.
  { destruct Ht as [Hroot|Hnone].
    - destruct (log_fault (log_file s1)) eqn:Hq; [by left|].
      right. left. rewrite (later_log_file _ _ L1) in *. by apply Hlog.
    - apply (settled_logs [] s s1 G1). right. right.
      intros q g Hq. by destruct (Hnone q g). }
  assert (index_backed (copy_all source s1)) as B2.
  { apply (copy_all_inv source [] s1); [done | done | | | done].
    - by rewrite (later_log_file _ _ L1).
    - intros f Hf. split; [|apply not_elem_of_nil].
      left. rewrite (later_log_file _ _ L1). by apply Hnl. }
  apply present_off_presentb.
  apply (present_off_later _ (copy_all source s1));
    [apply final_report_later | apply final_report_kept |].
  by apply B2.
Qed.

(** X22: A failed space check does not stop the run: when the free space cannot
    be found out, or when it falls short and the input ends at the second
    question, [execute] says that the check failed and goes on to copy. *)
Theorem failed_space_check_goes_on `{Env} (source : list src_file) (s : state)
    (l : string) (rest : list string) :
  stdin s = l :: rest → says_j l = true →
  (disk_usage s = None
   ∨ ∃ free, disk_usage s = Some free ∧ free < total_size (stats s) ∧ rest = []) →
  (execute source s).1 = Some true
  ∧ Logged "Platzpruefung fehlgeschlagen" [] [] ∈ console (execute source s).2
  ∧ Logged "Beginne mit Kopieren..." [] [] ∈ console (execute source s).2.
Proof.
  intros Hin Hj Hcase. unfold execute. cbn zeta.
  set (sp := print "Fortfahren? (j/n)" _ _).
  assert (stdin sp = l :: rest) as Hin' by exact Hin.
  rewrite (input_cons sp l rest Hin'). cbn [fst snd]. rewrite Hj. cbn [negb].
  set (s1 := set_stdin rest sp).
  assert (disk_usage s1 = disk_usage s) as Ed.
  { unfold disk_usage. subst s1 sp.
    cbn [set_stdin print emit tree]. by rewrite !log_tree, !write_log_root_eq. }
  assert (∃ s2, space_gate s1 = (true, s2)
                ∧ Logged "Platzpruefung fehlgeschlagen" [] [] ∈ console s2)
    as (s2 & -> & Hsaid).
  { unfold space_gate. rewrite Ed.
    destruct Hcase as [-> | (free & -> & Hlt & ->)].
    - eexists. split; [done|]. apply log_said.
    - assert ((free <? total_size (stats s1)) = true) as ->.
      { apply Z.ltb_lt. done. }
      cbn zeta. unfold input. cbn [print emit stdin log set_tree set_stdin s1 fst snd].
      eexists. split; [done|]. apply log_said. }
  cbn [fst snd]. split_and!; [done | |].
  - apply (later_said (log "Beginne mit Kopieren..." [] [] s2)).
    + eapply later_trans; [apply copy_all_later | apply final_report_later].
    + by apply said_log.
  - apply (later_said (log "Beginne mit Kopieren..." [] [] s2)).
    + eapply later_trans; [apply copy_all_later | apply final_report_later].
    + apply log_said.
Qed.

(** X23: A dry run followed by execute on the same object: the index the dry run
    built is still there, so every source file whose content some readable
    file of the target has is counted as a duplicate; execute copies nothing
    and counts no error, and the target changes by log lines only. *)
Theorem execute_after_dry_run_skips_target_content `{Env} (s : state)
    (planned_source source : list src_file) :
  tree s !! [] = Some NDir →
  (∀ f, f ∈ source →
        readable (body f) = true ∧ md5 (data (body f)) ≠ ""
        ∧ ∃ q g, q ≠ log_file s ∧ tree s !! q = Some (NFile g) ∧ readable g = true
                 ∧ data g = data (body f)) →
  (execute source (dry_run planned_source s).2).1 = Some true →
  copied (stats (execute source (dry_run planned_source s).2).2) = copied (stats s)
  ∧ errors (stats (execute source (dry_run planned_source s).2).2) = errors (stats s)
  ∧ logs_only s (execute source (dry_run planned_source s).2).2.
Proof.
  intros Hr Hall Hrun.
  destruct (execute_true source _ Hrun) as (s1 & -> & L1 & G1 & S1 & M1 & _).
  destruct (dry_run_counts_kept planned_source s) as [Ec Ee].
  pose proof (dry_run_logs_only planned_source s) as G0.
  destruct (copy_all_known source s1) as (c & -> & E1 & E2 & _).
  { intros f Hf. destruct (Hall f Hf) as (Hrd & Hne & q & g & Hq & Hg & Hgr & Ed).
    split_and!; [done | done |]. rewrite M1.
    destruct (dry_run_report planned_source s) as (s3 & E3 & _ & -> & _).
    rewrite (analyse_md5s planned_source s3).
    rewrite E3, log_md5s, <- Ed.
    apply (scan_target_complete _ q g); try done.
    - by do 2 apply log_root.
    - rewrite !log_tree, !log_log_file. by rewrite !write_log_off.
    - by rewrite Ed. }
  rewrite final_report_stats. cbn [set_stats stats].
  split_and!; [congruence | congruence |].
  eapply logs_only_trans; [exact G0|].
  apply logs_final_report, logs_set_stats. done.
Qed.

(** ** What a run says about space *)

Section SpaceTalk.

Context `{Env}.

Lemma calm_log (tag : string) (about : path) (nums : list Z) (s : state) :
  about_space (Logged tag about nums) = false →
  Forall (λ e, about_space e = false) (console s) →
  Forall (λ e, about_space e = false) (console (log tag about nums s)).
Proof.
  intros Ht Hs. cbn [log set_tree emit console]. apply Forall_app. split; [done|].
  by apply Forall_singleton.
Qed.

Lemma calm_print (tag : string) (nums : list Z) (s : state) :
  about_space (Printed tag nums) = false →
  Forall (λ e, about_space e = false) (console s) →
  Forall (λ e, about_space e = false) (console (print tag nums s)).
Proof.
  intros Ht Hs. cbn [print emit console]. apply Forall_app. split; [done|].
  by apply Forall_singleton.
Qed.

Lemma calm_calculate_md5 (p : path) (n : option node) (s : state) :
  Forall (λ e, about_space e = false) (console s) →
  Forall (λ e, about_space e = false) (console (calculate_md5 p n s).2).
Proof.
  intros Hs. unfold calculate_md5. repeat case_match; cbn [snd]; try done;
    by apply calm_log.
Qed.

Lemma calm_on_error (p : path) (s : state) :
  Forall (λ e, about_space e = false) (console s) →
  Forall (λ e, about_space e = false) (console (on_error p s)).
Proof. intros Hs. unfold on_error. by apply calm_log. Qed.

Lemma calm_copy_to (f : src_file) (h : string) (dest : path) (s : state) :
  Forall (λ e, about_space e = false) (console s) →
  Forall (λ e, about_space e = false) (console (copy_to f h dest s)).
Proof.
  intros Hs. unfold copy_to. destruct (copy_fault (rel f) dest) as [|[x|]]; cbn zeta.
  - destruct (_ =? 0); [by apply calm_on_error | done].
  - by apply calm_on_error.
  - by apply calm_on_error.
Qed.

Lemma calm_copy_step (s : state) (f : src_file) :
  Forall (λ e, about_space e = false) (console s) →
  Forall (λ e, about_space e = false) (console (copy_step s f)).
Proof.
  intros Hs. unfold copy_step.
  pose proof (calm_calculate_md5 (rel f) (Some (NFile (body f))) s Hs) as C0.
  destruct (calculate_md5 (rel f) (Some (NFile (body f))) s) as [[h|] s0];
    cbn [fst snd] in *; [|done].
  destruct (negb _); [done|]. case_bool_decide; [done|].
  destruct (mkdir_parents (path_parent (rel f)) (tree s0)) as [t|];
    [|by apply calm_on_error].
  change (tree (set_tree t s0)) with t.
  destruct (t !! rel f) as [n|]; [|by apply calm_copy_to].
  pose proof (calm_calculate_md5 (rel f) (Some n) (set_tree t s0) C0) as C2.
  destruct (calculate_md5 (rel f) (Some n) (set_tree t s0)) as [m s2]; cbn [fst snd] in *.
  case_bool_decide; [done|].
  destruct (_unique_name (rel f) (tree s2)); [by apply calm_copy_to | done].
Qed.

Lemma calm_copy_all (l : list src_file) (s : state) :
  Forall (λ e, about_space e = false) (console s) →
  Forall (λ e, about_space e = false) (console (copy_all l s)).
Proof.
  revert s. induction l as [|f l IH]; intros s Hs; [done|].
  simpl. by apply IH, calm_copy_step.
Qed.

Lemma calm_final_report (s : state) :
  Forall (λ e, about_space e = false) (console s) →
  Forall (λ e, about_space e = false) (console (final_report s)).
Proof.
  intros Hs. unfold final_report. cbn zeta.
  repeat case_match; repeat (apply calm_log; [reflexivity|]); done.
Qed.

(** the second question is asked only when the planned bytes exceed the
    free space *)
Lemma space_gate_enough (s : state) :
  (∀ free, free_space = Some free → total_size (stats s) ≤ free) →
  Forall (λ e, about_space e = false) (console s) →
  (space_gate s).1 = true
  ∧ Forall (λ e, about_space e = false) (console (space_gate s).2).
Proof.
  intros Hfree Hs. unfold space_gate, disk_usage.
  destruct (tree s !! []) as [n|]; [|split; [done | by apply calm_log]].
  destruct free_space as [free|] eqn:Hf; [|split; [done | by apply calm_log]].
  specialize (Hfree free eq_refl).
  assert ((free <? total_size (stats s)) = false) as -> by (by apply Z.ltb_ge).
  done.
Qed.

(** [execute] on an object whose planned bytes do not exceed the free
    space: nothing is said about space, and the run goes on exactly when
    the answer to the one question is j *)
Lemma execute_enough (source : list src_file) (s : state) :
  (∀ free, free_space = Some free → total_size (stats s) ≤ free) →
  Forall (λ e, about_space e = false) (console s) →
  Forall (λ e, about_space e = false) (console (execute source s).2)
  ∧ (execute source s).1
    = match stdin s with [] => None | l :: _ => Some (says_j l) end.
Proof.
  intros Hfree Hs. unfold execute. cbn zeta.
  set (s0 := print "Fortfahren? (j/n)" _ _).
  assert (Forall (λ e, about_space e = false) (console s0)) as C0.
  { subst s0. repeat (apply calm_print; [reflexivity|]).
    repeat (apply calm_log; [reflexivity|]). done. }
  assert (stdin s0 = stdin s) as E0 by done.
  assert (stats s0 = stats s) as S0 by done.
  unfold input. rewrite E0. destruct (stdin s) as [|l rest]; cbn [fst snd]; [done|].
  destruct (says_j l); cbn [negb fst snd]; [|split; [by apply calm_log | done]].
  destruct (space_gate_enough (set_stdin rest s0)) as [Eg Cg]; [done | done |].
  rewrite Eg. cbn [fst snd]. split; [|done].
  by apply calm_final_report, calm_copy_all, calm_log.
Qed.

End SpaceTalk.

(** C9, as the code has it.  The target reports [free] bytes of free space.
    The bytes to copy are the sizes of the source files that the plan of
    the dry run takes as new.  When they exceed the free space, the dry run
    started by main says so, names as shortfall the bytes to copy minus the
    free bytes, and still ends with success.  A run of execute started by
    main says nothing about space, whatever the source holds: the counter
    its check compares with the free space is filled by the dry run only
    and is 0 here; the run goes on exactly when the answer to its one
    question is j. *)
Theorem shortfall_is_reported_by_the_dry_run_only `{Env} (free : Z) (timestamp : string)
    (source : list src_file) (t : gmap path node) (inp : list string) :
  let dry := main DryRun timestamp source t inp in
  let exe := main Execute timestamp source t inp in
  let need := bytes (entry <$> planned (target_md5s dry.2) source) in
  free_space = Some free → 0 ≤ free →
  (t !! [] = Some NDir → free < need →
   Logged "WARNUNG: Nicht genug Platz!" [] [] ∈ console dry.2
   ∧ Logged "Fehlend" [] [need - free] ∈ console dry.2
   ∧ dry.1 = Some true)
  ∧ (∀ e, e ∈ console exe.2 → about_space e = false)
  ∧ exe.1 = match inp with [] => None | l :: _ => Some (says_j l) end.
Proof.
  intros dry exe need Hf H0. split.
  - intros Hr Hlt. subst dry need. rewrite main_dry_run in *. cbn [fst snd] in *.
    set (s := init timestamp t inp) in *.
    assert (total_size (stats (dry_run source s).2)
            = bytes (entry <$> planned (target_md5s (usage_hint (dry_run source s).2)) source))
      as Et.
    { change (target_md5s (usage_hint ?x)) with (target_md5s x).
      destruct (dry_run_report source s) as (s3 & E3 & -> & -> & _).
      destruct (fold_analyse_file_plan source (Plan [] [], s3)) as (_ & _ & T3 & T4).
      unfold analyse. rewrite T3, T4. cbn [fst snd total_size].
      rewrite E3, log_stats, scan_target_total. cbn [log stats set_tree emit]. 
      by rewrite Z.add_0_l. }
    rewrite <- Et in *.
    destruct (dry_run_shortfall source s free Hf) as (W & F & _); try done.
    split_and!; [by apply said_usage_hint | by apply said_usage_hint | done].
  - subst exe. unfold main.
    destruct (execute_enough source (init timestamp t inp)) as [C E].
    + intros free' Hf'. cbn [init stats total_size]. congruence.
    + by apply Forall_nil.
    + split; [|exact E]. by apply Forall_forall.
Qed.

(** ** The statements at concrete inputs *)

Example split_ext_examples :
  split_ext "a.txt" = ("a", ".txt")
  ∧ split_ext "archive.tar.gz" = ("archive.tar", ".gz")
  ∧ split_ext ".bashrc" = (".bashrc", "")
  ∧ split_ext "a." = ("a.", "")
  ∧ split_ext "README" = ("README", "").
Proof. by vm_compute. Qed.

Example renamed_examples :
  renamed ["music"; "a.txt"] 1 = ["music"; "a_1.txt"]
  ∧ renamed ["a.txt"] 12 = ["a_12.txt"]
  ∧ renamed ["README"] 2 = ["README_2"].
Proof. by vm_compute. Qed.

Example unique_name_skips_taken_names :
  _unique_name ["a.txt"] (<[ ["a_1.txt"] := NDir ]> x_tree) = Some ["a_2.txt"].
Proof. by vm_compute. Qed.

Example says_j_examples :
  says_j "j" = true ∧ says_j "J" = true ∧ says_j "ja" = false ∧ says_j "" = false.
Proof. by vm_compute. Qed.

(** C1, at the input of the specification: the target holds [orig/x.bin],
    the source holds the same content at [copy/x.bin].  Execute starts its
    copy loop with an empty index, copies the file and counts no duplicate;
    the dry run, which scans the target first, counts it as a duplicate. *)
Theorem execute_copies_what_the_target_holds :
  presentb (H := demo_env None) (demo_md5 "Z") orig_tree = true
  ∧ (main (H := demo_env None) Execute "T" copy_source orig_tree ["j"]).1 = Some true
  ∧ stats (main (H := demo_env None) Execute "T" copy_source orig_tree ["j"]).2
    = Stats 0 0 0 1 0 0
  ∧ tree (main (H := demo_env None) Execute "T" copy_source orig_tree ["j"]).2
      !! ["copy"; "x.bin"] = Some (NFile (File "Z" true))
  ∧ duplicates (stats (main (H := demo_env None) DryRun "T" copy_source orig_tree []).2) = 1.
Proof. by vm_compute. Qed.

(** In general the copy loop of a run of execute starts from the empty
    index: nothing scans the target. *)
Lemma execute_starts_without_index `{Env} (timestamp : string) (source : list src_file)
    (t : gmap path node) (inp : list string) :
  (main Execute timestamp source t inp).1 = Some true →
  ∃ s1, (main Execute timestamp source t inp).2 = final_report (copy_all source s1)
        ∧ target_md5s s1 = ∅.
Proof.
  unfold main. intros Hrun.
  destruct (execute_true source (init timestamp t inp) Hrun) as (s1 & E & _ & _ & _ & M & _).
  exists s1. split; [exact E | exact M].
Qed.

(** C2, at two inputs: a second run of execute copies again.  With two
    source files of the same content the first run copies one of them and
    the second run copies the other; with a name collision the first run
    writes [a_1.txt] and the second run writes [a_2.txt]. *)
Theorem second_run_copies_again :
  (twins_first_run.1 = Some true
   ∧ stats twins_first_run.2 = Stats 0 0 1 1 0 0
   ∧ twins_second_run.1 = Some true
   ∧ stats twins_second_run.2 = Stats 0 0 1 1 0 0
   ∧ tree twins_first_run.2 !! ["b.mp3"] = None
   ∧ tree twins_second_run.2 !! ["b.mp3"] = Some (NFile (File "Z" true)))
  ∧ (y_first_run.1 = Some true
     ∧ stats y_first_run.2 = Stats 0 0 0 1 0 0
     ∧ y_second_run.1 = Some true
     ∧ stats y_second_run.2 = Stats 0 0 0 1 0 0
     ∧ tree y_first_run.2 !! ["a_2.txt"] = None
     ∧ tree y_second_run.2 !! ["a_2.txt"] = Some (NFile (File "Y" true))).
Proof. by vm_compute. Qed.

(** A source file named like the log file of the run, copied into a target
    that does not exist yet: the final report is appended to the copy, no
    file under the target has the content, and no error is counted. *)
Lemma log_lines_spoil_a_copy :
  (main (H := demo_env None) Execute "T" log_named_source ∅ ["j"]).1 = Some true
  ∧ unaccounted (H := demo_env None)
      (tree (main (H := demo_env None) Execute "T" log_named_source ∅ ["j"]).2) ∅
      log_named_source = log_named_source
  ∧ errors (stats (main (H := demo_env None) Execute "T" log_named_source ∅ ["j"]).2) = 0.
Proof. by vm_compute. Qed.

Lemma no_file_is_silently_lost_witness :
  NoDup (rel <$> twins)
  ∧ (main (H := demo_env None) Execute "T" twins empty_dir ["j"]).1 = Some true
  ∧ (presentb (H := demo_env None) (md5 (Env := demo_env None) "Z")
       (tree (main (H := demo_env None) Execute "T" twins empty_dir ["j"]).2) = true
     ∨ presentb (H := demo_env None) (md5 (Env := demo_env None) "Z") empty_dir = true
     ∨ stats (main (H := demo_env None) Execute "T"
                ([] ++ [Src ["a.mp3"] (File "Z" true)]) empty_dir ["j"]).2
       = add_errors (stats (main (H := demo_env None) Execute "T" [] empty_dir ["j"]).2))
  ∧ Z.of_nat (length (unaccounted (H := demo_env None)
        (tree (main (H := demo_env None) Execute "T" twins empty_dir ["j"]).2)
        empty_dir twins))
    + copied (stats (main (H := demo_env None) Execute "T" twins empty_dir ["j"]).2) / 100
    ≤ errors (stats (main (H := demo_env None) Execute "T" twins empty_dir ["j"]).2).
Proof.
  assert (NoDup (rel <$> twins)) as Hnd.
  { apply (bool_decide_unpack (NoDup (rel <$> twins))). by vm_compute. }
  assert ((main (H := demo_env None) Execute "T" twins empty_dir ["j"]).1 = Some true)
    as Hrun by (by vm_compute).
  split; [exact Hnd|]. split; [exact Hrun|].
  destruct (no_file_is_silently_lost (H := demo_env None) "T" twins empty_dir ["j"])
    as [Each Count].
  - intros f Hf. left. apply list_elem_of_In in Hf. simpl in Hf.
    destruct Hf as [<- | [<- | []]]; by vm_compute.
  - intros Hr. by vm_compute in Hr.
  - exact Hnd.
  - exact Hrun.
  - split; [|exact Count].
    exact (Each [] (Src ["a.mp3"] (File "Z" true)) [Src ["b.mp3"] (File "Z" true)] eq_refl).
Defined.

(** Two runs in which a source file meets another content at its path in
    the target and the claim fails.  In the first the path is the one of the
    log file of the run: the numbered copy is made, but the file in the
    target is not what it was.  In the second the content was copied
    earlier in the run, from [b.txt]: the file is counted as a duplicate by
    the index and no numbered copy is made. *)
Lemma colliding_file_changed_or_skipped :
  (log_named_tree !! ["merge_T.log"] = Some (NFile (File "X" true))
   ∧ (main (H := demo_env None) Execute "T" log_named_source log_named_tree ["j"]).1
     = Some true
   ∧ tree (main (H := demo_env None) Execute "T" log_named_source log_named_tree ["j"]).2
       !! ["merge_T_1.log"] = Some (NFile (File "Y" true))
   ∧ tree (main (H := demo_env None) Execute "T" log_named_source log_named_tree ["j"]).2
       !! ["merge_T.log"] ≠ Some (NFile (File "X" true)))
  ∧ (x_tree !! ["a.txt"] = Some (NFile (File "X" true))
     ∧ (main (H := demo_env None) Execute "T" y_twice_source x_tree ["j"]).1 = Some true
     ∧ stats (main (H := demo_env None) Execute "T" y_twice_source x_tree ["j"]).2
       = Stats 0 0 1 1 0 0
     ∧ tree (main (H := demo_env None) Execute "T" y_twice_source x_tree ["j"]).2
         !! ["a.txt"] = Some (NFile (File "X" true))
     ∧ tree (main (H := demo_env None) Execute "T" y_twice_source x_tree ["j"]).2
         !! ["a_1.txt"] = None).
Proof. by vm_compute. Qed.

(** the example of the specification: [a.txt] stays, [a_1.txt] arrives *)
Example collision_a_txt :
  tree y_first_run.2 !! ["a.txt"] = Some (NFile (File "X" true))
  ∧ tree y_first_run.2 !! ["a_1.txt"] = Some (NFile (File "Y" true)).
Proof. by vm_compute. Qed.

Lemma collision_gets_numbered_name_witness :
  (main (H := demo_env None) Execute "T" ([] ++ Src ["a.txt"] (File "Y" true) :: [])
     x_tree ["j"]).1 = Some true
  ∧ x_tree !! ["a.txt"] = Some (NFile (File "X" true))
  ∧ ∃ k : nat,
      (1 ≤ k)%nat
      ∧ (∀ i, (1 ≤ i < k)%nat →
              is_Some (tree (main (H := demo_env None) Execute "T" [] x_tree ["j"]).2
                         !! renamed ["a.txt"] i))
      ∧ tree (main (H := demo_env None) Execute "T" [] x_tree ["j"]).2
          !! renamed ["a.txt"] k = None
      ∧ tree (main (H := demo_env None) Execute "T"
                ([] ++ Src ["a.txt"] (File "Y" true) :: []) x_tree ["j"]).2
          !! renamed ["a.txt"] k = Some (NFile (File "Y" true))
      ∧ tree (main (H := demo_env None) Execute "T"
                ([] ++ Src ["a.txt"] (File "Y" true) :: []) x_tree ["j"]).2
          !! ["a.txt"] = Some (NFile (File "X" true))
      ∧ copied (stats (main (H := demo_env None) Execute "T"
                         ([] ++ [Src ["a.txt"] (File "Y" true)]) x_tree ["j"]).2)
        = copied (stats (main (H := demo_env None) Execute "T" [] x_tree ["j"]).2) + 1.
Proof.
  assert ((main (H := demo_env None) Execute "T" ([] ++ Src ["a.txt"] (File "Y" true) :: [])
             x_tree ["j"]).1 = Some true) as Hrun by (by vm_compute).
  assert (x_tree !! ["a.txt"] = Some (NFile (File "X" true))) as Hg by (by vm_compute).
  split; [exact Hrun|]. split; [exact Hg|].
  apply (collision_gets_numbered_name (H := demo_env None) "T" []
           [] (Src ["a.txt"] (File "Y" true)) (File "X" true) x_tree ["j"]).
  - exact Hrun.
  - exact Hg.
  - repeat constructor.
  - by vm_compute.
  - reflexivity.
  - by vm_compute.
  - by vm_compute.
  - intros f' Hf'. by apply elem_of_nil in Hf'.
  - intros dest. reflexivity.
Defined.

Lemma within_run_dedup_witness :
  (main (H := demo_env None) Execute "T"
     ([] ++ Src ["a.mp3"] (File "Z" true) :: [] ++ Src ["b.mp3"] (File "Z" true) :: [])
     empty_dir ["j"]).1 = Some true
  ∧ copied (stats (main (H := demo_env None) Execute "T"
                     ([] ++ [Src ["a.mp3"] (File "Z" true)]) empty_dir ["j"]).2)
    = copied (stats (main (H := demo_env None) Execute "T" [] empty_dir ["j"]).2) + 1
  ∧ stats (main (H := demo_env None) Execute "T"
             ([] ++ Src ["a.mp3"] (File "Z" true) :: [] ++ [Src ["b.mp3"] (File "Z" true)])
             empty_dir ["j"]).2
    = add_duplicates
        (stats (main (H := demo_env None) Execute "T"
                  ([] ++ Src ["a.mp3"] (File "Z" true) :: []) empty_dir ["j"]).2).
Proof.
  assert ((main (H := demo_env None) Execute "T"
             ([] ++ Src ["a.mp3"] (File "Z" true) :: [] ++ Src ["b.mp3"] (File "Z" true) :: [])
             empty_dir ["j"]).1 = Some true) as Hrun by (by vm_compute).
  split; [exact Hrun|].
  destruct (within_run_dedup (H := demo_env None) "T" [] [] []
              (Src ["a.mp3"] (File "Z" true)) (Src ["b.mp3"] (File "Z" true))
              empty_dir ["j"])
    as (C1 & _ & _ & _ & C5 & _).
  - exact Hrun.
  - reflexivity.
  - reflexivity.
  - reflexivity.
  - by vm_compute.
  - intros q g Hq. unfold empty_dir in Hq. apply lookup_singleton_Some in Hq as [_ [=]].
  - intros f Hf. by apply elem_of_nil in Hf.
  - by vm_compute.
  - intros d Hd. apply list_elem_of_In in Hd. simpl in Hd.
    destruct Hd as [<- | []]. by vm_compute.
  - intros dest. reflexivity.
  - split; [exact C1 | exact C5].
Defined.

Lemma hundredth_copy_witness :
  100 ≤ copied (stats (main (H := demo_env None) Execute "T" hundred_files empty_dir ["j"]).2)
  ∧ 1 ≤ errors (stats (main (H := demo_env None) Execute "T" hundred_files empty_dir ["j"]).2).
Proof.
  split; [by vm_compute|].
  apply (proj2 (hundredth_copy_counts_as_error (H := demo_env None))). by vm_compute.
Defined.

Lemma unreadable_file_witness :
  readable (body locked_file) = false
  ∧ errors (stats (copy_step (H := demo_env None) (init "T" empty_dir []) locked_file)) = 1
  ∧ errors (stats (analyse_file (H := demo_env None)
                     (Plan [] [], init "T" empty_dir []) locked_file).2) = 0.
Proof.
  destruct (unreadable_file_is_skipped (H := demo_env None) locked_file eq_refl)
    as (_ & Hc & Ha).
  destruct (Hc (init "T" empty_dir [])) as (-> & _).
  destruct (Ha (Plan [] []) (init "T" empty_dir [])) as (_ & -> & _). done.
Defined.

(** The dry run over a source with one unreadable file ends with an error
    counter of zero. *)
Lemma dry_run_counts_no_error :
  readable (body locked_file) = false
  ∧ errors (stats (init "T" empty_dir [])) = 0
  ∧ errors (stats (main (H := demo_env None) DryRun "T" [locked_file] empty_dir []).2) = 0.
Proof. by vm_compute. Qed.



(** ten bytes to copy and five bytes free: the dry run names a shortfall of
    five bytes, execute says nothing *)
Lemma shortfall_witness :
  bytes (entry
         <$> planned (H := demo_env (Some 5))
               (target_md5s (main (H := demo_env (Some 5)) DryRun "T" [ten_bytes]
                               empty_dir ["j"]).2) [ten_bytes]) = 10
  ∧ (Logged "WARNUNG: Nicht genug Platz!" [] []
       ∈ console (main (H := demo_env (Some 5)) DryRun "T" [ten_bytes] empty_dir ["j"]).2
     ∧ Logged "Fehlend" []
         [bytes (entry
                 <$> planned (H := demo_env (Some 5))
                       (target_md5s (main (H := demo_env (Some 5)) DryRun "T" [ten_bytes]
                                       empty_dir ["j"]).2) [ten_bytes]) - 5]
         ∈ console (main (H := demo_env (Some 5)) DryRun "T" [ten_bytes] empty_dir ["j"]).2
     ∧ (main (H := demo_env (Some 5)) DryRun "T" [ten_bytes] empty_dir ["j"]).1 = Some true)
  ∧ (∀ e, e ∈ console (main (H := demo_env (Some 5)) Execute "T" [ten_bytes]
                          empty_dir ["j"]).2 → about_space e = false)
  ∧ (main (H := demo_env (Some 5)) Execute "T" [ten_bytes] empty_dir ["j"]).1
    = Some (says_j "j").
Proof.
  assert (bytes (entry
                 <$> planned (H := demo_env (Some 5))
                       (target_md5s (main (H := demo_env (Some 5)) DryRun "T" [ten_bytes]
                                       empty_dir ["j"]).2) [ten_bytes]) = 10) as Hneed
    by (by vm_compute).
  split; [exact Hneed|].
  destruct (shortfall_is_reported_by_the_dry_run_only (H := demo_env (Some 5)) 5 "T"
              [ten_bytes] empty_dir ["j"]) as (Dry & Calm & Res).
  - reflexivity.
  - lia.
  - split; [|split; [exact Calm | exact Res]].
    apply Dry; [reflexivity|]. rewrite Hneed. lia.
Defined.

(** ** Further statements at concrete inputs *)

Lemma unique_name_keeps_the_extension_witness :
  path_suffix ["a.txt"] ≠ ""
  ∧ _unique_name ["a.txt"] x_tree = Some ["a_1.txt"]
  ∧ path_suffix ["a_1.txt"] = path_suffix ["a.txt"]
  ∧ ∃ k : nat, (1 ≤ k)%nat ∧ path_stem ["a_1.txt"] = path_stem ["a.txt"] +:+ "_" +:+ decimal k.
Proof.
  assert (path_suffix ["a.txt"] ≠ "") as H1 by by vm_compute.
  assert (_unique_name ["a.txt"] x_tree = Some ["a_1.txt"]) as H2 by by vm_compute.
  split; [exact H1|]. split; [exact H2|].
  exact (unique_name_keeps_the_extension ["a.txt"] ["a_1.txt"] x_tree H1 H2).
Defined.

Lemma scan_indexes_every_readable_file_witness :
  tree (init "T" orig_tree []) !! ["orig"; "x.bin"] = Some (NFile (File "Z" true))
  ∧ demo_md5 "Z" ∈ target_md5s (scan_target (H := demo_env None) (init "T" orig_tree [])).
Proof.
  assert (tree (init "T" orig_tree []) !! ["orig"; "x.bin"] = Some (NFile (File "Z" true)))
    as Hg by by vm_compute.
  split; [exact Hg|].
  refine (proj1 (scan_indexes_every_readable_file (H := demo_env None)
                   (init "T" orig_tree []) ["orig"; "x.bin"] (File "Z" true)
                   _ _ Hg eq_refl _)); by vm_compute.
Defined.

Lemma dry_run_counts_its_own_log_witness :
  orig_tree !! [] = Some NDir
  ∧ length (os_walk orig_tree) = 1%nat
  ∧ target_files (stats (main (H := demo_env None) DryRun "T" copy_source orig_tree []).2) = 2.
Proof.
  assert (orig_tree !! [] = Some NDir) as Hr by by vm_compute.
  split; [exact Hr|]. split; [by vm_compute|].
  destruct (dry_run_counts_its_own_log (H := demo_env None) "T" copy_source orig_tree [] Hr)
    as [E _].
  rewrite E. by vm_compute.
Defined.

Lemma dry_run_of_a_missing_target_witness :
  (∅ : gmap path node) !! [] ≠ Some NDir
  ∧ tree (main (H := demo_env None) DryRun "T" twins ∅ []).2 = ∅
  ∧ target_files (stats (main (H := demo_env None) DryRun "T" twins ∅ []).2) = 0.
Proof.
  assert ((∅ : gmap path node) !! [] ≠ Some NDir) as Hr by by rewrite lookup_empty.
  split; [exact Hr|].
  destruct (dry_run_of_a_missing_target (H := demo_env None) "T" twins ∅ [] Hr)
    as (E1 & E2 & _).
  split; [exact E1 | exact E2].
Defined.

Lemma dry_run_recognises_target_content_witness :
  orig_tree !! ["orig"; "x.bin"] = Some (NFile (File "Z" true))
  ∧ duplicates (stats (main (H := demo_env None) DryRun "T" copy_source orig_tree []).2) = 1
  ∧ Logged "Zu kopieren" [] [0]
      ∈ console (main (H := demo_env None) DryRun "T" copy_source orig_tree []).2.
Proof.
  assert (orig_tree !! ["orig"; "x.bin"] = Some (NFile (File "Z" true))) as Hg
    by by vm_compute.
  split; [exact Hg|].
  destruct (dry_run_recognises_target_content (H := demo_env None) "T" copy_source
              orig_tree []) as (E1 & _ & E3).
  - by vm_compute.
  - intros f Hf. apply list_elem_of_singleton in Hf as ->.
    split_and!; [done | by vm_compute |].
    exists ["orig"; "x.bin"], (File "Z" true). split_and!; [by vm_compute | exact Hg | done | done].
  - split; [exact E1 | exact E3].
Defined.

Lemma runs_keep_what_the_target_holds_witness :
  x_tree !! ["a.txt"] = Some (NFile (File "X" true))
  ∧ tree (main (H := demo_env None) Execute "T" y_source x_tree ["j"]).2 !! ["a.txt"]
    = Some (NFile (File "X" true)).
Proof.
  assert (x_tree !! ["a.txt"] = Some (NFile (File "X" true))) as Hn by by vm_compute.
  split; [exact Hn|].
  apply (runs_keep_what_the_target_holds (H := demo_env None) Execute "T" y_source x_tree
           ["j"] ["a.txt"] (NFile (File "X" true))); [by vm_compute | exact Hn].
Defined.

Lemma declined_run_copies_nothing_witness :
  says_j "n" = false
  ∧ (execute (H := demo_env None) twins (init "T" empty_dir ["n"])).1 = Some false
  ∧ stats (execute (H := demo_env None) twins (init "T" empty_dir ["n"])).2
    = stats (init "T" empty_dir ["n"]).
Proof.
  split; [done|].
  destruct (declined_run_copies_nothing (H := demo_env None) twins
              (init "T" empty_dir ["n"]) "n" [] eq_refl eq_refl) as (E1 & _ & _ & E4 & _).
  split; [exact E1 | exact E4].
Defined.

Lemma end_of_input_ends_the_run_witness :
  (execute (H := demo_env None) twins (init "T" empty_dir [])).1 = None
  ∧ target_md5s (execute (H := demo_env None) twins (init "T" empty_dir [])).2 = ∅.
Proof.
  destruct (end_of_input_ends_the_run (H := demo_env None) twins
              (init "T" empty_dir []) eq_refl) as (E1 & _ & _ & E4).
  split; [exact E1 | exact E4].
Defined.

Lemma execute_asks_once_witness :
  (∀ free, free_space (Env := demo_env (Some 5)) = Some free → 0 ≤ free)
  ∧ (main (H := demo_env (Some 5)) Execute "T" twins empty_dir ["j"; "n"]).1 = Some true
  ∧ stdin (main (H := demo_env (Some 5)) Execute "T" twins empty_dir ["j"; "n"]).2 = ["n"].
Proof.
  assert (∀ free, free_space (Env := demo_env (Some 5)) = Some free → 0 ≤ free) as Hf.
  { intros free [= <-]. lia. }
  split; [exact Hf|].
  destruct (execute_asks_once (H := demo_env (Some 5)) "T" twins empty_dir "j" ["n"] Hf)
    as (E1 & E2 & _).
  split; [exact E1 | exact E2].
Defined.

Lemma copy_counters_add_up_witness :
  copied (stats (main (H := demo_env None) Execute "T" hundred_files empty_dir ["j"]).2) = 100
  ∧ copied (stats (main (H := demo_env None) Execute "T" hundred_files empty_dir ["j"]).2)
    + duplicates (stats (main (H := demo_env None) Execute "T" hundred_files empty_dir ["j"]).2)
    + errors (stats (main (H := demo_env None) Execute "T" hundred_files empty_dir ["j"]).2)
    = Z.of_nat (length hundred_files)
      + copied (stats (main (H := demo_env None) Execute "T" hundred_files empty_dir
                         ["j"]).2) / 100.
Proof.
  split; [by vm_compute|].
  apply (copy_counters_add_up (H := demo_env None) "T" hundred_files empty_dir ["j"]).
  by vm_compute.
Defined.




Lemma rerun_on_a_mirrored_target_witness :
  mirror_tree !! rel song = Some (NFile (File "Z" true))
  ∧ (main (H := demo_env None) Execute "T" [song] mirror_tree ["j"]).1 = Some true
  ∧ copied (stats (main (H := demo_env None) Execute "T" [song] mirror_tree ["j"]).2) = 0
  ∧ duplicates (stats (main (H := demo_env None) Execute "T" [song] mirror_tree ["j"]).2) = 1.
Proof.
  assert (mirror_tree !! rel song = Some (NFile (File "Z" true))) as Hg by by vm_compute.
  assert ((main (H := demo_env None) Execute "T" [song] mirror_tree ["j"]).1 = Some true)
    as Hrun by by vm_compute.
  split; [exact Hg|]. split; [exact Hrun|].
  destruct (rerun_on_a_mirrored_target (H := demo_env None) "T" [song] mirror_tree ["j"])
    as (E1 & _ & E3 & _).
  - intros f Hf. apply list_elem_of_singleton in Hf as ->.
    split_and!; [done | by vm_compute | by vm_compute | |].
    + exists (File "Z" true). split_and!; [exact Hg | done | done].
    + apply Forall_forall. intros d Hd. apply list_elem_of_In in Hd. vm_compute in Hd.
      destruct Hd as [<- | [<- | []]]; by vm_compute.
  - exact Hrun.
  - split; [exact E1 | exact E3].
Defined.

(** the log file of a run that had to make it *)
Lemma made_log_file `{Env} (t : gmap path node) (lf : path) (s : state) :
  t !! lf = None →
  tree s !! lf
  = Some (NFile (File
       (match t !! lf with Some (NFile g) => data g | _ => "" end
        +:+ log_text (console s))
       (match t !! lf with Some (NFile g) => readable g | _ => true end))) →
  tree s !! lf = Some (NFile (File (log_text (console s)) true)).
Proof. intros -> E. exact E. Qed.

Lemma log_file_mirrors_the_console_witness :
  empty_dir !! [] = Some NDir
  ∧ empty_dir !! ["merge_T.log"] = None
  ∧ tree (main (H := demo_env None) DryRun "T" twins empty_dir []).2 !! ["merge_T.log"]
    = Some (NFile (File
         (log_text (H := demo_env None)
            (console (main (H := demo_env None) DryRun "T" twins empty_dir []).2))
         true)).
Proof.
  assert (empty_dir !! [] = Some NDir) as Hr by by vm_compute.
  assert (empty_dir !! ["merge_T.log"] = None) as Hn by by vm_compute.
  split; [exact Hr|]. split; [exact Hn|].
  apply (made_log_file (H := demo_env None) empty_dir ["merge_T.log"] _ Hn).
  apply (log_file_mirrors_the_console (H := demo_env None) DryRun "T" twins empty_dir []
           Hr).
  - by vm_compute.
  - reflexivity.
Defined.

Lemma failed_space_check_goes_on_witness :
  disk_usage (H := demo_env (Some (5 * 1024 ^ 3))) ten_gb_one_answer = Some (5 * 1024 ^ 3)
  ∧ 5 * 1024 ^ 3 < total_size (stats ten_gb_one_answer)
  ∧ (execute (H := demo_env (Some (5 * 1024 ^ 3))) twins ten_gb_one_answer).1 = Some true
  ∧ Logged "Platzpruefung fehlgeschlagen" [] []
      ∈ console (execute (H := demo_env (Some (5 * 1024 ^ 3))) twins ten_gb_one_answer).2.
Proof.
  assert (disk_usage (H := demo_env (Some (5 * 1024 ^ 3))) ten_gb_one_answer
          = Some (5 * 1024 ^ 3)) as Hd by by vm_compute.
  assert (5 * 1024 ^ 3 < total_size (stats ten_gb_one_answer)) as Hlt by by vm_compute.
  split; [exact Hd|]. split; [exact Hlt|].
  destruct (failed_space_check_goes_on (H := demo_env (Some (5 * 1024 ^ 3))) twins
              ten_gb_one_answer "j" [] eq_refl eq_refl) as (E1 & E2 & _).
  - right. exists (5 * 1024 ^ 3). split_and!; [exact Hd | exact Hlt | done].
  - split; [exact E1 | exact E2].
Defined.

Lemma execute_after_dry_run_witness :
  (execute (H := demo_env None) copy_source
     (dry_run (H := demo_env None) copy_source (init "T" orig_tree ["j"])).2).1 = Some true
  ∧ copied (stats (execute (H := demo_env None) copy_source
                     (dry_run (H := demo_env None) copy_source
                        (init "T" orig_tree ["j"])).2).2) = 0.
Proof.
  assert ((execute (H := demo_env None) copy_source
             (dry_run (H := demo_env None) copy_source (init "T" orig_tree ["j"])).2).1
          = Some true) as Hrun by by vm_compute.
  split; [exact Hrun|].
  destruct (execute_after_dry_run_skips_target_content (H := demo_env None)
              (init "T" orig_tree ["j"]) copy_source copy_source) as (E1 & _).
  - by vm_compute.
  - intros f Hf. apply list_elem_of_singleton in Hf as ->.
    split_and!; [done | by vm_compute |].
    exists ["orig"; "x.bin"], (File "Z" true).
    split_and!; [by vm_compute | by vm_compute | done | done].
  - exact Hrun.
  - exact E1.
Defined.

Lemma index_is_backed_by_the_target_witness :
  demo_md5 "Z" ∈ target_md5s (main (H := demo_env None) Execute "T" twins ∅ ["j"]).2
  ∧ presentb (H := demo_env None) (demo_md5 "Z")
      (tree (main (H := demo_env None) Execute "T" twins ∅ ["j"]).2) = true.
Proof.
  assert (demo_md5 "Z" ∈ target_md5s (main (H := demo_env None) Execute "T" twins ∅ ["j"]).2)
    as Hin.
  { apply (bool_decide_unpack _). by vm_compute. }
  split; [exact Hin|].
  apply (index_is_backed_by_the_target (H := demo_env None) "T" twins ∅ ["j"]).
  - intros f Hf. apply list_elem_of_In in Hf. simpl in Hf.
    destruct Hf as [<- | [<- | []]]; by vm_compute.
  - right. intros q g. by rewrite lookup_empty.
  - apply (bool_decide_unpack (NoDup (rel <$> twins))). by vm_compute.
  - by vm_compute.
  - exact Hin.
Defined.
